(** * Wingbot: request action resolution, code resolvers, text renderers,
      responder state patch and the configuration cache.

    A shallow embedding of
      - [src/Request.js]            ([Request.intent], [Request.action], ...),
      - [src/resolvers/utils.js]    ([customFn], [getLanguageText],
                                     [randomizedCompiler],
                                     [cachedTranslatedCompilator],
                                     [processButtons]),
      - [src/resolvers/inlineCode.js],
      - [src/Responder.js]          ([setState], [setData], [text], ...),
    together with a model of the single-flight configuration cache that
    [test/buildRouter.js] exercises. *)

From Stdlib Require Import ZArith Bool List Ascii String.
From Stdlib Require Import Floats.PrimFloat Floats.SpecFloat Floats.FloatOps.
From Stdlib Require Import Numbers.Cyclic.Int63.Uint63.
From stdpp Require Import base option list gmap strings.

Set Warnings "-register-all".

Local Open Scope string_scope.
Local Open Scope list_scope.

(** ** JavaScript values *)

Module Js.

(** Function values and promises carry nothing but an identity: what a
    function does when called, and how a promise settles, is given by the
    environment. *)
Definition fn_id := nat.
Definition promise_id := nat.

(** The values the modelled code inspects. Numbers are IEEE binary64, as in
    JavaScript. Strings are sequences of bytes, the UTF-8 encoding of the
    JavaScript string (the code compares them only with ASCII literals).
    Objects are ordered lists of own properties; the first binding of a key
    is the one a read sees. *)
Inductive JsVal : Type :=
| JUndefined
| JNull
| JBool (b : bool)
| JNum (x : float)
| JStr (s : string)
| JArr (items : list JsVal)
| JObj (props : list (string * JsVal))
| JFun (f : fn_id)
| JPromise (p : promise_id).

(** Errors thrown by the code or by the runtime. *)
Inductive JsError : Type :=
| Error (message : string)
| TypeError (message : string)
| Thrown (v : JsVal).

(** Result of a computation that may throw. *)
Inductive Exc (A : Type) : Type :=
| Ok (a : A)
| Throw (e : JsError).
Arguments Ok {A} a.
Arguments Throw {A} e.

Definition bind {A B} (c : Exc A) (k : A -> Exc B) : Exc B :=
  match c with
  | Ok a => k a
  | Throw e => Throw e
  end.

Notation "x <- c ;; k" := (bind c (fun x => k))
  (at level 100, c at next level, right associativity).

(** Computations that read and write a state [S] and may throw; what was
    written before a throw stays written. *)
Definition StM (S A : Type) : Type := S -> Exc A * S.

Definition ret {S A} (a : A) : StM S A := fun w => (Ok a, w).
Definition throw {S A} (e : JsError) : StM S A := fun w => (Throw e, w).
Definition lift {S A} (c : Exc A) : StM S A := fun w => (c, w).
Definition mbind {S A B} (c : StM S A) (k : A -> StM S B) : StM S B :=
  fun w =>
    match c w with
    | (Ok a, w') => k a w'
    | (Throw e, w') => (Throw e, w')
    end.

Notation "x <~ c ;; k" := (mbind c (fun x => k))
  (at level 100, c at next level, right associativity).

(** [ToBoolean]. *)
Definition truthy (v : JsVal) : bool :=
  match v with
  | JUndefined | JNull => false
  | JBool b => b
  | JNum x => (PrimFloat.eqb x x && negb (PrimFloat.eqb x 0%float))%bool
  | JStr s => negb (String.eqb s "")
  | JArr _ | JObj _ | JFun _ | JPromise _ => true
  end.

Definition falsy (v : JsVal) : bool := negb (truthy v).

(** [a || b] and [a && b] on values (both operands already evaluated). *)
Definition js_or (a b : JsVal) : JsVal := if truthy a then a else b.
Definition js_and (a b : JsVal) : JsVal := if truthy a then b else a.

(** The [typeof] operator. *)
Definition typeof (v : JsVal) : string :=
  match v with
  | JUndefined => "undefined"
  | JNull => "object"
  | JBool _ => "boolean"
  | JNum _ => "number"
  | JStr _ => "string"
  | JArr _ | JObj _ | JPromise _ => "object"
  | JFun _ => "function"
  end.

(** [a === b]. Objects and arrays compare by reference; the values here are
    trees without identity, and two of them are never taken to be the same
    object. *)
Definition strict_eq (a b : JsVal) : bool :=
  match a, b with
  | JUndefined, JUndefined => true
  | JNull, JNull => true
  | JBool x, JBool y => Bool.eqb x y
  | JNum x, JNum y => PrimFloat.eqb x y
  | JStr x, JStr y => String.eqb x y
  | JFun f, JFun g => Nat.eqb f g
  | JPromise p, JPromise q => Nat.eqb p q
  | _, _ => false
  end.

(** [SameValueZero], the equality of [Map] keys: as [===], but [NaN] equals
    itself. *)
Definition same_value_zero (a b : JsVal) : bool :=
  match a, b with
  | JNum x, JNum y =>
      PrimFloat.eqb x y || (negb (PrimFloat.eqb x x) && negb (PrimFloat.eqb y y))
  | _, _ => strict_eq a b
  end.

(** A [Map]: entries in insertion order, at most one per key. *)
Definition JsMap (V : Type) : Type := list (JsVal * V).

Fixpoint map_get {V} (m : JsMap V) (k : JsVal) : option V :=
  match m with
  | [] => None
  | (k', v) :: rest => if same_value_zero k' k then Some v else map_get rest k
  end.

Fixpoint map_set {V} (m : JsMap V) (k : JsVal) (v : V) : JsMap V :=
  match m with
  | [] => [(k, v)]
  | (k', v') :: rest =>
      if same_value_zero k' k then (k', v) :: rest
      else (k', v') :: map_set rest k v
  end.

Definition isArray (v : JsVal) : bool :=
  match v with JArr _ => true | _ => false end.

(** [Math.floor] of a number, when the result is finite. *)
Definition float_floor (x : float) : option Z :=
  match Prim2SF x with
  | S754_zero _ => Some 0%Z
  | S754_finite sign m e =>
      Some (Z.shiftl (if sign then Z.neg m else Z.pos m) e)
  | _ => None
  end.

Definition float_of_nat (n : nat) : float :=
  PrimFloat.of_uint63 (Uint63.of_Z (Z.of_nat n)).

(** [s.length]: the number of UTF-16 code units of the string. A byte
    below 128 and the first byte of a sequence of two or three bytes stand
    for one unit, the first byte of a sequence of four bytes for a
    surrogate pair, a continuation byte for none. *)
Definition utf16_units (c : ascii) : nat :=
  let n := nat_of_ascii c in
  if (n <? 128)%nat then 1
  else if (n <? 192)%nat then 0
  else if (n <? 240)%nat then 1
  else 2.

Fixpoint utf16_length (s : string) : nat :=
  match s with
  | EmptyString => 0
  | String c rest => utf16_units c + utf16_length rest
  end.

(** The state an awaited promise ends in. *)
Inductive Async (A : Type) : Type :=
| Resolved (a : A)
| Rejected (e : JsError)
| Pending.
Arguments Resolved {A} a.
Arguments Rejected {A} e.
Arguments Pending {A}.

Fixpoint lookup_prop (props : list (string * JsVal)) (k : string) : JsVal :=
  match props with
  | [] => JUndefined
  | (k', v) :: rest => if String.eqb k' k then v else lookup_prop rest k
  end.

(** Property read [v.k] for the property names the modelled code uses (none
    of them is a property of a built-in prototype): reading from [undefined]
    or [null] throws a [TypeError], a primitive has no such property. *)
Definition get_prop (v : JsVal) (k : string) : Exc JsVal :=
  match v with
  | JUndefined =>
      Throw (TypeError ("Cannot read property '" ++ k ++ "' of undefined"))
  | JNull =>
      Throw (TypeError ("Cannot read property '" ++ k ++ "' of null"))
  | JObj props => Ok (lookup_prop props k)
  | _ => Ok JUndefined
  end.

(** Property read that cannot throw because the receiver is known to be an
    object or a primitive other than [undefined] and [null]. *)
Definition prop (v : JsVal) (k : string) : JsVal :=
  match v with
  | JObj props => lookup_prop props k
  | _ => JUndefined
  end.

(** An object whose [then] is a function: [await], and the resolution of a
    promise, call [then] instead of taking the object as the value. *)
Definition thenable (v : JsVal) : bool :=
  match v with
  | JObj props => String.eqb (typeof (lookup_prop props "then")) "function"
  | _ => false
  end.

(** The values [await] does not hand back as they are: promises and
    thenables. *)
Definition awaitable (v : JsVal) : bool :=
  match v with
  | JPromise _ => true
  | _ => thenable v
  end.

End Js.

(** ** [src/Request.js] *)

Module Request.
Import Js.

(** [BASE64_REGEX]:
    [/^(?:[A-Za-z0-9+/]{4})*(?:[A-Za-z0-9+/]{2}==|[A-Za-z0-9+/]{3}=)?$/]. *)
Definition is_base64_char (c : ascii) : bool :=
  let n := nat_of_ascii c in
  ((65 <=? n) && (n <=? 90) || (97 <=? n) && (n <=? 122)
   || (48 <=? n) && (n <=? 57) || (n =? 43) || (n =? 47))%nat%bool.

Definition is_pad (c : ascii) : bool := (nat_of_ascii c =? 61)%nat.

Fixpoint BASE64_REGEX (s : string) : bool :=
  match s with
  | EmptyString => true
  | String a (String b (String c (String d rest))) =>
      if is_base64_char a && is_base64_char b
         && is_base64_char c && is_base64_char d
      then BASE64_REGEX rest
      else
        match rest with
        | EmptyString =>
            is_base64_char a && is_base64_char b
            && (is_pad c && is_pad d || is_base64_char c && is_pad d)
        | _ => false
        end
  | _ => false
  end.

(** [@typedef Intent]. *)
Record Intent : Type := mkIntent {
  intent_name : string;      (* prop [intent] *)
  intent_score : float;      (* prop [score] *)
  intent_entities : JsVal    (* prop [entities], optional *)
}.

(** What [Request.intent] returns: [null], the label, or the intent record. *)
Inductive IntentResult : Type :=
| IntentNull
| IntentLabel (label : string)
| IntentData (i : Intent).

(** What [parseActionPayload] returns: an object destructured as
    [{ action }] or [{ data }]. *)
Record ParsedPayload : Type := mkParsed {
  payload_action : JsVal;
  payload_data : JsVal
}.

Record Request : Type := mkRequest {
  data : JsVal;
  message : JsVal;
  _postback : JsVal;
  _referral : JsVal;
  _optin : JsVal;
  attachments : JsVal;
  timestamp : JsVal;
  senderId : JsVal;
  recipientId : JsVal;
  pageId : JsVal;
  state : JsVal;
  _intents : option (list Intent)   (* [null] or an array of intents *)
}.

(** [a && a.k]: the read happens only when [a] is truthy, so it cannot throw. *)
Definition and_prop (a : JsVal) (k : string) : JsVal :=
  js_and a (prop a k).

(** [constructor (data, state, pageId)]; [now] is the value of [Date.now()]. *)
Definition new (data state pageId : JsVal) (now : float) : Exc Request :=
  message0 <- get_prop data "message" ;;
  postback0 <- get_prop data "postback" ;;
  let postback := js_or postback0 JNull in
  referral0 <- get_prop data "referral" ;;
  optin0 <- get_prop data "optin" ;;
  timestamp0 <- get_prop data "timestamp" ;;
  sender0 <- get_prop data "sender" ;;
  recipient0 <- get_prop data "recipient" ;;
  Ok {| data := data;
        message := js_or message0 JNull;
        _postback := postback;
        _referral := js_or (js_or (and_prop postback "referral") referral0) JNull;
        _optin := js_or optin0 JNull;
        attachments := js_or (and_prop message0 "attachments") (JArr []);
        timestamp := js_or timestamp0 (JNum now);
        senderId := js_or (and_prop sender0 "id") JNull;
        recipientId := and_prop recipient0 "id";
        pageId := pageId;
        state := state;
        _intents := None |}.

(** [req._intents = intents], as the AI middleware does. *)
Definition set_intents (this : Request) (intents : option (list Intent))
  : Request :=
  {| data := data this; message := message this;
     _postback := _postback this; _referral := _referral this;
     _optin := _optin this; attachments := attachments this;
     timestamp := timestamp this; senderId := senderId this;
     recipientId := recipientId this; pageId := pageId this;
     state := state this; _intents := intents |}.

(** [x === null]. *)
Definition is_null (v : JsVal) : bool :=
  match v with JNull => true | _ => false end.

(** [intent (getDataOrScore = false)]. *)
Definition intent (this : Request) (getDataOrScore : JsVal) : IntentResult :=
  match _intents this with
  | None | Some [] => IntentNull
  | Some (i :: _) =>
      match getDataOrScore with
      | JNum s =>
          if PrimFloat.leb s (intent_score i)
          then IntentLabel (intent_name i)
          else IntentNull
      | g => if truthy g then IntentData i else IntentLabel (intent_name i)
      end
  end.

Section WithUtils.

(** Helpers the file imports from [./utils] ([tokenize], [quickReplyAction],
    [parseActionPayload]) and Node's base64 decoding
    [Buffer.from(s, 'base64').toString('utf8')]: taken as parameters, each
    allowed to throw. *)
Variable parseActionPayload : JsVal -> Exc ParsedPayload.
Variable quickReplyAction : JsVal -> JsVal -> JsVal -> Exc JsVal.
Variable tokenize : JsVal -> Exc JsVal.
Variable base64_to_utf8 : string -> string.

(** [_processPayload (object = {}, getData = false)]. *)
Definition _processPayload (object : JsVal) (getData : bool) : Exc JsVal :=
  let object := match object with JUndefined => JObj [] | o => o end in
  if getData then
    p <- parseActionPayload object ;;
    Ok (payload_data p)
  else
    p <- parseActionPayload object ;;
    Ok (payload_action p).

(** [_base64Ref (object = {}, getData = false)]. *)
Definition _base64Ref (object : JsVal) (getData : bool) : Exc JsVal :=
  let object := match object with JUndefined => JObj [] | o => o end in
  let process :=
    if truthy (and_prop object "ref") then
      let payload := prop object "ref" in
      let payload :=
        match payload with
        | JStr s => if BASE64_REGEX s then JStr (base64_to_utf8 s) else payload
        | _ => payload
        end in
      JObj [("payload", payload)]
    else JObj [] in
  _processPayload process getData.

(** [text (tokenized = false)]. *)
Definition text (this : Request) (tokenized : bool) : Exc JsVal :=
  if is_null (message this) then Ok (JStr "")
  else
    t <- get_prop (message this) "text" ;;
    if tokenized && truthy t then tokenize t
    else Ok (js_or t (JStr "")).

(** [expected ()]. *)
Definition expected (this : Request) : Exc JsVal :=
  e <- get_prop (state this) "_expected" ;;
  Ok (js_or e JNull).

(** [quickReply (getData = false)]. *)
Definition quickReply (this : Request) (getData : bool) : Exc JsVal :=
  if is_null (message this) then Ok JNull
  else
    qr <- get_prop (message this) "quick_reply" ;;
    if falsy qr then Ok JNull else _processPayload qr getData.

(** [postBack (getData = false)]. *)
Definition postBack (this : Request) (getData : bool) : Exc JsVal :=
  if is_null (_postback this) then Ok JNull
  else _processPayload (_postback this) getData.

(** [isPassThread ()]. *)
Definition isPassThread (this : Request) : Exc JsVal :=
  target <- get_prop (data this) "target_app_id" ;;
  control <- get_prop (data this) "pass_thread_control" ;;
  Ok (js_or target control).

(** [_actionByExpectedKeywords (getData = false)]. *)
Definition _actionByExpectedKeywords (this : Request) (getData : bool)
  : Exc JsVal :=
  let res := JNull in
  keywords <- get_prop (state this) "_expectedKeywords" ;;
  if falsy res && truthy keywords then
    tokenized <- text this true ;;
    plain <- text this false ;;
    payload <- quickReplyAction keywords tokenized plain ;;
    if truthy payload then _processPayload payload getData else Ok res
  else Ok res.

(** [action (getData = false)]: one definition per statement of the body,
    in the order of the source; each takes the value of [res] before the
    statement and returns its value after it. *)

(** [if (this._referral !== null && this._referral.ref) { res = ... }] *)
Definition action_referral (this : Request) (getData : bool) (res : JsVal)
  : Exc JsVal :=
  if is_null (_referral this) then Ok res
  else
    ref <- get_prop (_referral this) "ref" ;;
    if truthy ref
    then _processPayload (JObj [("payload", ref)]) getData
    else Ok res.

(** [if (!res && this._postback !== null) { res = ... }] *)
Definition action_postback (this : Request) (getData : bool) (res : JsVal)
  : Exc JsVal :=
  if falsy res && negb (is_null (_postback this))
  then _processPayload (_postback this) getData
  else Ok res.

(** [if (!res && this._optin !== null && this._optin.ref) { res = ... }] *)
Definition action_optin (this : Request) (getData : bool) (res : JsVal)
  : Exc JsVal :=
  if falsy res && negb (is_null (_optin this)) then
    ref <- get_prop (_optin this) "ref" ;;
    if truthy ref then _base64Ref (_optin this) getData else Ok res
  else Ok res.

(** [if (!res && this.message !== null && this.message.quick_reply)
     { res = ... }] *)
Definition action_quick_reply (this : Request) (getData : bool) (res : JsVal)
  : Exc JsVal :=
  if falsy res && negb (is_null (message this)) then
    qr <- get_prop (message this) "quick_reply" ;;
    if truthy qr then _processPayload qr getData else Ok res
  else Ok res.

(** [if (!res && this.isPassThread()) { ... }] *)
Definition action_pass_thread (this : Request) (getData : bool) (res : JsVal)
  : Exc JsVal :=
  if falsy res then
    pass <- isPassThread this ;;
    if truthy pass then
      control <- get_prop (data this) "pass_thread_control" ;;
      metadata <- get_prop control "metadata" ;;
      res <- (if truthy metadata
              then _processPayload (JObj [("payload", metadata)]) getData
              else Ok res) ;;
      if negb getData && falsy res then Ok (JStr "pass-thread") else Ok res
    else Ok res
  else Ok res.

(** [if (!res && this.state._expectedKeywords) { res = ... }] *)
Definition action_keywords (this : Request) (getData : bool) (res : JsVal)
  : Exc JsVal :=
  if falsy res then
    keywords <- get_prop (state this) "_expectedKeywords" ;;
    if truthy keywords then _actionByExpectedKeywords this getData else Ok res
  else Ok res.

(** [if (!res && this.state._expected) { res = ... }] *)
Definition action_expected (this : Request) (getData : bool) (res : JsVal)
  : Exc JsVal :=
  if falsy res then
    exp <- get_prop (state this) "_expected" ;;
    if truthy exp then _processPayload exp getData else Ok res
  else Ok res.

Definition action (this : Request) (getData : bool) : Exc JsVal :=
  let res := JNull in
  res <- action_referral this getData res ;;
  res <- action_postback this getData res ;;
  res <- action_optin this getData res ;;
  res <- action_quick_reply this getData res ;;
  res <- action_pass_thread this getData res ;;
  res <- action_keywords this getData res ;;
  res <- action_expected this getData res ;;
  if getData then Ok (js_or res (JObj [])) else Ok (js_or res JNull).

(** The value [action] returns once its statements have run:
    [res || {}] when data are asked for, [res || null] otherwise. *)
Definition finish (getData : bool) (res : JsVal) : JsVal :=
  if getData then js_or res (JObj []) else js_or res JNull.

(** The statements of [action] after the first one; all of them start with
    the test [!res]. *)
Definition guarded_steps (this : Request) (getData : bool)
  : list (JsVal -> Exc JsVal) :=
  [ action_postback this getData;
    action_optin this getData;
    action_quick_reply this getData;
    action_pass_thread this getData;
    action_keywords this getData;
    action_expected this getData ].

(** What each signal of the event or of the state resolves to when it is
    looked at on its own (with [res] still [null]), in the order the body of
    [action] consults them. *)
Definition source_referral this getData := action_referral this getData JNull.
Definition source_postback this getData := action_postback this getData JNull.
Definition source_optin this getData := action_optin this getData JNull.
Definition source_quick_reply this getData :=
  action_quick_reply this getData JNull.
Definition source_pass_thread this getData :=
  action_pass_thread this getData JNull.
Definition source_keywords this getData := action_keywords this getData JNull.
Definition source_expected this getData := action_expected this getData JNull.

Definition sources (this : Request) (getData : bool) : list (Exc JsVal) :=
  [ source_referral this getData;
    source_postback this getData;
    source_optin this getData;
    source_quick_reply this getData;
    source_pass_thread this getData;
    source_keywords this getData;
    source_expected this getData ].

(** A source yields nothing when it evaluates to a falsy value. *)
Definition yields_nothing (s : Exc JsVal) : Prop :=
  exists w, s = Ok w /\ truthy w = false.

(** Running statements one after the other. *)
Fixpoint run_steps (steps : list (JsVal -> Exc JsVal)) (res : JsVal)
  : Exc JsVal :=
  match steps with
  | [] => Ok res
  | step :: rest => res' <- step res ;; run_steps rest res'
  end.

(** A statement guarded by [!res]: it keeps a truthy [res], and from a falsy
    [res] it does what it does from [null], up to which falsy value is
    left in [res] when it assigns nothing. *)
Definition guarded (step : JsVal -> Exc JsVal) : Prop :=
  forall res,
    (truthy res = true -> step res = Ok res) /\
    (truthy res = false ->
       step res = step JNull \/ (step res = Ok res /\ step JNull = Ok JNull)).

End WithUtils.

End Request.

(** ** Sample inputs for the examples

    The helpers of [./utils] are parameters of the development; the examples
    run the code with the simple stand-ins below. *)

Module Samples.
Import Js Request.

(** A payload parser in the shape [Request] expects: a string payload is the
    action, an object payload carries [action] and [data]. *)
Definition sample_parse (object : JsVal) : Exc ParsedPayload :=
  match prop object "payload" with
  | JStr s => Ok {| payload_action := JStr s; payload_data := JObj [] |}
  | JObj props =>
      Ok {| payload_action := lookup_prop props "action";
            payload_data := js_or (lookup_prop props "data") (JObj props) |}
  | _ =>
      Ok {| payload_action := prop object "action";
            payload_data := js_or (prop object "data") (JObj []) |}
  end.

(** No keyword ever matches. *)
Definition sample_quickReplyAction (keywords tokenized plain : JsVal)
  : Exc JsVal := Ok JNull.

Definition sample_tokenize (t : JsVal) : Exc JsVal := Ok t.

Definition sample_base64 (s : string) : string := s.

(** An event with a postback payload and a quick-reply payload. *)
Definition postback_and_quick_reply : JsVal :=
  JObj [ ("sender", JObj [("id", JStr "user")]);
         ("postback", JObj [("payload", JStr "from-postback")]);
         ("message",
          JObj [ ("text", JStr "hello");
                 ("quick_reply", JObj [("payload", JStr "from-quick-reply")])
               ]) ].

(** An event that only names the application the thread is passed to. *)
Definition target_app_only : JsVal :=
  JObj [ ("sender", JObj [("id", JStr "user")]);
         ("target_app_id", JStr "app") ].

(** A pass-thread event without metadata. *)
Definition pass_thread_no_metadata : JsVal :=
  JObj [ ("sender", JObj [("id", JStr "user")]);
         ("pass_thread_control",
          JObj [("new_owner_app_id", JStr "app"); ("metadata", JNull)]) ].

(** A state in which the last response expected the action ['next']. *)
Definition expecting_state : JsVal :=
  JObj [("_expected",
         JObj [("action", JStr "next"); ("data", JObj [])])].

(** The request [new Request(data, state, pageId)] builds; building it from
    the events above does not throw. *)
Definition request_of (data state : JsVal) : Request :=
  match Request.new data state (JStr "page") 1%float with
  | Ok r => r
  | Throw _ => mkRequest data JNull JNull JNull JNull (JArr []) JNull JNull
                 JUndefined (JStr "page") state None
  end.

End Samples.

(** ** [src/resolvers/utils.js] and [src/resolvers/inlineCode.js] *)

Module Resolvers.
Import Js.

Definition TYPE_SHARE := "element_share".
Definition TYPE_URL := "web_url".
Definition TYPE_URL_WITH_EXT := "web_url_extension".
Definition TYPE_POSTBACK := "postback".
Definition WEBVIEW_TALL := "tall".

(** What [randomizedCompiler] returns: the function [hbs.compile] made, or
    the arrow function that closes over the array [texts]. *)
Inductive Renderer : Type :=
| Template (f : JsVal)
| Randomized (texts : list JsVal).

(** Calls received by the template under construction ([elem]). *)
Inductive ElemCall : Type :=
| urlButton (title url hasExtention webviewHeight : JsVal)
| postBackButton (title action : JsVal)
| shareButton (title : JsVal).

(** What the code of this module reads and writes besides its arguments:
    how many values [Math.random()] has handed out, the [cache] of the
    closure [cachedTranslatedCompilator] returned, and the calls [elem]
    received. *)
Record World : Type := mkWorld {
  draws : nat;
  cache : JsMap Renderer;
  elem : list ElemCall
}.

Definition set_draws (w : World) (n : nat) : World :=
  {| draws := n; cache := cache w; elem := elem w |}.
Definition set_cache (w : World) (c : JsMap Renderer) : World :=
  {| draws := draws w; cache := c; elem := elem w |}.
Definition set_elem (w : World) (e : list ElemCall) : World :=
  {| draws := draws w; cache := cache w; elem := e |}.

(** Computations over the world that may throw. *)
Definition M (A : Type) : Type := StM World A.

Definition array_items (v : JsVal) : list JsVal :=
  match v with JArr items => items | _ => [] end.

(** [texts[index]] for the number [index]. *)
Definition array_get (texts : list JsVal) (index : option Z) : JsVal :=
  match index with
  | Some i =>
      if (0 <=? i)%Z then List.nth (Z.to_nat i) texts JUndefined
      else JUndefined
  | None => JUndefined
  end.

(** [texts[index] = v]: inside the array the element is replaced, past its
    end the array grows (the gap reads [undefined]). An index that is not an
    array index (negative or not finite) would name an ordinary property;
    [Math.floor(Math.random() * n)] is never one, and the write is dropped. *)
Definition array_set (texts : list JsVal) (index : option Z) (v : JsVal)
  : list JsVal :=
  match index with
  | Some i =>
      if (0 <=? i)%Z then
        let k := Z.to_nat i in
        if (k <? length texts)%nat then <[k := v]> texts
        else texts ++ List.repeat JUndefined (k - length texts) ++ [v]
      else texts
  | None => texts
  end.

(** [isArrayOfObjects (translations)]. *)
Definition isArrayOfObjects (translations : JsVal) : bool :=
  isArray translations
  && String.eqb (typeof (List.nth 0 (array_items translations) JUndefined))
       "object"
  && negb (strict_eq (List.nth 0 (array_items translations) JUndefined) JNull).

(** [isTextObjectEmpty (text)]. *)
Definition isTextObjectEmpty (text : JsVal) : bool :=
  if falsy text || falsy (prop text "t") then true
  else if isArray (prop text "t")
       then negb (List.existsb truthy (array_items (prop text "t")))
       else false.

(** [translations.find(t => t.l === lang)]. *)
Fixpoint find_lang (translations : list JsVal) (lang : JsVal) : Exc JsVal :=
  match translations with
  | [] => Ok JUndefined
  | t :: rest =>
      l <- get_prop t "l" ;;
      if strict_eq l lang then Ok t else find_lang rest lang
  end.

(** [translations.find(t => !isTextObjectEmpty(t))]. *)
Definition find_not_empty (translations : list JsVal) : JsVal :=
  match List.find (fun t => negb (isTextObjectEmpty t)) translations with
  | Some t => t
  | None => JUndefined
  end.

(** [getLanguageText (translations, lang = null)]. *)
Definition getLanguageText (translations lang : JsVal) : Exc JsVal :=
  let lang := match lang with JUndefined => JNull | l => l end in
  foundText <-
    (if isArrayOfObjects translations then
       foundText <- (if truthy lang
                     then find_lang (array_items translations) lang
                     else Ok JUndefined) ;;
       let foundText :=
         if isTextObjectEmpty foundText
         then find_not_empty (array_items translations)
         else foundText in
       Ok (if truthy foundText then prop foundText "t" else JNull)
     else Ok translations) ;;
  if isArray foundText then
    let foundText := List.filter truthy (array_items foundText) in
    if (length foundText =? 0)%nat then Ok (JStr "")
    else Ok (js_or (JArr foundText) (JStr ""))
  else Ok (js_or foundText (JStr "")).

Section WithRuntime.

(** The JavaScript runtime and the template library [./hbs]: [eval], calling
    a function value, how a promise settles, what calling the [then] of a
    thenable leads to, [ToString] (template literals), the values
    [Math.random()] returns one after the other, and [hbs.compile]. *)
Variable js_eval : string -> Exc JsVal.
Variable apply_fn : fn_id -> list JsVal -> Exc JsVal.
Variable settle : promise_id -> Async JsVal.
Variable settle_thenable : JsVal -> Async JsVal.
Variable to_string : JsVal -> string.
Variable Math_random : nat -> float.
Variable hbs_compile : JsVal -> Exc JsVal.

(** [f(...args)]. *)
Definition js_call (f : JsVal) (args : list JsVal) : Exc JsVal :=
  match f with
  | JFun id => apply_fn id args
  | _ => Throw (TypeError (to_string f ++ " is not a function"))
  end.

(** [await v], and the resolution of a promise with [v]: a promise is
    waited for, a thenable is asked through its [then], any other value is
    the result. *)
Definition await (v : JsVal) : Async JsVal :=
  match v with
  | JPromise p => settle p
  | _ => if thenable v then settle_thenable v else Resolved v
  end.

(** [e.message] in a [catch (e)] block. *)
Definition error_message (e : JsError) : Exc JsVal :=
  match e with
  | Error m | TypeError m => Ok (JStr m)
  | Thrown v => get_prop v "message"
  end.

(** [customFn (code, description)]. *)
Definition customFn (code description : JsVal) : Exc JsVal :=
  if negb (String.eqb (typeof code) "string") then
    Throw (Error ("Inline code '" ++ to_string description
                  ++ "' has empty code"))
  else
    let source := match code with JStr src => src | _ => "" end in
    resolver <-
      match js_eval source with
      | Ok resolver => Ok resolver
      | Throw e =>
          message <- error_message e ;;
          Throw (Error ("Invalid inline code '" ++ to_string description
                        ++ "': " ++ to_string message))
      end ;;
    if negb (String.eqb (typeof resolver) "function") then
      Throw (Error ("Invalid inline code '" ++ to_string description
                    ++ "': must be a function"))
    else Ok resolver.

(** [inlineCode (params, { isLastIndex })]: the [async function] it returns
    is a function from the five arguments to the state its promise ends
    in; [return ret] resolves that promise with [ret]. *)
Definition inlineCode (params context : JsVal)
  : Exc (JsVal -> JsVal -> JsVal -> JsVal -> JsVal -> Async JsVal) :=
  isLastIndex <- get_prop context "isLastIndex" ;;
  code <- get_prop params "code" ;;
  description <- get_prop params "description" ;;
  fn <- customFn code description ;;
  Ok (fun req res postBack path action =>
        match js_call fn [req; res; postBack; path; action] with
        | Throw e => Rejected e
        | Ok ret =>
            let awaited :=
              if String.eqb (typeof ret) "object" && negb (strict_eq ret JNull)
              then await ret
              else Resolved ret in
            match awaited with
            | Resolved ret =>
                if negb (String.eqb (typeof ret) "undefined")
                then await ret
                else Resolved (if truthy isLastIndex then JNull else JBool true)
            | Rejected e => Rejected e
            | Pending => Pending
            end
        end).

(** [Math.floor(Math.random() * texts.length)], for the [n]-th value of
    [Math.random()]. *)
Definition random_index (n : nat) (texts : list JsVal) : option Z :=
  float_floor (PrimFloat.mul (Math_random n) (float_of_nat (length texts))).

(** [randomizedCompiler (text, lang)]. *)
Definition randomizedCompiler (text lang : JsVal) : Exc Renderer :=
  texts <- getLanguageText text lang ;;
  if negb (isArray texts) then
    f <- hbs_compile texts ;; Ok (Template f)
  else if (length (array_items texts) =? 1)%nat then
    f <- hbs_compile (List.nth 0 (array_items texts) JUndefined) ;;
    Ok (Template f)
  else Ok (Randomized (array_items texts)).

(** Calling a renderer, [renderer(...args)]: what the call completes with,
    the renderer afterwards (the arrow function keeps in [texts] what it
    compiled, also when the call then throws), and the world. *)
Definition call_renderer (renderer : Renderer) (args : list JsVal) (w : World)
  : Exc JsVal * Renderer * World :=
  match renderer with
  | Template f => (js_call f args, renderer, w)
  | Randomized texts =>
      let index := random_index (draws w) texts in
      let w := set_draws w (S (draws w)) in
      if negb (String.eqb (typeof (array_get texts index)) "function") then
        match hbs_compile (array_get texts index) with
        | Throw e => (Throw e, renderer, w)
        | Ok f =>
            let texts := array_set texts index f in
            (js_call (array_get texts index) args, Randomized texts, w)
        end
      else (js_call (array_get texts index) args, renderer, w)
  end.

(** What [renderer(...args)] completes with when the draw selects [index]. *)
Definition rendered (renderer : Renderer) (args : list JsVal)
    (index : option Z) : Exc JsVal :=
  match renderer with
  | Template f => js_call f args
  | Randomized texts =>
      if negb (String.eqb (typeof (array_get texts index)) "function") then
        f <- hbs_compile (array_get texts index) ;;
        js_call (array_get (array_set texts index f) index) args
      else js_call (array_get texts index) args
  end.

(** [hbs.compile] returns functions. *)
Definition compiles_to_functions : Prop :=
  forall template f, hbs_compile template = Ok f -> typeof f = "function".

(** The texts a renderer draws from, and the number of values of
    [Math.random()] handed out once it has been called. *)
Definition texts_of (renderer : Renderer) : list JsVal :=
  match renderer with
  | Template _ => []
  | Randomized texts => texts
  end.

Definition draws_after (renderer : Renderer) (n : nat) : nat :=
  match renderer with
  | Template _ => n
  | Randomized _ => S n
  end.

(** [const { lang: key = '-' } = state]. *)
Definition cache_key (lang : JsVal) : JsVal :=
  match lang with JUndefined => JStr "-" | l => l end.

(** The renderer the cached function uses for [state]: the one in the cache
    under the key of [state], or else a new one. *)
Definition renderer_for (text state : JsVal) (w : World) : Exc Renderer :=
  lang <- get_prop state "lang" ;;
  match map_get (cache w) (cache_key lang) with
  | Some renderer => Ok renderer
  | None => randomizedCompiler text lang
  end.

(** [cachedTranslatedCompilator (text)]: the function it returns, applied to
    [state]; its [cache] is the one of the world. *)
Definition cachedTranslatedCompilator (text : JsVal) (state : JsVal)
  : M JsVal :=
  fun w =>
    match get_prop state "lang" with
    | Throw e => (Throw e, w)
    | Ok lang =>
        let key := cache_key lang in
        let found :=
          match map_get (cache w) key with
          | Some renderer => Ok (renderer, w)
          | None =>
              renderer <- randomizedCompiler text lang ;;
              Ok (renderer, set_cache w (map_set (cache w) key renderer))
          end in
        match found with
        | Throw e => (Throw e, w)
        | Ok (renderer, w) =>
            let '(r, renderer, w) := call_renderer renderer [state] w in
            (r, set_cache w (map_set (cache w) key renderer))
        end
    end.

(** [getText (text, state)]. *)
Definition getText (text state : JsVal) : M JsVal :=
  lang <~ lift (get_prop state "lang") ;;
  renderer <~ lift (randomizedCompiler text lang) ;;
  fun w => let '(r, _, w) := call_renderer renderer [state] w in (r, w).

(** The default of the parameter [linksTranslator]:
    [(sndr, defaultText, urlText, isExtUrl) => urlText]. *)
Definition default_linksTranslator (sndr defaultText urlText isExtUrl : JsVal)
  : Exc JsVal := Ok urlText.

(** [elem.urlButton(...)], [elem.postBackButton(...)],
    [elem.shareButton(...)]. *)
Definition emit (c : ElemCall) : M unit :=
  fun w => (Ok tt, set_elem w (elem w ++ [c])).

(** The function [processButtons] hands to [buttons.forEach]. *)
Definition processButton (state : JsVal) (linksMap : JsMap JsVal)
    (senderId : JsVal)
    (linksTranslator : JsVal -> JsVal -> JsVal -> JsVal -> Exc JsVal)
    (button : JsVal) : M unit :=
  btnTitle <~ lift (get_prop button "title") ;;
  btnAction <~ lift (get_prop button "action") ;;
  btnTitleText <~ getText btnTitle state ;;
  defaultText <~ getText btnTitle (JObj [("lang", JNull)]) ;;
  type <~ lift (get_prop btnAction "type") ;;
  url <~ lift (get_prop btnAction "url") ;;
  webviewHeight0 <~ lift (get_prop btnAction "webviewHeight") ;;
  let webviewHeight :=
    match webviewHeight0 with JUndefined => JStr WEBVIEW_TALL | h => h end in
  targetRouteId <~ lift (get_prop btnAction "targetRouteId") ;;
  let isExtUrl := JBool (strict_eq type (JStr TYPE_URL_WITH_EXT)) in
  if strict_eq type (JStr TYPE_URL) || strict_eq type (JStr TYPE_URL_WITH_EXT)
  then
    let hasExtention := JBool (strict_eq type (JStr TYPE_URL_WITH_EXT)) in
    urlText <~ getText url state ;;
    urlText <~ lift (linksTranslator senderId defaultText urlText isExtUrl) ;;
    emit (urlButton btnTitleText urlText hasExtention webviewHeight)
  else if strict_eq type (JStr TYPE_POSTBACK) then
    let postbackAction :=
      match map_get linksMap targetRouteId with
      | Some a => a
      | None => JUndefined
      end in
    if strict_eq postbackAction (JStr "/") then
      emit (postBackButton btnTitleText (JStr "./"))
    else if falsy postbackAction then ret tt
    else emit (postBackButton btnTitleText postbackAction)
  else if strict_eq type (JStr TYPE_SHARE) then
    emit (shareButton btnTitleText)
  else ret tt.

(** [processButtons (buttons, state, elem, linksMap, senderId,
    linksTranslator)]: [forEach] runs the function on the buttons in order
    and stops at the first one that throws. *)
Fixpoint processButtons (buttons : list JsVal) (state : JsVal)
    (linksMap : JsMap JsVal) (senderId : JsVal)
    (linksTranslator : JsVal -> JsVal -> JsVal -> JsVal -> Exc JsVal)
  : M unit :=
  match buttons with
  | [] => ret tt
  | button :: rest =>
      _ <~ processButton state linksMap senderId linksTranslator button ;;
      processButtons rest state linksMap senderId linksTranslator
  end.

End WithRuntime.

End Resolvers.

(** Stand-ins for the runtime in the examples. *)

Module RuntimeSamples.
Import Js Resolvers.

(** [eval]: three sources evaluate to the functions 1, 2 and 3, one to a
    number, one throws. *)
Definition sample_eval (source : string) : Exc JsVal :=
  if String.eqb source "(req, res) => {}" then Ok (JFun 1)
  else if String.eqb source "async (req, res) => {}" then Ok (JFun 2)
  else if String.eqb source "() => 'next'" then Ok (JFun 3)
  else if String.eqb source "42" then Ok (JNum 42)
  else Throw (Error "Unexpected identifier").

(** Function 1 returns [undefined], function 2 the promise 0, function 3 a
    string; functions 10 and 11 are the compiled templates "Hello" and
    "Hi". *)
Definition sample_apply (f : fn_id) (args : list JsVal) : Exc JsVal :=
  match f with
  | 1 => Ok JUndefined
  | 2 => Ok (JPromise 0)
  | 3 => Ok (JStr "next")
  | 10 => Ok (JStr "Hello")
  | 11 => Ok (JStr "Hi")
  | _ => Ok (JStr "")
  end.

Definition sample_settle (p : promise_id) : Async JsVal := Resolved JUndefined.

(** A thenable whose [then] calls its first argument with ['done'], the
    source of a function that returns it, and a runtime that knows both. *)
Definition done_thenable : JsVal := JObj [("then", JFun 21)].

Definition thenable_source : string := "() => ({ then: r => r('done') })".

Definition thenable_eval (source : string) : Exc JsVal :=
  if String.eqb source thenable_source then Ok (JFun 20)
  else sample_eval source.

Definition thenable_apply (f : fn_id) (args : list JsVal) : Exc JsVal :=
  match f with
  | 20 => Ok done_thenable
  | _ => sample_apply f args
  end.

Definition sample_settle_thenable (v : JsVal) : Async JsVal :=
  Resolved (JStr "done").

Definition sample_to_string (v : JsVal) : string :=
  match v with JStr s => s | _ => "" end.

Definition sample_hbs (template : JsVal) : Exc JsVal :=
  match template with
  | JStr s =>
      if String.eqb s "Hello" then Ok (JFun 10)
      else if String.eqb s "Hi" then Ok (JFun 11)
      else Ok (JFun 12)
  | _ => Throw (Error "You must pass a string to Handlebars.compile")
  end.

(** [Math.random()] returning 0 every time, and returning 0 and 0.5 in
    turn. *)
Definition random_constant (n : nat) : float := 0%float.
Definition random_alternating (n : nat) : float :=
  if Nat.even n then 0%float else 0.5%float.

Definition code_params (code : string) : JsVal :=
  JObj [("code", JStr code); ("description", JStr "sample")].

Definition last_index (b : bool) : JsVal := JObj [("isLastIndex", JBool b)].

(** A text with two variants in one language. *)
Definition greeting : JsVal :=
  JArr [ JObj [("l", JStr "en"); ("t", JArr [JStr "Hello"; JStr "Hi"])] ].

Definition english : JsVal := JObj [("lang", JStr "en")].

(** A text in two languages; the English one has two variants and an empty
    string among them. *)
Definition two_languages : JsVal :=
  JArr [ JObj [("l", JStr "en");
               ("t", JArr [JStr "Hello"; JStr ""; JStr "Hi"])];
         JObj [("l", JStr "cz"); ("t", JStr "Ahoj")] ].

(** A template that does not parse: [hbs.compile] hands back a function
    that throws when it is called. *)
Definition broken_template : string := "{{#if}}".

Definition broken_hbs (template : JsVal) : Exc JsVal :=
  match template with
  | JStr s =>
      if String.eqb s broken_template then Ok (JFun 30)
      else sample_hbs template
  | _ => sample_hbs template
  end.

Definition broken_apply (f : fn_id) (args : list JsVal) : Exc JsVal :=
  match f with
  | 30 => Throw (Error "Parse error on line 1")
  | _ => sample_apply f args
  end.

Definition empty_world : World :=
  {| draws := 0; cache := []; elem := [] |}.

(** Route identifiers and their addresses; two postback buttons, the first
    to a route that is not in the map, the second to the root. *)
Definition links : JsMap JsVal :=
  [ (JStr "route-root", JStr "/"); (JStr "route-faq", JStr "/faq") ].

Definition postback_button (title target : string) : JsVal :=
  JObj [ ("title", JStr title);
         ("action", JObj [ ("type", JStr "postback");
                           ("targetRouteId", JStr target) ]) ].

End RuntimeSamples.

(** ** [src/Responder.js] *)

Module Responder.
Import Js.

Definition TYPE_RESPONSE := "RESPONSE".
Definition TYPE_UPDATE := "UPDATE".
Definition TYPE_MESSAGE_TAG := "MESSAGE_TAG".

(** Objects that are shared by reference and written in place live in a
    store: a location names an object, the object is the map of its own
    properties. *)
Definition loc := positive.

Definition get (o : gmap string JsVal) (k : string) : JsVal :=
  default JUndefined (o !! k).

(** [Object.assign(target, source)] on two objects of the store. *)
Definition assign (target source : gmap string JsVal) : gmap string JsVal :=
  source ∪ target.

(** Objects that a method builds and hands on are values; [o[k] = v] and
    [Object.assign(target, source)] on them. *)
Fixpoint set_prop (props : list (string * JsVal)) (k : string) (v : JsVal)
  : list (string * JsVal) :=
  match props with
  | [] => [(k, v)]
  | (k', v') :: rest =>
      if String.eqb k' k then (k', v) :: rest else (k', v') :: set_prop rest k v
  end.

Definition props_of (v : JsVal) : list (string * JsVal) :=
  match v with JObj props => props | _ => [] end.

Definition assign_props (target source : list (string * JsVal))
  : list (string * JsVal) :=
  List.fold_left (fun t kv => set_prop t (fst kv) (snd kv)) source target.

(** The arrow function [w => w], the default translator. *)
Definition identity_fn : fn_id := 0.

Record Responder : Type := mkResponder {
  _senderId : JsVal;
  token : JsVal;
  newState : loc;
  path : JsVal;
  routePath : JsVal;
  options : loc;
  _t : JsVal;
  _quickReplyCollector : list JsVal;
  _data : loc;
  _messagingType : JsVal;
  _tag : JsVal;
  _firstTypingSkipped : bool
}.

(** The responder, the store, and what [this._messageSender.send] was
    called with. *)
Record St : Type := mkSt {
  self : Responder;
  heap : gmap loc (gmap string JsVal);
  sent : list JsVal
}.

Definition with_messaging (r : Responder) (messagingType tag : JsVal)
  : Responder :=
  mkResponder (_senderId r) (token r) (newState r) (path r) (routePath r)
    (options r) (_t r) (_quickReplyCollector r) (_data r) messagingType tag
    (_firstTypingSkipped r).

Definition with_path (r : Responder) (absolutePath route : JsVal)
  : Responder :=
  mkResponder (_senderId r) (token r) (newState r) absolutePath route
    (options r) (_t r) (_quickReplyCollector r) (_data r) (_messagingType r)
    (_tag r) (_firstTypingSkipped r).

Definition with_collector (r : Responder) (collector : list JsVal)
  : Responder :=
  mkResponder (_senderId r) (token r) (newState r) (path r) (routePath r)
    (options r) (_t r) collector (_data r) (_messagingType r) (_tag r)
    (_firstTypingSkipped r).

Definition with_typing_skipped (r : Responder) (skipped : bool) : Responder :=
  mkResponder (_senderId r) (token r) (newState r) (path r) (routePath r)
    (options r) (_t r) (_quickReplyCollector r) (_data r) (_messagingType r)
    (_tag r) skipped.

(** Reading and writing the responder and the store. *)
Definition get_self : StM St Responder := fun st => (Ok (self st), st).

Definition update_self (f : Responder -> Responder) : StM St unit :=
  fun st => (Ok tt, mkSt (f (self st)) (heap st) (sent st)).

Definition read_obj (l : loc) : StM St (gmap string JsVal) :=
  fun st => (Ok (default ∅ (heap st !! l)), st).

(** [Object.assign(l, source)] for the object at [l]. *)
Definition assign_obj (l : loc) (source : gmap string JsVal) : StM St unit :=
  fun st =>
    (Ok tt,
     mkSt (self st)
       (<[l := assign (default ∅ (heap st !! l)) source]> (heap st))
       (sent st)).

(** [this._messageSender.send(data)]. *)
Definition sender_send (data : JsVal) : StM St unit :=
  fun st => (Ok tt, mkSt (self st) (heap st) (sent st ++ [data])).

(** The defaults of [options.autoTyping];
    ['Sample text Sample texts'.length] is 24. *)
Definition default_autoTyping : list (string * JsVal) :=
  [ ("time", JNum 450); ("perCharacters", JNum 24);
    ("minTime", JNum 400); ("maxTime", JNum 1400) ].

(** [constructor (senderId, messageSender, token = null, options = {},
    data = {})]: [options] and [data] are references to objects of the
    store, or left out. *)
Definition new (senderId token : JsVal) (optionsArg dataArg : option loc)
    (heap0 : gmap loc (gmap string JsVal)) (sent0 : list JsVal) : St :=
  let token := match token with JUndefined => JNull | t => t end in
  let l_data := match dataArg with Some l => l | None => fresh (dom heap0) end in
  let heap1 :=
    match dataArg with Some _ => heap0 | None => <[l_data := ∅]> heap0 end in
  let l_new := fresh (dom heap1) in
  let heap2 := <[l_new := ∅]> heap1 in
  let l_options := fresh (dom heap2) in
  let given :=
    match optionsArg with
    | Some l => default ∅ (heap2 !! l)
    | None => ∅
    end in
  let opts :=
    assign {[ "translator" := JFun identity_fn; "appUrl" := JStr "" ]} given in
  let opts :=
    if truthy (get opts "autoTyping") then
      <["autoTyping" :=
          JObj (assign_props default_autoTyping
                  (props_of (get opts "autoTyping")))]> opts
    else opts in
  let heap3 := <[l_options := opts]> heap2 in
  {| self :=
       {| _senderId := senderId; token := token; newState := l_new;
          path := JStr ""; routePath := JStr ""; options := l_options;
          _t := get opts "translator"; _quickReplyCollector := [];
          _data := l_data; _messagingType := JStr TYPE_RESPONSE;
          _tag := JNull; _firstTypingSkipped := false |};
     heap := heap3;
     sent := sent0 |}.

Section WithRuntime.

(** The runtime and the helpers of [./utils]: calling a function value,
    [util.format], [JSON.stringify], [ToString] and [ToNumber],
    [makeAbsolute] and [makeQuickReplies] (which returns
    [{ quickReplies, expectedKeywords }]). They are functions of their
    arguments: none of them writes to the store. *)
Variable apply_fn : fn_id -> list JsVal -> Exc JsVal.
Variable util_format : JsVal -> list JsVal -> JsVal.
Variable JSON_stringify : JsVal -> JsVal.
Variable to_string : JsVal -> string.
Variable to_number : JsVal -> float.
Variable makeAbsolute : JsVal -> JsVal -> Exc JsVal.
Variable makeQuickReplies :
  JsVal -> JsVal -> JsVal -> list JsVal -> Exc (JsVal * JsVal).

(** [f(...args)]. *)
Definition call_fn (f : JsVal) (args : list JsVal) : Exc JsVal :=
  match f with
  | JFun id =>
      if Nat.eqb id identity_fn then Ok (List.hd JUndefined args)
      else apply_fn id args
  | _ => Throw (TypeError (to_string f ++ " is not a function"))
  end.

(** [_send (data)]; [data] is the message the calling method built. *)
Definition _send (data : JsVal) : StM St unit :=
  this <~ get_self ;;
  let data :=
    if falsy (prop data "messagingType")
    then JObj (set_prop (props_of data) "messaging_type" (_messagingType this))
    else data in
  let data :=
    if falsy (prop data "tag") && truthy (_tag this)
    then JObj (set_prop (props_of data) "tag" (_tag this))
    else data in
  sender_send data.

(** [setMessgingType (messagingType, tag = null)]. *)
Definition setMessgingType (messagingType tag : JsVal) : StM St unit :=
  let tag := match tag with JUndefined => JNull | t => t end in
  update_self (fun this => with_messaging this messagingType tag).

(** [isResponseType ()]. *)
Definition isResponseType : StM St bool :=
  this <~ get_self ;;
  ret (strict_eq (_messagingType this) (JStr TYPE_RESPONSE)).

(** [setData (data)]. *)
Definition setData (data : gmap string JsVal) : StM St unit :=
  this <~ get_self ;;
  assign_obj (_data this) data.

(** [setPath (absolutePath, routePath = '')]. *)
Definition setPath (absolutePath route : JsVal) : StM St unit :=
  let route := match route with JUndefined => JStr "" | r => r end in
  update_self (fun this => with_path this absolutePath route).

(** [setState (object)]. *)
Definition setState (object : gmap string JsVal) : StM St unit :=
  this <~ get_self ;;
  assign_obj (newState this) object.

(** [toAbsoluteAction (action)]. *)
Definition toAbsoluteAction (action : JsVal) : StM St JsVal :=
  this <~ get_self ;;
  lift (makeAbsolute action (path this)).

(** [_senderAction (action)]. *)
Definition _senderAction (action : JsVal) : StM St unit :=
  this <~ get_self ;;
  _send (JObj [ ("recipient", JObj [("id", _senderId this)]);
                ("sender_action", action) ]).

(** [typingOn ()], [typingOff ()], [seen ()]. *)
Definition typingOn : StM St unit := _senderAction (JStr "typing_on").
Definition typingOff : StM St unit := _senderAction (JStr "typing_off").
Definition seen : StM St unit := _senderAction (JStr "mark_seen").

(** [wait (ms = 600)]. *)
Definition wait (ms : JsVal) : StM St unit :=
  let ms := match ms with JUndefined => JNum 600 | m => m end in
  _send (JObj [("wait", ms)]).

(** [Math.max] and [Math.min] of two numbers (for operands that are not
    both zero). *)
Definition js_max (a b : float) : float :=
  if negb (PrimFloat.eqb a a) || negb (PrimFloat.eqb b b) then PrimFloat.nan
  else if PrimFloat.ltb a b then b else a.
Definition js_min (a b : float) : float :=
  if negb (PrimFloat.eqb a a) || negb (PrimFloat.eqb b b) then PrimFloat.nan
  else if PrimFloat.ltb b a then b else a.

(** [_getTypingTimeForText (text)]. *)
Definition _getTypingTimeForText (text : JsVal) : StM St JsVal :=
  this <~ get_self ;;
  opts <~ read_obj (options this) ;;
  let autoTyping := get opts "autoTyping" in
  if strict_eq text (JBool false) then ret (JNum 1)
  else
    textLength <~
      match text with
      | JStr s => ret (float_of_nat (utf16_length s))
      | _ =>
          perCharacters <~ lift (get_prop autoTyping "perCharacters") ;;
          ret (to_number perCharacters)
      end ;;
    time <~ lift (get_prop autoTyping "time") ;;
    perCharacters <~ lift (get_prop autoTyping "perCharacters") ;;
    let timePerCharacter :=
      PrimFloat.div (to_number time) (to_number perCharacters) in
    minTime <~ lift (get_prop autoTyping "minTime") ;;
    maxTime <~ lift (get_prop autoTyping "maxTime") ;;
    ret (JNum (js_min
                 (js_max (PrimFloat.mul textLength timePerCharacter)
                    (to_number minTime))
                 (to_number maxTime))).

(** [_autoTypingIfEnabled (text)]. *)
Definition _autoTypingIfEnabled (text : JsVal) : StM St unit :=
  this <~ get_self ;;
  opts <~ read_obj (options this) ;;
  if falsy (get opts "autoTyping") then ret tt
  else if negb (strict_eq (_messagingType this) (JStr TYPE_RESPONSE))
          && negb (_firstTypingSkipped this)
  then update_self (fun this => with_typing_skipped this true)
  else
    typingTime <~ _getTypingTimeForText text ;;
    _ <~ typingOn ;;
    wait typingTime.

(** [/^https?:\/\//] at the start of [url]. *)
Definition is_http_url (url : string) : bool :=
  String.prefix "http://" url || String.prefix "https://" url.

(** [_attachment (attachmentUrl, type, reusable = false)]. *)
Definition _attachment (attachmentUrl type reusable : JsVal) : StM St unit :=
  let reusable := match reusable with JUndefined => JBool false | r => r end in
  this <~ get_self ;;
  opts <~ read_obj (options this) ;;
  url <~
    match attachmentUrl with
    | JStr s =>
        if negb (is_http_url s)
        then ret (JStr (to_string (get opts "appUrl") ++ s))
        else ret attachmentUrl
    | JUndefined =>
        throw (TypeError "Cannot read property 'match' of undefined")
    | JNull => throw (TypeError "Cannot read property 'match' of null")
    | _ => throw (TypeError "url.match is not a function")
    end ;;
  let messageData :=
    JObj [ ("recipient", JObj [("id", _senderId this)]);
           ("message",
            JObj [ ("attachment",
                    JObj [ ("type", type);
                           ("payload",
                            JObj [ ("url", url);
                                   ("is_reusable", reusable) ]) ]) ]) ] in
  let autoTyping := if truthy reusable then JNull else JBool false in
  _ <~ _autoTypingIfEnabled autoTyping ;;
  _send messageData.

(** [image (imageUrl, reusable = false)], [video (...)], [file (...)]. *)
Definition image (imageUrl reusable : JsVal) : StM St unit :=
  _attachment imageUrl (JStr "image") reusable.
Definition video (videoUrl reusable : JsVal) : StM St unit :=
  _attachment videoUrl (JStr "video") reusable.
Definition file (fileUrl reusable : JsVal) : StM St unit :=
  _attachment fileUrl (JStr "file") reusable.

(** [template (payload)]. *)
Definition template (payload : JsVal) : StM St unit :=
  this <~ get_self ;;
  let messageData :=
    JObj [ ("recipient", JObj [("id", _senderId this)]);
           ("message",
            JObj [ ("attachment",
                    JObj [ ("type", JStr "template");
                           ("payload", payload) ]) ]) ] in
  _ <~ _autoTypingIfEnabled JNull ;;
  _send messageData.

(** [data !== null && typeof data !== 'string' ? JSON.stringify(data)
    : data]. *)
Definition metadata_of (data : JsVal) : JsVal :=
  let data := match data with JUndefined => JNull | d => d end in
  if negb (strict_eq data JNull) && negb (String.eqb (typeof data) "string")
  then JSON_stringify data
  else data.

(** [passThread (targetAppId, data = null)]. *)
Definition passThread (targetAppId data : JsVal) : StM St unit :=
  this <~ get_self ;;
  _send (JObj [ ("recipient", JObj [("id", _senderId this)]);
                ("target_app_id", targetAppId);
                ("metadata", metadata_of data) ]).

(** [takeThead (data = null)]. *)
Definition takeThead (data : JsVal) : StM St unit :=
  this <~ get_self ;;
  _send (JObj [ ("recipient", JObj [("id", _senderId this)]);
                ("take_thread_control",
                 JObj [("metadata", metadata_of data)]) ]).

(** [text (text, ...quickReplies)]. *)
Definition text (text : JsVal) (quickReplies : list JsVal) : StM St unit :=
  this <~ get_self ;;
  let last := List.last quickReplies JUndefined in
  let pops :=
    (0 <? length quickReplies)%nat
    && String.eqb (typeof last) "object" && negb (strict_eq last JNull) in
  let replies := if pops then last else JNull in
  let quickReplies :=
    if pops then List.removelast quickReplies else quickReplies in
  translatedText <~ lift (call_fn (_t this) [text]) ;;
  let messageText :=
    if (0 <? length quickReplies)%nat then
      util_format translatedText
        (List.map
           (fun a =>
              if negb (strict_eq a JNull) && negb (strict_eq a JUndefined)
              then a else JStr "")
           quickReplies)
    else translatedText in
  message <~
    (if truthy replies || negb (length (_quickReplyCollector this) =? 0)%nat
     then
       made <~ lift (makeQuickReplies (js_or replies (JArr [])) (path this)
                       (_t this) (_quickReplyCollector this)) ;;
       _ <~ update_self (fun this => with_collector this []) ;;
       _ <~ setState {[ "_expectedKeywords" := snd made ]} ;;
       ret [("text", messageText); ("quick_replies", fst made)]
     else ret [("text", messageText)]) ;;
  let messageData :=
    JObj [ ("recipient", JObj [("id", _senderId this)]);
           ("message", JObj message) ] in
  _ <~ _autoTypingIfEnabled messageText ;;
  _send messageData.

(** [addQuickReply (action, title, data = {}, prepend = false)]. *)
Definition addQuickReply (action title data prepend : JsVal) : StM St unit :=
  let data := match data with JUndefined => JObj [] | d => d end in
  let prep := if truthy prepend then [("_prepend", JBool true)] else [] in
  absolute <~ toAbsoluteAction action ;;
  update_self
    (fun this =>
       with_collector this
         (_quickReplyCollector this
          ++ [JObj (assign_props
                      (assign_props [("action", absolute); ("title", title)]
                         (props_of data))
                      prep)])).

(** [expected (action, data = {})]. *)
Definition expected (action data : JsVal) : StM St unit :=
  let data := match data with JUndefined => JObj [] | d => d end in
  if falsy action then setState {[ "_expected" := JNull ]}
  else
    this <~ get_self ;;
    absolute <~ lift (makeAbsolute action (path this)) ;;
    setState {[ "_expected" := JObj [("action", absolute); ("data", data)] ]}.

(** A call of a method of the responder by a handler; objects passed to
    [setState] and [setData] are given by reference. The builders
    [receipt], [button], [genericTemplate] and [list] reach the responder
    only through [template]. *)
Inductive Call : Type :=
| CallSetMessgingType (messagingType tag : JsVal)
| CallSetData (data : loc)
| CallSetPath (absolutePath route : JsVal)
| CallText (text : JsVal) (quickReplies : list JsVal)
| CallSetState (object : loc)
| CallAddQuickReply (action title data prepend : JsVal)
| CallExpected (action data : JsVal)
| CallImage (imageUrl reusable : JsVal)
| CallVideo (videoUrl reusable : JsVal)
| CallFile (fileUrl reusable : JsVal)
| CallTemplate (payload : JsVal)
| CallWait (ms : JsVal)
| CallTypingOn
| CallTypingOff
| CallSeen
| CallPassThread (targetAppId data : JsVal)
| CallTakeThead (data : JsVal).

Definition run_call (c : Call) : StM St unit :=
  match c with
  | CallSetMessgingType messagingType tag => setMessgingType messagingType tag
  | CallSetData data => object <~ read_obj data ;; setData object
  | CallSetPath absolutePath route => setPath absolutePath route
  | CallText t quickReplies => text t quickReplies
  | CallSetState object => object <~ read_obj object ;; setState object
  | CallAddQuickReply action title data prepend =>
      addQuickReply action title data prepend
  | CallExpected action data => expected action data
  | CallImage imageUrl reusable => image imageUrl reusable
  | CallVideo videoUrl reusable => video videoUrl reusable
  | CallFile fileUrl reusable => file fileUrl reusable
  | CallTemplate payload => template payload
  | CallWait ms => wait ms
  | CallTypingOn => typingOn
  | CallTypingOff => typingOff
  | CallSeen => seen
  | CallPassThread targetAppId data => passThread targetAppId data
  | CallTakeThead data => takeThead data
  end.

(** The calls a handler makes, one after the other; a call that throws
    leaves what it wrote, and the calls after it still run. *)
Definition run_calls (calls : list Call) (st : St) : St :=
  List.fold_left (fun st c => snd (run_call c st)) calls st.

End WithRuntime.

(** A computation keeps to the responder's own objects when it leaves the
    references [newState], [_data] and [options] of the responder as they
    are and writes to no object of the store other than [newState] and
    [_data]. *)
Definition keeps_to_own {A} (c : StM St A) : Prop :=
  forall st,
    newState (self (snd (c st))) = newState (self st)
    /\ _data (self (snd (c st))) = _data (self st)
    /\ options (self (snd (c st))) = options (self st)
    /\ forall l, l <> newState (self st) -> l <> _data (self st) ->
         heap (snd (c st)) !! l = heap st !! l.

End Responder.

(** Stand-ins and inputs for the examples of the responder. *)

Module ResponderSamples.
Import Js Responder.

Definition sample_format (template : JsVal) (args : list JsVal) : JsVal :=
  template.
Definition sample_stringify (v : JsVal) : JsVal := JStr "{}".
Definition sample_number (v : JsVal) : float :=
  match v with JNum x => x | _ => PrimFloat.nan end.
Definition sample_absolute (action path : JsVal) : Exc JsVal := Ok action.
Definition sample_quick_replies (replies path translator : JsVal)
    (collector : list JsVal) : Exc (JsVal * JsVal) :=
  Ok (JArr [], JArr []).

(** The conversation state at location 1, an object with new attributes at
    location 2. *)
Definition state_loc : loc := 1%positive.
Definition patch_loc : loc := 2%positive.

Definition sample_heap : gmap loc (gmap string JsVal) :=
  {[ state_loc := {[ "name" := JStr "Ann" ]};
     patch_loc := {[ "visited" := JBool true ]} ]}.

Definition sample_calls : list Call :=
  [ CallSetState patch_loc;
    CallText (JStr "Hello") [];
    CallExpected (JStr "next") JUndefined ].

End ResponderSamples.

(** ** The configuration cache behind [BuildRouter] *)

Module ConfigCache.

Definition key := string.
Definition caller := nat.

(** A compiled configuration, known by the instance it is. *)
Definition config := nat.

(** What a call of [get] ends with. *)
Inductive outcome : Type :=
| Loaded (c : config)
| Failed.

(** Modelled from the spec: [src/BuildRouter.js] and the cache it uses are
    not part of the sources at hand. A cache entry holds the value (or
    none), the time it was fetched, and the fetch in flight (or none); the
    fetch in flight is known by the callers that wait for it. *)
Record CacheEntry : Type := mkEntry {
  value : option config;
  fetchedAt : Z;
  inFlightFetch : option (list caller)
}.

(** Modelled from the spec: the cache with its time-to-live, its entries
    per key, how often the remote fetch function was invoked per key, and
    the outcomes handed to callers so far. *)
Record Cache : Type := mkCache {
  ttl : Z;
  entries : gmap key CacheEntry;
  fetches : gmap key nat;
  delivered : list (caller * key * outcome)
}.

Definition empty_entry : CacheEntry := mkEntry None 0 None.

Definition entry (c : Cache) (k : key) : CacheEntry :=
  default empty_entry (entries c !! k).

Definition fetch_count (c : Cache) (k : key) : nat :=
  default 0 (fetches c !! k).

(** Modelled from the spec: [get(key)]. A cached value younger than the
    time-to-live is returned at once. Otherwise a fetch in flight for the
    key is awaited, and no second fetch is started. Otherwise a fetch is
    started and recorded as in flight. The steps of one call up to its
    first suspension run without interruption (tasks are cooperative). *)
Definition get (who : caller) (k : key) (now : Z) (c : Cache) : Cache :=
  let e := entry c k in
  let join_or_fetch :=
    match inFlightFetch e with
    | Some waiting =>
        mkCache (ttl c)
          (<[k := mkEntry (value e) (fetchedAt e) (Some (waiting ++ [who]))]>
             (entries c))
          (fetches c) (delivered c)
    | None =>
        mkCache (ttl c)
          (<[k := mkEntry (value e) (fetchedAt e) (Some [who])]> (entries c))
          (<[k := S (fetch_count c k)]> (fetches c))
          (delivered c)
    end in
  match value e with
  | Some v =>
      if (now - fetchedAt e <? ttl c)%Z
      then mkCache (ttl c) (entries c) (fetches c)
             (delivered c ++ [(who, k, Loaded v)])
      else join_or_fetch
  | None => join_or_fetch
  end.

(** Modelled from the spec: the fetch in flight for [k] completes. On
    success the result is stored with a fresh timestamp; on failure the
    cached value stays; either way the in-flight marker is cleared and
    every waiting caller gets the outcome of this fetch. *)
Definition fetch_done (k : key) (result : outcome) (now : Z) (c : Cache)
  : Cache :=
  let e := entry c k in
  match inFlightFetch e with
  | None => c
  | Some waiting =>
      let e' :=
        match result with
        | Loaded v => mkEntry (Some v) now None
        | Failed => mkEntry (value e) (fetchedAt e) None
        end in
      mkCache (ttl c) (<[k := e']> (entries c)) (fetches c)
        (delivered c ++ List.map (fun who => (who, k, result)) waiting)
  end.

(** Modelled from the spec: [invalidate(key)] clears the stored value and
    timestamp, not a fetch in flight. *)
Definition invalidate (k : key) (c : Cache) : Cache :=
  let e := entry c k in
  mkCache (ttl c) (<[k := mkEntry None 0 (inFlightFetch e)]> (entries c))
    (fetches c) (delivered c).

(** What happens to the cache, one thing at a time. *)
Inductive event : Type :=
| Get (who : caller) (k : key) (now : Z)
| FetchDone (k : key) (result : outcome) (now : Z)
| Invalidate (k : key).

Definition step (ev : event) (c : Cache) : Cache :=
  match ev with
  | Get who k now => get who k now c
  | FetchDone k result now => fetch_done k result now c
  | Invalidate k => invalidate k c
  end.

Definition run (evs : list event) (c : Cache) : Cache :=
  List.fold_left (fun c ev => step ev c) evs c.

(** The callers of [get(k)] in a sequence of events, in order. *)
Fixpoint callers_of (k : key) (evs : list event) : list caller :=
  match evs with
  | [] => []
  | Get who k' _ :: rest =>
      if String.eqb k' k then who :: callers_of k rest else callers_of k rest
  | _ :: rest => callers_of k rest
  end.

(** No fetch for [k] completes in the sequence. *)
Fixpoint fetch_pending (k : key) (evs : list event) : bool :=
  match evs with
  | [] => true
  | FetchDone k' _ _ :: rest => negb (String.eqb k' k) && fetch_pending k rest
  | _ :: rest => fetch_pending k rest
  end.

(** The callers waiting once more of them have come. *)
Definition joined (waiting : option (list caller)) (more : list caller)
  : option (list caller) :=
  match waiting, more with
  | None, [] => None
  | None, _ => Some more
  | Some w, _ => Some (w ++ more)
  end.

Definition empty_cache (time_to_live : Z) : Cache :=
  mkCache time_to_live ∅ ∅ [].

End ConfigCache.

(** ** [src/Request.js]: the accessors and the static factories *)

Module RequestApi.
Import Js Request.

(** The accessors of the attachments are given for [this.attachments] an
    array, as the constructor leaves it for the events of the platform
    ([message.attachments] is an array or absent); [attachmentIndex] is a
    natural number. *)
Definition attachment_items (this : Request) : list JsVal :=
  match attachments this with JArr items => items | _ => [] end.

(** [isAttachment ()]. *)
Definition isAttachment (this : Request) : bool :=
  (0 <? length (attachment_items this))%nat.

(** [_checkAttachmentType (type, attachmentIndex = 0)]. *)
Definition _checkAttachmentType (this : Request) (type : JsVal)
    (attachmentIndex : nat) : Exc bool :=
  if (length (attachment_items this) <=? attachmentIndex)%nat then Ok false
  else
    t <- get_prop (List.nth attachmentIndex (attachment_items this) JUndefined)
           "type" ;;
    Ok (strict_eq t type).

(** [isImage (attachmentIndex = 0)] and [isFile (attachmentIndex = 0)]. *)
Definition isImage (this : Request) (attachmentIndex : nat) : Exc bool :=
  _checkAttachmentType this (JStr "image") attachmentIndex.
Definition isFile (this : Request) (attachmentIndex : nat) : Exc bool :=
  _checkAttachmentType this (JStr "file") attachmentIndex.

(** [attachments.some(at => at.type === 'location')]. *)
Fixpoint some_location (items : list JsVal) : Exc bool :=
  match items with
  | [] => Ok false
  | at_ :: rest =>
      t <- get_prop at_ "type" ;;
      if strict_eq t (JStr "location") then Ok true else some_location rest
  end.

(** [attachments.find(at => at.type === 'location')]. *)
Fixpoint find_location (items : list JsVal) : Exc JsVal :=
  match items with
  | [] => Ok JUndefined
  | at_ :: rest =>
      t <- get_prop at_ "type" ;;
      if strict_eq t (JStr "location") then Ok at_ else find_location rest
  end.

(** [hasLocation ()]. *)
Definition hasLocation (this : Request) : Exc bool :=
  some_location (attachment_items this).

(** [getLocation ()]. *)
Definition getLocation (this : Request) : Exc JsVal :=
  location <- find_location (attachment_items this) ;;
  if falsy location then Ok JNull
  else
    payload <- get_prop location "payload" ;;
    get_prop payload "coordinates".

(** [attachment (attachmentIndex = 0)]. *)
Definition attachment (this : Request) (attachmentIndex : nat) : JsVal :=
  if (length (attachment_items this) <=? attachmentIndex)%nat then JNull
  else List.nth attachmentIndex (attachment_items this) JUndefined.

(** [attachmentUrl (attachmentIndex = 0)]; destructuring [undefined] or
    [null] raises a [TypeError], as a property read does. *)
Definition attachmentUrl (this : Request) (attachmentIndex : nat)
  : Exc JsVal :=
  if (length (attachment_items this) <=? attachmentIndex)%nat then Ok JNull
  else
    payload <-
      get_prop (List.nth attachmentIndex (attachment_items this) JUndefined)
        "payload" ;;
    if falsy payload then Ok JNull
    else Ok (js_and payload (prop payload "url")).

(** [isMessage ()]. *)
Definition isMessage (this : Request) : bool := negb (is_null (message this)).

(** [isQuickReply ()]: what [this.message !== null &&
    this.message.quick_reply] evaluates to. *)
Definition isQuickReply (this : Request) : Exc JsVal :=
  if is_null (message this) then Ok (JBool false)
  else get_prop (message this) "quick_reply".

(** [isText ()]. *)
Definition isText (this : Request) : Exc bool :=
  if is_null (message this) then Ok false
  else
    qr <- get_prop (message this) "quick_reply" ;;
    if truthy qr then Ok false
    else
      t <- get_prop (message this) "text" ;;
      Ok (truthy t).

(** [isPostBack ()], [isReferral ()], [isOptin ()]. *)
Definition isPostBack (this : Request) : bool :=
  negb (is_null (_postback this)).
Definition isReferral (this : Request) : bool :=
  negb (is_null (_referral this)).
Definition isOptin (this : Request) : bool := negb (is_null (_optin this)).

(** [Request._t], [Request._d]: the counter and the last value of
    [Request.timestamp]. Times are whole milliseconds, as [Date.now()]
    returns them. *)
Record Stamp : Type := mkStamp {
  _t : Z;
  _d : Z
}.

Definition initial_stamp : Stamp := mkStamp 0 0.

(** [Request.timestamp ()], for [Date.now()] returning [now]. *)
Definition timestamp (now : Z) (s : Stamp) : Z * Stamp :=
  if (_d s <? now)%Z then (now, mkStamp 0 now)
  else
    let t := (_t s + 1)%Z in
    let now := (now + t)%Z in
    (now, mkStamp t now).

(** The values of successive calls of [Request.timestamp ()], for the
    successive values of [Date.now()]. *)
Fixpoint timestamps (nows : list Z) (s : Stamp) : list Z :=
  match nows with
  | [] => []
  | now :: rest =>
      let '(value, s') := timestamp now s in
      value :: timestamps rest s'
  end.

(** Strings over the alphabet [[A-Za-z0-9+/]]. *)
Fixpoint all_base64 (s : string) : bool :=
  match s with
  | EmptyString => true
  | String c rest => is_base64_char c && all_base64 rest
  end.

(** The language of [BASE64_REGEX], read off the expression: groups of four
    characters of the alphabet, then nothing, or two characters and [==],
    or three characters and [=]. *)
Definition base64_shaped (s : string) : Prop :=
  exists body tail,
    s = (body ++ tail)%string
    /\ all_base64 body = true
    /\ ((String.length body mod 4 = 0 /\ tail = "")
        \/ (String.length body mod 4 = 2 /\ tail = "==")
        \/ (String.length body mod 4 = 3 /\ tail = "=")).

(** Readings of [Date.now()] that never go back, from [last] on. *)
Fixpoint never_back (last : Z) (nows : list Z) : Prop :=
  match nows with
  | [] => True
  | now :: rest => (last <= now)%Z /\ never_back now rest
  end.

(** Values that grow strictly, from above [prev] on. *)
Fixpoint increasing (prev : Z) (values : list Z) : Prop :=
  match values with
  | [] => True
  | v :: rest => (prev < v)%Z /\ increasing v rest
  end.

(** Which of [isMessage], [isPostBack], [isReferral], [isOptin] hold. *)
Definition kinds (this : Request) : bool * bool * bool * bool :=
  (isMessage this, isPostBack this, isReferral this, isOptin this).

(** The same request with another conversation state. *)
Definition with_state (this : Request) (state' : JsVal) : Request :=
  {| data := data this; message := message this;
     _postback := _postback this; _referral := _referral this;
     _optin := _optin this; attachments := attachments this;
     Request.timestamp := Request.timestamp this;
     senderId := senderId this; recipientId := recipientId this;
     pageId := pageId this; state := state'; _intents := _intents this |}.

Section WithRuntime.

(** [JSON.stringify] and [Buffer.from(s).toString('base64')]. In the
    factories below [timestamp] is the value of the parameter once its
    default, [Request.timestamp()], has been applied. *)
Variable JSON_stringify : JsVal -> JsVal.
Variable to_base64 : JsVal -> JsVal.

(** [createReferral (action, data = {}, timestamp)]. *)
Definition createReferral (action data timestamp : JsVal) : JsVal :=
  let data := match data with JUndefined => JObj [] | d => d end in
  JObj [ ("timestamp", timestamp);
         ("ref", JSON_stringify (JObj [("action", action); ("data", data)]));
         ("source", JStr "SHORTLINK");
         ("type", JStr "OPEN_THREAD") ].

(** [Request.postBack (senderId, action, data = {}, refAction = null,
    refData = {}, timestamp)]. *)
Definition postBack_event (senderId action data refAction refData
    timestamp : JsVal) : JsVal :=
  let data := match data with JUndefined => JObj [] | d => d end in
  let refAction := match refAction with JUndefined => JNull | r => r end in
  let postback :=
    [("payload", JObj [("action", action); ("data", data)])] in
  let postback :=
    if truthy refAction
    then postback
           ++ [("referral", createReferral refAction refData timestamp)]
    else postback in
  JObj [ ("timestamp", timestamp);
         ("sender", JObj [("id", senderId)]);
         ("postback", JObj postback) ].

(** [Request.text (senderId, text, timestamp)]. *)
Definition text_event (senderId text timestamp : JsVal) : JsVal :=
  JObj [ ("timestamp", timestamp);
         ("sender", JObj [("id", senderId)]);
         ("message", JObj [("text", text)]) ].

(** [Request.passThread (senderId, newAppId, data = null, timestamp)]. *)
Definition passThread_event (senderId newAppId data timestamp : JsVal)
  : JsVal :=
  let data := match data with JUndefined => JNull | d => d end in
  let metadata :=
    if negb (strict_eq data JNull) && negb (String.eqb (typeof data) "string")
    then JSON_stringify data
    else data in
  JObj [ ("timestamp", timestamp);
         ("sender", JObj [("id", senderId)]);
         ("pass_thread_control",
          JObj [("new_owner_app_id", newAppId); ("metadata", metadata)]) ].

(** [Request.intent (senderId, text, intent, timestamp)]. *)
Definition intent_event (senderId text intent timestamp : JsVal) : JsVal :=
  JObj (Responder.set_prop
          (Responder.props_of (text_event senderId text timestamp))
          "intent" intent).

(** [Request.quickReply (senderId, action, data = {}, timestamp)]. *)
Definition quickReply_event (senderId action data timestamp : JsVal)
  : JsVal :=
  let data := match data with JUndefined => JObj [] | d => d end in
  JObj [ ("timestamp", timestamp);
         ("sender", JObj [("id", senderId)]);
         ("message",
          JObj [ ("text", action);
                 ("quick_reply",
                  JObj [("payload",
                         JSON_stringify
                           (JObj [("action", action); ("data", data)]))])
               ]) ].

(** [Request.quickReplyText (senderId, text, payload, timestamp)]. *)
Definition quickReplyText_event (senderId text payload timestamp : JsVal)
  : JsVal :=
  JObj [ ("timestamp", timestamp);
         ("sender", JObj [("id", senderId)]);
         ("message",
          JObj [ ("text", text);
                 ("quick_reply", JObj [("payload", payload)]) ]) ].

(** [Request.location (senderId, lat, long, timestamp)]. *)
Definition location_event (senderId lat long timestamp : JsVal) : JsVal :=
  JObj [ ("timestamp", timestamp);
         ("sender", JObj [("id", senderId)]);
         ("message",
          JObj [("attachments",
                 JArr [JObj [ ("type", JStr "location");
                              ("payload",
                               JObj [("coordinates",
                                      JObj [("lat", lat); ("long", long)])])
                            ]])]) ].

(** [Request.referral (senderId, action, data = {}, timestamp)]. *)
Definition referral_event (senderId action data timestamp : JsVal) : JsVal :=
  JObj [ ("timestamp", timestamp);
         ("sender", JObj [("id", senderId)]);
         ("referral", createReferral action data timestamp) ].

(** [Request.optin (userRef, action, data = {}, timestamp)]. *)
Definition optin_event (userRef action data timestamp : JsVal) : JsVal :=
  let data := match data with JUndefined => JObj [] | d => d end in
  JObj [ ("timestamp", timestamp);
         ("optin",
          JObj [ ("ref",
                  to_base64
                    (JSON_stringify (JObj [("action", action); ("data", data)])));
                 ("user_ref", userRef) ]) ].

(** [Request.fileAttachment (senderId, url, type = 'file', timestamp)]. *)
Definition fileAttachment_event (senderId url type timestamp : JsVal)
  : JsVal :=
  let type := match type with JUndefined => JStr "file" | t => t end in
  JObj [ ("timestamp", timestamp);
         ("sender", JObj [("id", senderId)]);
         ("message",
          JObj [("attachments",
                 JArr [JObj [ ("type", type);
                              ("payload", JObj [("url", url)]) ]])]) ].

End WithRuntime.

End RequestApi.

(** Sample events for the accessors and the factories. *)

Module RequestApiSamples.
Import Js Request RequestApi.

Definition image_message : JsVal :=
  JObj [("sender", JObj [("id", JStr "user")]);
        ("message",
         JObj [("attachments", JArr [JObj [("type", JStr "image")]])])].

Definition image_request : Request :=
  Samples.request_of image_message (JObj []).

Definition sample_json (v : JsVal) : JsVal :=
  match v with
  | JObj _ => JStr "{json}"
  | _ => JStr "json"
  end.

Definition location_request : Request :=
  Samples.request_of
    (location_event (JStr "user") (JNum 50) (JNum 14) (JNum 1)) (JObj []).

Definition text_request : Request :=
  Samples.request_of (text_event (JStr "user") (JStr "hello") (JNum 1))
    (JObj []).

Definition sample_to_base64 (v : JsVal) : JsVal :=
  match v with
  | JStr s => JStr (s ++ "====")
  | _ => JStr "AAAA"
  end.

End RequestApiSamples.


(** ** [stateData] of [src/resolvers/utils.js] and what the template under
    construction may receive *)

Module ResolversApi.
Import Js Request Resolvers.

(** The own properties [Object.assign] copies from a value: those of an
    object; [null], [undefined], numbers and booleans give none. The state
    of a request is an object or absent: the indices of a string or of an
    array are not taken into account. *)
Definition object_of (v : JsVal) : gmap string JsVal :=
  list_to_map (Responder.props_of v).

Section WithUtils.

Variable parseActionPayload : JsVal -> Exc ParsedPayload.
Variable quickReplyAction : JsVal -> JsVal -> JsVal -> Exc JsVal.
Variable tokenize : JsVal -> Exc JsVal.
Variable base64_to_utf8 : string -> string.

(** [stateData (req, res)]; the object literal, and with it
    [req.action(true)], is evaluated before [Object.assign] runs. *)
Definition stateData (req : Request) (res : Responder.St)
  : Exc (gmap string JsVal) :=
  let this := Responder.self res in
  let newState :=
    default ∅ (Responder.heap res !! Responder.newState this) in
  let data := default ∅ (Responder.heap res !! Responder._data this) in
  _action <-
    Request.action parseActionPayload quickReplyAction tokenize
      base64_to_utf8 req true ;;
  Ok (Responder.assign
        (Responder.assign
           (Responder.assign
              (Responder.assign ∅ (object_of (state req)))
              newState)
           data)
        {[ "_action" := _action ]}).

End WithUtils.

(** A postback button handed to the template has an action, and the action
    is not the root ['/']. *)
Definition call_ok (c : ElemCall) : Prop :=
  match c with
  | postBackButton _ action => truthy action = true /\ action <> JStr "/"
  | _ => True
  end.

(** A computation hands at most [n] calls to the template, each of them
    well formed, takes away none, and leaves the cache alone. *)
Definition emits (n : nat) {A} (c : M A) : Prop :=
  forall w,
    cache (snd (c w)) = cache w
    /\ draws w <= draws (snd (c w))
    /\ exists calls,
         elem (snd (c w)) = elem w ++ calls
         /\ length calls <= n
         /\ Forall call_ok calls.

End ResolversApi.


(** Samples for [stateData]: a responder whose handler has set a name, and
    a text request whose state holds a name and a stale [_action]. *)

Module ResolversApiSamples.
Import Js Request Responder ResponderSamples.

Definition named_responder : St :=
  snd (setState {[ "name" := JStr "Bob" ]}
         (new (JStr "user") JNull None None sample_heap [])).

Definition named_request : Request :=
  Samples.request_of
    (RequestApi.text_event (JStr "user") (JStr "hello") (JNum 1))
    (JObj [("name", JStr "Ann"); ("_action", JStr "stale")]).

End ResolversApiSamples.


(** ** What the responder hands to the sender *)

Module ResponderApi.
Import Js Responder.

(** A message carries the messaging type, and the tag when there is one. *)
Definition stamped (messagingType tag : JsVal) (m : JsVal) : Prop :=
  prop m "messaging_type" = messagingType
  /\ (truthy tag = true -> prop m "tag" = tag).

(** A computation leaves the messaging type and the tag of the responder
    as they are, takes nothing back from the sender, and every message it
    hands over is stamped with them. *)
Definition sends_stamped {A} (c : StM St A) : Prop :=
  forall st,
    _messagingType (self (snd (c st))) = _messagingType (self st)
    /\ _tag (self (snd (c st))) = _tag (self st)
    /\ exists new,
         sent (snd (c st)) = sent st ++ new
         /\ Forall (stamped (_messagingType (self st)) (_tag (self st))) new.

(** The calls that change the messaging type. *)
Definition sets_type (c : Call) : bool :=
  match c with
  | CallSetMessgingType _ _ => true
  | _ => false
  end.

(** A computation leaves an attribute of the responder as it is. *)
Definition preserves {A B} (attribute : Responder -> B) (c : StM St A)
  : Prop :=
  forall st, attribute (self (snd (c st))) = attribute (self st).

End ResponderApi.


(** Sample responders: one that has collected a quick reply, one built
    with the option [autoTyping]. *)

Module ResponderApiSamples.
Import Js Responder ResponderSamples.

Definition collecting : St :=
  snd (addQuickReply sample_absolute (JStr "next") (JStr "Next") JUndefined
         JUndefined
         (new (JStr "user") JNull None None sample_heap [])).

Definition options_loc : loc := 3%positive.

Definition typing : St :=
  new (JStr "user") JNull (Some options_loc) None
    (<[options_loc := {[ "autoTyping" := JBool true ]}]> sample_heap) [].

End ResponderApiSamples.


(** ** The order of [Request.action], source by source *)

Module ActionSources.
Import Js Request RequestApi.

(** [v === undefined || v === null]. *)
Definition is_nullish (v : JsVal) : bool :=
  match v with JUndefined | JNull => true | _ => false end.

(** The first of the values that is truthy; [null] when none is; the error
    of the first one that throws before that. *)
Fixpoint first_yield (candidates : list (Exc JsVal)) : Exc JsVal :=
  match candidates with
  | [] => Ok JNull
  | c :: rest => v <- c ;; if truthy v then Ok v else first_yield rest
  end.

Section WithUtils.

Variable parseActionPayload : JsVal -> Exc ParsedPayload.
Variable quickReplyAction : JsVal -> JsVal -> JsVal -> Exc JsVal.
Variable tokenize : JsVal -> Exc JsVal.
Variable base64_to_utf8 : string -> string.

(** What each signal resolves to, read from the request itself and through
    its accessors, not from the body of [action]: the reference of the
    referral, [postBack()], the reference of the optin, [quickReply()], the
    metadata of the pass-thread control (with the literal ['pass-thread']
    when there is none and no data is asked for), the keywords the state
    expects, and [expected()]. *)
Definition referral_source (this : Request) (getData : bool) : Exc JsVal :=
  if isReferral this && truthy (prop (_referral this) "ref")
  then _processPayload parseActionPayload
         (JObj [("payload", prop (_referral this) "ref")]) getData
  else Ok JNull.

Definition postback_source (this : Request) (getData : bool) : Exc JsVal :=
  postBack parseActionPayload this getData.

Definition optin_source (this : Request) (getData : bool) : Exc JsVal :=
  if isOptin this && truthy (prop (_optin this) "ref")
  then _base64Ref parseActionPayload base64_to_utf8 (_optin this) getData
  else Ok JNull.

Definition quick_reply_source (this : Request) (getData : bool)
  : Exc JsVal :=
  quickReply parseActionPayload this getData.

Definition pass_thread_source (this : Request) (getData : bool)
  : Exc JsVal :=
  pass <- isPassThread this ;;
  if truthy pass then
    let metadata :=
      and_prop (prop (data this) "pass_thread_control") "metadata" in
    res <- (if truthy metadata
            then _processPayload parseActionPayload
                   (JObj [("payload", metadata)]) getData
            else Ok JNull) ;;
    if negb getData && falsy res then Ok (JStr "pass-thread") else Ok res
  else Ok JNull.

Definition keywords_source (this : Request) (getData : bool) : Exc JsVal :=
  _actionByExpectedKeywords parseActionPayload quickReplyAction tokenize
    this getData.

Definition expected_source (this : Request) (getData : bool) : Exc JsVal :=
  e <- expected this ;;
  if truthy e then _processPayload parseActionPayload e getData
  else Ok JNull.

(** The signals in the order of priority. *)
Definition priority_sources (this : Request) (getData : bool)
  : list (Exc JsVal) :=
  [ referral_source this getData;
    postback_source this getData;
    optin_source this getData;
    quick_reply_source this getData;
    pass_thread_source this getData;
    keywords_source this getData;
    expected_source this getData ].

(** The action by priority: the first signal that yields one wins, and
    the default is [{}] when data are asked for, [null] otherwise. *)
Definition action_by_priority (this : Request) (getData : bool)
  : Exc JsVal :=
  v <- first_yield (priority_sources this getData) ;;
  Ok (finish getData v).

End WithUtils.

(** An event that names [target_app_id] also carries the object
    [pass_thread_control]. *)
Definition control_comes_with_target (this : Request) : Prop :=
  truthy (prop (data this) "target_app_id") = true ->
  is_nullish (prop (data this) "pass_thread_control") = false.

End ActionSources.


(** * Properties *)

(** ** Facts about values *)

Module JsFacts.
Import Js.

Lemma get_prop_truthy v k : truthy v = true -> get_prop v k = Ok (prop v k).
Proof. destruct v; simpl; intros H; try discriminate; reflexivity. Qed.

Lemma truthy_js_or a b : truthy (js_or a b) = (truthy a || truthy b)%bool.
Proof. unfold js_or. destruct (truthy a) eqn:E; simpl; auto. Qed.

Lemma js_or_truthy a b : truthy a = true -> js_or a b = a.
Proof. unfold js_or. intros ->. reflexivity. Qed.

Lemma js_or_falsy a b : truthy a = false -> js_or a b = b.
Proof. unfold js_or. intros ->. reflexivity. Qed.

Lemma falsy_true v : falsy v = true <-> truthy v = false.
Proof. unfold falsy. destruct (truthy v); simpl; split; congruence. Qed.

Lemma bind_ok {A B} (c : Exc A) (k : A -> Exc B) b :
  bind c k = Ok b -> exists a, c = Ok a /\ k a = Ok b.
Proof. destruct c as [a|e]; simpl; intros H; [eauto | discriminate]. Qed.

End JsFacts.

(** ** [Request.action]: priority of the signals *)

Module RequestFacts.
Import Js JsFacts Request.

Section WithUtils.

Variable parseActionPayload : JsVal -> Exc ParsedPayload.
Variable quickReplyAction : JsVal -> JsVal -> JsVal -> Exc JsVal.
Variable tokenize : JsVal -> Exc JsVal.
Variable base64_to_utf8 : string -> string.

Local Abbreviation action :=
  (action parseActionPayload quickReplyAction tokenize base64_to_utf8).
Local Abbreviation sources :=
  (sources parseActionPayload quickReplyAction tokenize base64_to_utf8).
Local Abbreviation guarded_steps :=
  (guarded_steps parseActionPayload quickReplyAction tokenize base64_to_utf8).
Local Abbreviation action_referral := (action_referral parseActionPayload).
Local Abbreviation action_postback := (action_postback parseActionPayload).
Local Abbreviation action_optin :=
  (action_optin parseActionPayload base64_to_utf8).
Local Abbreviation action_quick_reply := (action_quick_reply parseActionPayload).
Local Abbreviation action_pass_thread := (action_pass_thread parseActionPayload).
Local Abbreviation action_keywords :=
  (action_keywords parseActionPayload quickReplyAction tokenize).
Local Abbreviation action_expected := (action_expected parseActionPayload).

Lemma action_unfold this getData :
  action this getData =
    (res <- action_referral this getData JNull ;;
     res <- run_steps (guarded_steps this getData) res ;;
     Ok (finish getData res)).
Proof.
  unfold Request.action, Request.guarded_steps, run_steps, finish.
  repeat match goal with
         | |- context [bind ?c _] => destruct c; simpl; try reflexivity
         end.
  destruct getData; reflexivity.
Qed.

(** Splits on the tests of a statement of [action]. *)
Ltac step_cases :=
  repeat match goal with
         | |- context [if ?b then _ else _] => destruct b eqn:?; simpl
         | |- context [bind ?c _] => destruct c eqn:?; simpl
         end;
  auto.

Ltac guarded_tac :=
  intros res; split; intros Hres;
  [ unfold falsy; rewrite Hres; reflexivity
  | unfold falsy; rewrite Hres; simpl; step_cases ].

Lemma guarded_postback this g : guarded (action_postback this g).
Proof. unfold Request.action_postback. guarded_tac. Qed.

Lemma guarded_optin this g : guarded (action_optin this g).
Proof. unfold Request.action_optin. guarded_tac. Qed.

Lemma guarded_quick_reply this g : guarded (action_quick_reply this g).
Proof. unfold Request.action_quick_reply. guarded_tac. Qed.

Lemma guarded_pass_thread this g : guarded (action_pass_thread this g).
Proof.
  unfold Request.action_pass_thread. intros res; split; intros Hres.
  - unfold falsy; rewrite Hres; reflexivity.
  - assert (Hf : falsy res = true) by (apply falsy_true; exact Hres).
    rewrite Hf. simpl.
    destruct (isPassThread this) as [pass|]; simpl; auto.
    destruct (truthy pass); auto.
    destruct (get_prop (data this) "pass_thread_control") as [c|]; simpl; auto.
    destruct (get_prop c "metadata") as [m|]; simpl; auto.
    destruct (truthy m); simpl; auto.
    rewrite Hf. destruct g; simpl; auto.
Qed.

Lemma guarded_keywords this g : guarded (action_keywords this g).
Proof. unfold Request.action_keywords. guarded_tac. Qed.

Lemma guarded_expected this g : guarded (action_expected this g).
Proof. unfold Request.action_expected. guarded_tac. Qed.

Lemma guarded_steps_guarded this g : Forall guarded (guarded_steps this g).
Proof.
  unfold Request.guarded_steps.
  repeat (apply List.Forall_cons;
          [ first [ apply guarded_postback | apply guarded_optin
                  | apply guarded_quick_reply | apply guarded_pass_thread
                  | apply guarded_keywords | apply guarded_expected ] | ]).
  apply List.Forall_nil.
Qed.

Lemma run_steps_truthy steps res :
  Forall guarded steps -> truthy res = true -> run_steps steps res = Ok res.
Proof.
  intros Hg Hres. induction Hg as [|step rest Hstep _ IH]; simpl.
  - reflexivity.
  - destruct (Hstep res) as [-> _]; auto.
Qed.

Lemma run_steps_first pre : forall step post res v,
  Forall guarded (pre ++ step :: post) ->
  truthy res = false ->
  Forall (fun st => yields_nothing (st JNull)) pre ->
  step JNull = Ok v -> truthy v = true ->
  run_steps (pre ++ step :: post) res = Ok v.
Proof.
  induction pre as [|p pre IH]; intros step post res v Hg Hres Hpre Hv Htv;
    simpl in *.
  - inversion Hg as [|? ? Hstep Hpost]; subst.
    destruct (Hstep res) as [_ [E | [_ E]]]; auto.
    + rewrite E, Hv. simpl. apply run_steps_truthy; auto.
    + rewrite Hv in E. inversion E; subst. discriminate.
  - inversion Hg as [|? ? Hp Hrest]; subst.
    inversion Hpre as [|? ? [w [Hw Hfw]] Hpre']; subst.
    destruct (Hp res) as [_ [E | [E _]]]; auto.
    + rewrite E, Hw. simpl. apply IH; auto.
    + rewrite E. simpl. apply IH; auto.
Qed.

Lemma run_steps_none steps : forall res,
  Forall guarded steps ->
  truthy res = false ->
  Forall (fun st => yields_nothing (st JNull)) steps ->
  exists res', run_steps steps res = Ok res' /\ truthy res' = false.
Proof.
  induction steps as [|p steps IH]; intros res Hg Hres Hn; simpl.
  - eauto.
  - inversion Hg as [|? ? Hp Hrest]; subst.
    inversion Hn as [|? ? [w [Hw Hfw]] Hn']; subst.
    destruct (Hp res) as [_ [E | [E _]]]; auto.
    + rewrite E, Hw. simpl. apply IH; auto.
    + rewrite E. simpl. apply IH; auto.
Qed.

Lemma finish_truthy g v : truthy v = true -> finish g v = v.
Proof. intros H. unfold finish. destruct g; apply js_or_truthy; auto. Qed.

Lemma sources_steps this g :
  sources this g =
    action_referral this g JNull
      :: List.map (fun st => st JNull) (guarded_steps this g).
Proof. reflexivity. Qed.

End WithUtils.

End RequestFacts.

Module RequestAction.
Import Js JsFacts Request RequestFacts Samples.

Section WithUtils.

Variable parseActionPayload : JsVal -> Exc ParsedPayload.
Variable quickReplyAction : JsVal -> JsVal -> JsVal -> Exc JsVal.
Variable tokenize : JsVal -> Exc JsVal.
Variable base64_to_utf8 : string -> string.

Local Abbreviation action :=
  (action parseActionPayload quickReplyAction tokenize base64_to_utf8).
Local Abbreviation sources :=
  (sources parseActionPayload quickReplyAction tokenize base64_to_utf8).
Local Abbreviation guarded_steps :=
  (guarded_steps parseActionPayload quickReplyAction tokenize base64_to_utf8).
Local Abbreviation source_referral := (source_referral parseActionPayload).
Local Abbreviation postBack := (postBack parseActionPayload).

Lemma first_source_wins this getData pre s post v :
  sources this getData = pre ++ s :: post ->
  Forall yields_nothing pre ->
  s = Ok v -> truthy v = true ->
  action this getData = Ok v.
Proof.
  intros Hsrc Hpre Hs Hv. rewrite action_unfold.
  rewrite sources_steps in Hsrc.
  destruct pre as [|p pre]; cbn [app] in Hsrc; injection Hsrc as Hhead Htail.
  - rewrite Hhead, Hs. cbn [bind].
    rewrite (run_steps_truthy _ v (guarded_steps_guarded _ _ _ _ _ _) Hv).
    cbn [bind]. rewrite finish_truthy; auto.
  - inversion Hpre as [|? ? [w [Hw Hfw]] Hpre']; subst.
    rewrite Hw. cbn [bind].
    change (List.map (fun st : JsVal -> Exc JsVal => st JNull)
              (guarded_steps this getData) = pre ++ Ok v :: post) in Htail.
    apply List.map_eq_app in Htail as (l1 & l2 & Hsteps & Hl1 & Hl2).
    apply List.map_eq_cons in Hl2 as (st & l2' & -> & Hst & _).
    pose proof (guarded_steps_guarded parseActionPayload quickReplyAction
                  tokenize base64_to_utf8 this getData) as Hg.
    rewrite Hsteps in Hg |- *.
    rewrite (run_steps_first l1 st l2' w v); cbn [bind].
    + rewrite finish_truthy; auto.
    + exact Hg.
    + exact Hfw.
    + subst pre.
      exact (proj1 (List.Forall_map (fun st : JsVal -> Exc JsVal => st JNull)
                      yields_nothing l1) Hpre').
    + exact Hst.
    + exact Hv.
Qed.

End WithUtils.

End RequestAction.

(** ** [Request.action] on pass-thread events *)

Module RequestPassThread.
Import Js JsFacts Request RequestFacts RequestAction Samples.

Section WithUtils.

Variable parseActionPayload : JsVal -> Exc ParsedPayload.
Variable quickReplyAction : JsVal -> JsVal -> JsVal -> Exc JsVal.
Variable tokenize : JsVal -> Exc JsVal.
Variable base64_to_utf8 : string -> string.

Local Abbreviation action :=
  (action parseActionPayload quickReplyAction tokenize base64_to_utf8).
Local Abbreviation sources :=
  (sources parseActionPayload quickReplyAction tokenize base64_to_utf8).

(** When the event carries a [pass_thread_control] object without metadata
    and no source before it yields anything, the action is the literal
    ['pass-thread']. *)
Lemma pass_thread_fallback this control :
  yields_nothing (Request.source_referral parseActionPayload this false) ->
  yields_nothing (Request.source_postback parseActionPayload this false) ->
  yields_nothing
    (Request.source_optin parseActionPayload base64_to_utf8 this false) ->
  yields_nothing (Request.source_quick_reply parseActionPayload this false) ->
  get_prop (data this) "pass_thread_control" = Ok control ->
  truthy control = true ->
  truthy (prop control "metadata") = false ->
  action this false = Ok (JStr "pass-thread").
Proof.
  intros H1 H2 H3 H4 Hc Htc Hm.
  apply (first_source_wins parseActionPayload quickReplyAction tokenize
           base64_to_utf8 this false
           [ Request.source_referral parseActionPayload this false;
             Request.source_postback parseActionPayload this false;
             Request.source_optin parseActionPayload base64_to_utf8 this false;
             Request.source_quick_reply parseActionPayload this false ]
           (Request.source_pass_thread parseActionPayload this false)
           [ Request.source_keywords parseActionPayload quickReplyAction
               tokenize this false;
             Request.source_expected parseActionPayload this false ]).
  - reflexivity.
  - repeat (apply List.Forall_cons; [assumption |]). apply List.Forall_nil.
  - unfold Request.source_pass_thread, Request.action_pass_thread,
      isPassThread.
    cbn [falsy truthy negb].
    destruct (data this) as [| | | | | |props| |] eqn:Hd;
      simpl in Hc; try discriminate;
      try (inversion Hc; subst control; discriminate).
    inversion Hc as [Hc']. cbn [get_prop bind].
    rewrite Hc'. rewrite truthy_js_or, Htc, orb_true_r.
    rewrite (get_prop_truthy control "metadata" Htc). cbn [bind].
    rewrite Hm. cbn [bind falsy truthy negb andb]. reflexivity.
  - reflexivity.
Qed.

(** C7. An event for which [isPassThread()] is truthy only through
    [target_app_id] has no [pass_thread_control] object: no source before
    the pass-thread one resolves an action, there is no metadata, and
    [action()] does not fall back to ['pass-thread'] but throws a
    [TypeError] when it reads [pass_thread_control.metadata]. *)
Theorem action_target_app_only_throws (state : JsVal) :
  let this := request_of target_app_only state in
  Request.new target_app_only state (JStr "page") 1%float = Ok this
  /\ isPassThread this = Ok (JStr "app")
  /\ get_prop (data this) "pass_thread_control" = Ok JUndefined
  /\ Request.source_referral parseActionPayload this false = Ok JNull
  /\ Request.source_postback parseActionPayload this false = Ok JNull
  /\ Request.source_optin parseActionPayload base64_to_utf8 this false
     = Ok JNull
  /\ Request.source_quick_reply parseActionPayload this false = Ok JNull
  /\ action this false
     = Throw (TypeError "Cannot read property 'metadata' of undefined").
Proof. repeat split; reflexivity. Qed.

(** C9. [action] does not always return: on the event that only carries
    [target_app_id] it throws a [TypeError], with [getData] true as well as
    false, whatever the state is. *)
Theorem action_throws_instead_of_returning (state : JsVal) (getData : bool) :
  action (request_of target_app_only state) getData
  = Throw (TypeError "Cannot read property 'metadata' of undefined").
Proof. destruct getData; reflexivity. Qed.

(** Whenever [action] returns, the value is not [undefined]: it is a truthy
    value, or the default [{}] (data asked for) or [null] (otherwise). *)
Lemma action_result_defined this getData v :
  action this getData = Ok v ->
  v <> JUndefined
  /\ (getData = true -> truthy v = true)
  /\ (getData = false -> v = JNull \/ truthy v = true).
Proof.
  rewrite action_unfold. intros H.
  apply bind_ok in H as (r1 & _ & H).
  apply bind_ok in H as (r2 & _ & H).
  inversion H as [Hv]. clear H.
  unfold finish, js_or. destruct getData, (truthy r2) eqn:Hr; simpl;
    (split; [| split]); try congruence; auto;
    try (intros ->; discriminate).
Qed.

(** When no source yields anything, [action] returns the default. *)
Lemma action_default this getData :
  Forall yields_nothing (sources this getData) ->
  action this getData = Ok (if getData then JObj [] else JNull).
Proof.
  intros Hall. rewrite action_unfold. rewrite sources_steps in Hall.
  inversion Hall as [|? ? [w [Hw Hfw]] Hrest]; subst.
  rewrite Hw. cbn [bind].
  destruct (run_steps_none
              (Request.guarded_steps parseActionPayload quickReplyAction
                 tokenize base64_to_utf8 this getData) w)
    as (res' & Hrun & Hres').
  - apply guarded_steps_guarded.
  - exact Hfw.
  - exact (proj1 (List.Forall_map (fun st : JsVal -> Exc JsVal => st JNull)
                    yields_nothing
                    (Request.guarded_steps parseActionPayload quickReplyAction
                       tokenize base64_to_utf8 this getData)) Hrest).
  - rewrite Hrun. cbn [bind]. unfold finish.
    destruct getData; rewrite js_or_falsy; auto.
Qed.

End WithUtils.

Lemma pass_thread_fallback_witness :
  Request.action sample_parse sample_quickReplyAction sample_tokenize
    sample_base64 (request_of pass_thread_no_metadata (JObj [])) false
  = Ok (JStr "pass-thread").
Proof.
  apply (pass_thread_fallback sample_parse sample_quickReplyAction
           sample_tokenize sample_base64
           (request_of pass_thread_no_metadata (JObj []))
           (JObj [("new_owner_app_id", JStr "app"); ("metadata", JNull)]));
    try reflexivity; exists JNull; split; reflexivity.
Defined.

Lemma action_result_defined_witness :
  Request.action sample_parse sample_quickReplyAction sample_tokenize
    sample_base64 (request_of postback_and_quick_reply (JObj [])) false
  = Ok (JStr "from-postback")
  /\ JStr "from-postback" <> JUndefined.
Proof.
  split; [reflexivity |].
  apply (action_result_defined sample_parse sample_quickReplyAction
           sample_tokenize sample_base64
           (request_of postback_and_quick_reply (JObj [])) false
           (JStr "from-postback")).
  reflexivity.
Defined.

Lemma action_default_witness :
  Request.action sample_parse sample_quickReplyAction sample_tokenize
    sample_base64 (request_of (JObj []) (JObj [])) true
  = Ok (JObj []).
Proof.
  apply (action_default sample_parse sample_quickReplyAction sample_tokenize
           sample_base64 (request_of (JObj []) (JObj [])) true).
  repeat (apply List.Forall_cons; [exists JNull; split; reflexivity |]).
  apply List.Forall_nil.
Defined.

End RequestPassThread.

(** ** [Request.intent] *)

Module RequestIntent.
Import Js Request Samples.

(** C8. [Request.intent] looks at the first intent only. Without intents
    it returns [null]. With a numeric threshold [s] it returns the first
    intent's label exactly when that intent's score is at least [s]
    ([score >= s]) and [null] otherwise; with [true] it returns the first
    intent's record; the intents after the first never change the result. *)
Theorem intent_top_ranked (this : Request) :
  (forall g, intent (set_intents this None) g = IntentNull)
  /\ (forall g, intent (set_intents this (Some [])) g = IntentNull)
  /\ (forall i rest s,
        (intent (set_intents this (Some (i :: rest))) (JNum s)
         = IntentLabel (intent_name i)
         <-> PrimFloat.leb s (intent_score i) = true)
        /\ (PrimFloat.leb s (intent_score i) = false ->
            intent (set_intents this (Some (i :: rest))) (JNum s)
            = IntentNull))
  /\ (forall i rest,
        intent (set_intents this (Some (i :: rest))) (JBool true)
        = IntentData i)
  /\ (forall i rest rest' g,
        intent (set_intents this (Some (i :: rest))) g
        = intent (set_intents this (Some (i :: rest'))) g).
Proof.
  repeat split; try reflexivity.
  - unfold intent; simpl.
    destruct (PrimFloat.leb s (intent_score i)); [reflexivity | discriminate].
  - unfold intent; simpl. intros ->. reflexivity.
  - unfold intent; simpl. intros ->. reflexivity.
Qed.

Example intent_above_threshold :
  intent (set_intents (request_of (JObj []) (JObj []))
            (Some [ mkIntent "greeting" 0.75 JUndefined;
                    mkIntent "goodbye" 0.5 JUndefined ]))
    (JNum 0.5)
  = IntentLabel "greeting".
Proof. reflexivity. Qed.

Example intent_below_threshold :
  intent (set_intents (request_of (JObj []) (JObj []))
            (Some [ mkIntent "greeting" 0.75 JUndefined;
                    mkIntent "goodbye" 0.875 JUndefined ]))
    (JNum 0.8125)
  = IntentNull.
Proof. reflexivity. Qed.

End RequestIntent.

(** ** Code resolvers: [customFn] and [inlineCode] *)

Module CodeResolver.
Import Js JsFacts Resolvers RuntimeSamples.

Section WithRuntime.

Variable js_eval : string -> Exc JsVal.
Variable apply_fn : fn_id -> list JsVal -> Exc JsVal.
Variable settle : promise_id -> Async JsVal.
Variable settle_thenable : JsVal -> Async JsVal.
Variable to_string : JsVal -> string.

Local Abbreviation customFn := (customFn js_eval to_string).
Local Abbreviation inlineCode :=
  (inlineCode js_eval apply_fn settle settle_thenable to_string).
Local Abbreviation js_call := (js_call apply_fn to_string).
Local Abbreviation await := (await settle settle_thenable).

Lemma inlineCode_ok params context resolver :
  inlineCode params context = Ok resolver ->
  exists isLastIndex code description fn,
    get_prop context "isLastIndex" = Ok isLastIndex
    /\ get_prop params "code" = Ok code
    /\ get_prop params "description" = Ok description
    /\ customFn code description = Ok fn
    /\ resolver =
       (fun req res postBack path action =>
          match js_call fn [req; res; postBack; path; action] with
          | Throw e => Rejected e
          | Ok ret =>
              let awaited :=
                if String.eqb (typeof ret) "object"
                   && negb (strict_eq ret JNull)
                then await ret
                else Resolved ret in
              match awaited with
              | Resolved ret =>
                  if negb (String.eqb (typeof ret) "undefined")
                  then await ret
                  else Resolved
                         (if truthy isLastIndex then JNull else JBool true)
              | Rejected e => Rejected e
              | Pending => Pending
              end
          end).
Proof.
  unfold Resolvers.inlineCode. intros H.
  apply bind_ok in H as (isLastIndex & Hi & H).
  apply bind_ok in H as (code & Hc & H).
  apply bind_ok in H as (description & Hd & H).
  apply bind_ok in H as (fn & Hf & H).
  inversion H. exists isLastIndex, code, description, fn. auto.
Qed.

Lemma await_plain v : awaitable v = false -> await v = Resolved v.
Proof.
  unfold Resolvers.await, awaitable.
  destruct v; try reflexivity; try discriminate.
  intros ->. reflexivity.
Qed.

Lemma awaitable_object v :
  awaitable v = true ->
  String.eqb (typeof v) "object" && negb (strict_eq v JNull) = true.
Proof. destruct v; simpl; intros H; try discriminate; reflexivity. Qed.

Lemma defined_typeof v :
  v <> JUndefined -> negb (String.eqb (typeof v) "undefined") = true.
Proof. destruct v; simpl; intros H; try reflexivity; congruence. Qed.


(** C6. Building a code resolver throws when [params.code] is not a string,
    when evaluating the code throws, and when the code does not evaluate to
    a function; [inlineCode] hands on what [customFn] throws. *)
Theorem inlineCode_construction_fails params context isLastIndex code
    description :
  get_prop context "isLastIndex" = Ok isLastIndex ->
  get_prop params "code" = Ok code ->
  get_prop params "description" = Ok description ->
  (typeof code <> "string" ->
     customFn code description
     = Throw (Error ("Inline code '" ++ to_string description
                     ++ "' has empty code")))
  /\ (forall source e, code = JStr source -> js_eval source = Throw e ->
        exists e', customFn code description = Throw e')
  /\ (forall source resolver, code = JStr source ->
        js_eval source = Ok resolver -> typeof resolver <> "function" ->
        customFn code description
        = Throw (Error ("Invalid inline code '" ++ to_string description
                        ++ "': must be a function")))
  /\ (forall e, customFn code description = Throw e ->
        inlineCode params context = Throw e).
Proof.
  intros Hi Hc Hd. repeat split.
  - intros Hty. unfold Resolvers.customFn.
    destruct (String.eqb (typeof code) "string") eqn:E.
    + apply String.eqb_eq in E. contradiction.
    + reflexivity.
  - intros source e -> He. unfold Resolvers.customFn. simpl. rewrite He.
    destruct (error_message e) as [m|e'] eqn:Em; simpl; eauto.
  - intros source resolver -> He Hty. unfold Resolvers.customFn. simpl.
    rewrite He. simpl.
    destruct (String.eqb (typeof resolver) "function") eqn:E.
    + apply String.eqb_eq in E. contradiction.
    + reflexivity.
  - intros e He. unfold Resolvers.inlineCode.
    rewrite Hi, Hc, Hd. simpl. rewrite He. reflexivity.
Qed.

End WithRuntime.



Example inlineCode_not_last :
  match Resolvers.inlineCode sample_eval sample_apply sample_settle
          sample_settle_thenable
          sample_to_string (code_params "async (req, res) => {}")
          (last_index false) with
  | Ok resolver => resolver JNull JNull JNull JNull JNull
  | Throw e => Rejected e
  end = Resolved (JBool true).
Proof. reflexivity. Qed.

Example inlineCode_value :
  match Resolvers.inlineCode sample_eval sample_apply sample_settle
          sample_settle_thenable
          sample_to_string (code_params "() => 'next'") (last_index true) with
  | Ok resolver => resolver JNull JNull JNull JNull JNull
  | Throw e => Rejected e
  end = Resolved (JStr "next").
Proof. reflexivity. Qed.

(** The code ["42"] evaluates to a number: the construction throws. *)
Lemma inlineCode_construction_fails_witness :
  Resolvers.inlineCode sample_eval sample_apply sample_settle
    sample_settle_thenable sample_to_string (code_params "42")
    (last_index true)
  = Throw (Error "Invalid inline code 'sample': must be a function").
Proof.
  destruct (inlineCode_construction_fails sample_eval sample_apply
              sample_settle sample_settle_thenable sample_to_string
              (code_params "42") (last_index true) (JBool true) (JStr "42")
              (JStr "sample")
              eq_refl eq_refl eq_refl)
    as (_ & _ & Hnotfn & Hraise).
  apply Hraise. apply (Hnotfn "42" (JNum 42)); try reflexivity.
  simpl. discriminate.
Defined.

End CodeResolver.

(** ** [processButtons]: postback buttons *)

Module Buttons.
Import Js JsFacts Resolvers RuntimeSamples.

Section WithRuntime.

Variable apply_fn : fn_id -> list JsVal -> Exc JsVal.
Variable to_string : JsVal -> string.
Variable Math_random : nat -> float.
Variable hbs_compile : JsVal -> Exc JsVal.

Local Abbreviation getText :=
  (getText apply_fn to_string Math_random hbs_compile).
Local Abbreviation processButton :=
  (processButton apply_fn to_string Math_random hbs_compile).
Local Abbreviation processButtons :=
  (processButtons apply_fn to_string Math_random hbs_compile).
Local Abbreviation call_renderer :=
  (call_renderer apply_fn to_string Math_random hbs_compile).

Lemma call_renderer_elem renderer args w :
  elem (snd (call_renderer renderer args w)) = elem w.
Proof.
  unfold Resolvers.call_renderer. destruct renderer as [f|texts]; simpl.
  - reflexivity.
  - destruct (negb _); simpl; [| reflexivity].
    destruct (hbs_compile _); reflexivity.
Qed.

(** [getText] leaves the template under construction alone. *)
Lemma getText_elem text state w :
  elem (snd (getText text state w)) = elem w.
Proof.
  unfold Resolvers.getText, mbind, lift.
  destruct (get_prop state "lang"); simpl; [| reflexivity].
  destruct (randomizedCompiler hbs_compile text a) as [renderer|];
    simpl; [| reflexivity].
  pose proof (call_renderer_elem renderer [state] w) as H.
  destruct (call_renderer renderer [state] w) as [[r ren] w']. exact H.
Qed.

Lemma get_prop_other v k x k' :
  get_prop v k = Ok x -> exists y, get_prop v k' = Ok y.
Proof. destruct v; simpl; intros H; try discriminate; eauto. Qed.

(** C10. A postback button whose [targetRouteId] has no entry in [linksMap]
    adds nothing to [elem] and raises nothing, and the buttons after it are
    still processed; a target mapped to ['/'] is added as a postback button
    to ['./']. *)
Theorem processButton_postback state linksMap senderId linksTranslator
    button rest title action target titleText defaultText w w1 w2 :
  get_prop button "title" = Ok title ->
  get_prop button "action" = Ok action ->
  get_prop action "type" = Ok (JStr TYPE_POSTBACK) ->
  get_prop action "targetRouteId" = Ok target ->
  getText title state w = (Ok titleText, w1) ->
  getText title (JObj [("lang", JNull)]) w1 = (Ok defaultText, w2) ->
  elem w2 = elem w
  /\ (map_get linksMap target = None ->
        processButton state linksMap senderId linksTranslator button w
        = (Ok tt, w2)
        /\ processButtons (button :: rest) state linksMap senderId
             linksTranslator w
           = processButtons rest state linksMap senderId linksTranslator w2)
  /\ (map_get linksMap target = Some (JStr "/") ->
        processButton state linksMap senderId linksTranslator button w
        = (Ok tt,
           set_elem w2 (elem w2 ++ [postBackButton titleText (JStr "./")]))).
Proof.
  intros Ht Ha Hty Htg Hg1 Hg2.
  destruct (get_prop_other action "type" _ "url" Hty) as (url & Hurl).
  destruct (get_prop_other action "type" _ "webviewHeight" Hty)
    as (height & Hheight).
  assert (Hstep : forall postbackAction,
             match map_get linksMap target with
             | Some a => a
             | None => JUndefined
             end = postbackAction ->
             processButton state linksMap senderId linksTranslator button w
             = (if strict_eq postbackAction (JStr "/")
                then emit (postBackButton titleText (JStr "./"))
                else if falsy postbackAction then ret tt
                     else emit (postBackButton titleText postbackAction)) w2).
  { intros postbackAction Hpa. unfold Resolvers.processButton, mbind, lift.
    rewrite Ht, Ha, Hg1, Hg2, Hty, Hurl, Hheight, Htg. simpl.
    rewrite Hpa. reflexivity. }
  split; [| split].
  - pose proof (getText_elem title state w) as E1.
    pose proof (getText_elem title (JObj [("lang", JNull)]) w1) as E2.
    rewrite Hg1 in E1. rewrite Hg2 in E2. simpl in E1, E2. congruence.
  - intros Hnone.
    assert (Hb : processButton state linksMap senderId linksTranslator
                   button w = (Ok tt, w2)).
    { rewrite (Hstep JUndefined); [reflexivity | rewrite Hnone; reflexivity]. }
    split; [exact Hb |].
    simpl. unfold mbind at 1. rewrite Hb. reflexivity.
  - intros Hroot.
    rewrite (Hstep (JStr "/")); [reflexivity | rewrite Hroot; reflexivity].
Qed.

End WithRuntime.

(** Two postback buttons, to an unknown route and to the root: only the
    second is added, with the action ['./']. *)
Lemma processButton_postback_witness :
  Resolvers.processButtons sample_apply sample_to_string random_constant
    sample_hbs
    [postback_button "Hello" "route-gone"; postback_button "Hi" "route-root"]
    english links (JStr "user") default_linksTranslator empty_world
  = (Ok tt,
     {| draws := 0; cache := [];
        elem := [postBackButton (JStr "Hi") (JStr "./")] |}).
Proof.
  destruct (processButton_postback sample_apply sample_to_string
              random_constant sample_hbs english links (JStr "user")
              default_linksTranslator (postback_button "Hello" "route-gone")
              [postback_button "Hi" "route-root"]
              (JStr "Hello")
              (JObj [ ("type", JStr "postback");
                      ("targetRouteId", JStr "route-gone") ])
              (JStr "route-gone") (JStr "Hello") (JStr "Hello")
              empty_world empty_world empty_world
              eq_refl eq_refl eq_refl eq_refl eq_refl eq_refl)
    as (_ & Hgone & _).
  destruct (Hgone eq_refl) as (_ & Hrest).
  rewrite Hrest. reflexivity.
Defined.

(** A postback button to an unknown route whose title does not parse: the
    title is rendered before the type is looked at, and the error of the
    template is raised. *)
Lemma processButton_postback_title_throws :
  map_get links (JStr "route-gone") = None
  /\ Resolvers.processButtons broken_apply sample_to_string random_constant
       broken_hbs [postback_button broken_template "route-gone"] english links
       (JStr "user") default_linksTranslator empty_world
     = (Throw (Error "Parse error on line 1"), empty_world).
Proof. split; reflexivity. Qed.

End Buttons.

(** ** [cachedTranslatedCompilator]: which variant a call renders *)

Module TextVariants.
Import Js JsFacts Resolvers RuntimeSamples.

Lemma same_value_zero_irrefl k :
  same_value_zero k k = false -> forall k', same_value_zero k' k = false.
Proof.
  destruct k as [| |b|x|s|items|props|f|p]; simpl; try discriminate.
  - destruct b; discriminate.
  - destruct (PrimFloat.eqb x x); discriminate.
  - rewrite String.eqb_refl. discriminate.
  - intros _ k'. destruct k'; reflexivity.
  - intros _ k'. destruct k'; reflexivity.
  - rewrite Nat.eqb_refl. discriminate.
  - rewrite Nat.eqb_refl. discriminate.
Qed.

Lemma map_get_irrefl {V} (m : JsMap V) k :
  same_value_zero k k = false -> map_get m k = None.
Proof.
  intros Hk. induction m as [|[k' v] m IH]; simpl.
  - reflexivity.
  - rewrite (same_value_zero_irrefl k Hk k'). exact IH.
Qed.

Lemma map_get_set {V} (m : JsMap V) k v :
  same_value_zero k k = true -> map_get (map_set m k v) k = Some v.
Proof.
  intros Hk. induction m as [|[k' v'] m IH]; simpl.
  - rewrite Hk. reflexivity.
  - destruct (same_value_zero k' k) eqn:E; simpl; rewrite E; auto.
Qed.

Section WithRuntime.

Variable apply_fn : fn_id -> list JsVal -> Exc JsVal.
Variable to_string : JsVal -> string.
Variable Math_random : nat -> float.
Variable hbs_compile : JsVal -> Exc JsVal.

Local Abbreviation call_renderer :=
  (call_renderer apply_fn to_string Math_random hbs_compile).
Local Abbreviation rendered := (rendered apply_fn to_string hbs_compile).
Local Abbreviation random_index := (random_index Math_random).
Local Abbreviation cached :=
  (cachedTranslatedCompilator apply_fn to_string Math_random hbs_compile).
Local Abbreviation renderer_for := (renderer_for hbs_compile).
Local Abbreviation compiles_to_functions :=
  (compiles_to_functions hbs_compile).

Lemma call_renderer_result renderer args w :
  exists renderer',
    call_renderer renderer args w
    = (rendered renderer args (random_index (draws w) (texts_of renderer)),
       renderer',
       set_draws w (draws_after renderer (draws w))).
Proof.
  destruct renderer as [f|texts]; simpl.
  - exists (Template f). destruct w; reflexivity.
  - destruct (negb _).
    + destruct (hbs_compile _); simpl; eauto.
    + eauto.
Qed.

Lemma random_index_length n texts texts' :
  length texts' = length texts -> random_index n texts' = random_index n texts.
Proof. unfold Resolvers.random_index. intros ->. reflexivity. Qed.

Lemma array_get_set_same texts j v :
  (0 <= j)%Z -> array_get (array_set texts (Some j) v) (Some j) = v.
Proof.
  intros Hj. unfold array_get, array_set.
  destruct (Z.leb_spec 0 j) as [_|Hneg]; [| lia].
  destruct (Nat.ltb_spec (Z.to_nat j) (length texts)) as [Hlt|Hge].
  - rewrite nth_lookup, list_lookup_insert_eq by exact Hlt. reflexivity.
  - rewrite List.app_nth2 by lia.
    rewrite List.app_nth2 by (rewrite List.repeat_length; lia).
    rewrite List.repeat_length, Nat.sub_diag. reflexivity.
Qed.

Lemma array_get_insert_ne texts k j v :
  Z.to_nat j <> k ->
  array_get (<[k := v]> texts) (Some j) = array_get texts (Some j).
Proof.
  intros Hne. unfold array_get. destruct (0 <=? j)%Z; [| reflexivity].
  rewrite !nth_lookup, list_lookup_insert_ne by auto. reflexivity.
Qed.

(** Keeping the compiled template in the place of its source changes
    nothing in what a call renders, whichever element a draw selects. *)
Lemma rendered_memo texts k f :
  compiles_to_functions ->
  k < length texts ->
  String.eqb (typeof (List.nth k texts JUndefined)) "function" = false ->
  hbs_compile (List.nth k texts JUndefined) = Ok f ->
  forall args index,
    rendered (Randomized (<[k := f]> texts)) args index
    = rendered (Randomized texts) args index.
Proof.
  intros Hfn Hk Hty Hc args index. unfold Resolvers.rendered.
  destruct index as [j|].
  - destruct (Z.leb_spec 0 j) as [Hj|Hj].
    + destruct (Nat.eq_dec (Z.to_nat j) k) as [E|Hne].
      * assert (Hnew : array_get (<[k := f]> texts) (Some j) = f).
        { unfold array_get. destruct (Z.leb_spec 0 j); [| lia].
          rewrite E, nth_lookup, list_lookup_insert_eq by exact Hk.
          reflexivity. }
        assert (Hold : array_get texts (Some j) = List.nth k texts JUndefined).
        { unfold array_get. destruct (Z.leb_spec 0 j); [| lia].
          rewrite E. reflexivity. }
        rewrite Hnew, Hold, Hty, (Hfn _ _ Hc), String.eqb_refl, Hc.
        cbn [negb bind]. rewrite array_get_set_same by exact Hj.
        reflexivity.
      * rewrite (array_get_insert_ne texts k j f Hne).
        destruct (negb _); [| reflexivity].
        destruct (hbs_compile (array_get texts (Some j))) as [f'|e];
          [| reflexivity].
        cbn [bind]. rewrite !array_get_set_same by exact Hj. reflexivity.
    + assert (Hout : forall t, array_get t (Some j) = JUndefined).
      { intros t. unfold array_get. destruct (Z.leb_spec 0 j); [lia |].
        reflexivity. }
      assert (Hset : forall t v, array_set t (Some j) v = t).
      { intros t v. unfold array_set. destruct (Z.leb_spec 0 j); [lia |].
        reflexivity. }
      rewrite !Hout. cbn [typeof String.eqb negb].
      destruct (hbs_compile JUndefined) as [f'|e]; [| reflexivity].
      cbn [bind]. rewrite !Hset, !Hout. reflexivity.
  - reflexivity.
Qed.

(** Calling the arrow function with a draw that selects the element [i]:
    afterwards the array has the same length and renders, element by
    element, what it rendered before. *)
Lemma call_renderer_memo texts args w i :
  compiles_to_functions ->
  random_index (draws w) texts = Some i ->
  (0 <= i < Z.of_nat (length texts))%Z ->
  exists texts',
    call_renderer (Randomized texts) args w
    = (rendered (Randomized texts) args (Some i),
       Randomized texts',
       set_draws w (S (draws w)))
    /\ length texts' = length texts
    /\ forall args' index,
         rendered (Randomized texts') args' index
         = rendered (Randomized texts) args' index.
Proof.
  intros Hfn Hi Hrange. unfold Resolvers.call_renderer.
  rewrite Hi. cbv zeta. unfold Resolvers.rendered at 1.
  assert (Hslot : array_get texts (Some i)
                  = List.nth (Z.to_nat i) texts JUndefined).
  { unfold array_get. destruct (Z.leb_spec 0 i); [reflexivity | lia]. }
  assert (Hset : forall v, array_set texts (Some i) v
                           = <[Z.to_nat i := v]> texts).
  { intros v. unfold array_set. destruct (Z.leb_spec 0 i); [| lia].
    destruct (Nat.ltb_spec (Z.to_nat i) (length texts)); [reflexivity | lia]. }
  destruct (String.eqb (typeof (array_get texts (Some i))) "function")
    eqn:Ety; cbn [negb].
  - exists texts. auto.
  - destruct (hbs_compile (array_get texts (Some i))) as [f|e] eqn:Ec.
    + exists (<[Z.to_nat i := f]> texts). cbn [bind]. rewrite !Hset.
      split; [reflexivity |]. split; [apply length_insert |].
      rewrite Hslot in Ety, Ec.
      apply rendered_memo; auto. lia.
    + exists texts. auto.
Qed.

Lemma cached_throw text state w e :
  renderer_for text state w = Throw e ->
  cached text state w = (Throw e, w).
Proof.
  unfold Resolvers.renderer_for, Resolvers.cachedTranslatedCompilator.
  destruct (get_prop state "lang") as [lang|e0]; simpl.
  - destruct (map_get (cache w) (cache_key lang)); [discriminate |].
    intros ->. reflexivity.
  - intros H. inversion H. reflexivity.
Qed.

(** The world in which the renderer of a call is called: the cache holds
    the renderer under the key. *)
Lemma cached_call text state w lang renderer :
  get_prop state "lang" = Ok lang ->
  renderer_for text state w = Ok renderer ->
  exists w0,
    draws w0 = draws w
    /\ (same_value_zero (cache_key lang) (cache_key lang) = false ->
        randomizedCompiler hbs_compile text lang = Ok renderer)
    /\ cached text state w
       = (let '(r, renderer', w') := call_renderer renderer [state] w0 in
          (r, set_cache w' (map_set (cache w') (cache_key lang) renderer'))).
Proof.
  intros Hlang. unfold Resolvers.renderer_for,
    Resolvers.cachedTranslatedCompilator.
  rewrite Hlang. simpl.
  destruct (map_get (cache w) (cache_key lang)) as [cached_renderer|] eqn:Hget.
  - intros H. inversion H; subst. exists w. split; [reflexivity |].
    split; [| reflexivity].
    intros Hirr. rewrite (map_get_irrefl (cache w) _ Hirr) in Hget.
    discriminate.
  - intros ->. simpl.
    exists (set_cache w (map_set (cache w) (cache_key lang) renderer)).
    auto.
Qed.

(** After a call, the renderer for the same state is the one the call left
    in the cache, or (for a key that equals no key) a new one made from the
    same text. *)
Lemma renderer_for_next text state lang renderer renderer' w' :
  get_prop state "lang" = Ok lang ->
  (same_value_zero (cache_key lang) (cache_key lang) = false ->
   randomizedCompiler hbs_compile text lang = Ok renderer) ->
  renderer_for text state
    (set_cache w' (map_set (cache w') (cache_key lang) renderer'))
  = Ok renderer'
  \/ renderer_for text state
       (set_cache w' (map_set (cache w') (cache_key lang) renderer'))
     = Ok renderer.
Proof.
  intros Hlang Hnew. unfold Resolvers.renderer_for. rewrite Hlang. simpl.
  destruct (same_value_zero (cache_key lang) (cache_key lang)) eqn:Hk.
  - left. rewrite map_get_set; auto.
  - right. rewrite map_get_irrefl; auto.
Qed.

Lemma cached_first text state w lang renderer :
  get_prop state "lang" = Ok lang ->
  renderer_for text state w = Ok renderer ->
  fst (cached text state w)
  = rendered renderer [state] (random_index (draws w) (texts_of renderer)).
Proof.
  intros Hlang Hr.
  destruct (cached_call text state w lang renderer Hlang Hr)
    as (w0 & Hd & _ & ->).
  destruct (call_renderer_result renderer [state] w0) as (renderer' & ->).
  simpl. rewrite Hd. reflexivity.
Qed.


End WithRuntime.

Lemma sample_hbs_compiles_to_functions :
  Resolvers.compiles_to_functions sample_hbs.
Proof.
  intros template f. destruct template; simpl; try discriminate.
  destruct (String.eqb s "Hello"); [intros H; inversion H; reflexivity |].
  destruct (String.eqb s "Hi"); intros H; inversion H; reflexivity.
Defined.



End TextVariants.

(** ** The responder and the conversation state *)

Module ResponderFrame.
Import Js Responder RuntimeSamples ResponderSamples.

Create HintDb frame.

Lemma keeps_ret {A} (a : A) : keeps_to_own (ret a).
Proof. intros st; simpl; auto. Qed.

Lemma keeps_throw {A} e : keeps_to_own (@throw St A e).
Proof. intros st; simpl; auto. Qed.

Lemma keeps_lift {A} (c : Exc A) : keeps_to_own (lift c).
Proof. intros st; simpl; auto. Qed.

Lemma keeps_bind {A B} (c : StM St A) (k : A -> StM St B) :
  keeps_to_own c -> (forall a, keeps_to_own (k a)) ->
  keeps_to_own (mbind c k).
Proof.
  intros Hc Hk st. unfold mbind.
  destruct (Hc st) as (Hn & Hd & Ho & Hh).
  destruct (c st) as [[a|e] st1]; simpl in *.
  - destruct (Hk a st1) as (Hn' & Hd' & Ho' & Hh').
    repeat split; try congruence.
    intros l Hl1 Hl2. rewrite Hh', Hh; auto; congruence.
  - auto.
Qed.

Lemma keeps_get_self : keeps_to_own get_self.
Proof. intros st; simpl; auto. Qed.

Lemma keeps_read_obj l : keeps_to_own (read_obj l).
Proof. intros st; simpl; auto. Qed.

Lemma keeps_sender_send data : keeps_to_own (sender_send data).
Proof. intros st; simpl; auto. Qed.

Lemma keeps_update_self f :
  (forall r, newState (f r) = newState r /\ _data (f r) = _data r
             /\ options (f r) = options r) ->
  keeps_to_own (update_self f).
Proof.
  intros Hf st. simpl. destruct (Hf (self st)) as (? & ? & ?). auto.
Qed.

Lemma keeps_setState object : keeps_to_own (setState object).
Proof.
  intros st. unfold setState, mbind, get_self, assign_obj. simpl.
  repeat split; auto.
  intros l Hl _. rewrite lookup_insert_ne; auto.
Qed.

Lemma keeps_setData data : keeps_to_own (setData data).
Proof.
  intros st. unfold setData, mbind, get_self, assign_obj. simpl.
  repeat split; auto.
  intros l _ Hl. rewrite lookup_insert_ne; auto.
Qed.

#[local] Hint Resolve keeps_ret keeps_throw keeps_lift keeps_get_self
  keeps_read_obj keeps_sender_send keeps_setState keeps_setData : frame.

(** Goes through the body of a method: binds, tests and case
    distinctions. *)
Ltac keeps :=
  repeat first
    [ solve [auto with frame]
    | apply keeps_update_self; intros ?; repeat split; reflexivity
    | apply keeps_bind; [| intros ?]
    | match goal with
      | |- keeps_to_own (if ?b then _ else _) => destruct b
      | |- keeps_to_own (match ?x with _ => _ end) => destruct x
      | |- keeps_to_own (let _ := _ in _) => cbv zeta
      end ].

Section WithRuntime.

Variable apply_fn : fn_id -> list JsVal -> Exc JsVal.
Variable util_format : JsVal -> list JsVal -> JsVal.
Variable JSON_stringify : JsVal -> JsVal.
Variable to_string : JsVal -> string.
Variable to_number : JsVal -> float.
Variable makeAbsolute : JsVal -> JsVal -> Exc JsVal.
Variable makeQuickReplies :
  JsVal -> JsVal -> JsVal -> list JsVal -> Exc (JsVal * JsVal).

Local Abbreviation run_call :=
  (run_call apply_fn util_format JSON_stringify to_string to_number
     makeAbsolute makeQuickReplies).
Local Abbreviation run_calls :=
  (run_calls apply_fn util_format JSON_stringify to_string to_number
     makeAbsolute makeQuickReplies).

Lemma keeps_send data : keeps_to_own (_send data).
Proof. unfold _send. keeps. Qed.
Hint Resolve keeps_send : frame.

Lemma keeps_senderAction action : keeps_to_own (_senderAction action).
Proof. unfold _senderAction. keeps. Qed.
Hint Resolve keeps_senderAction : frame.

Lemma keeps_wait ms : keeps_to_own (wait ms).
Proof. unfold wait. keeps. Qed.
Hint Resolve keeps_wait : frame.

Lemma keeps_typing_time text :
  keeps_to_own (_getTypingTimeForText to_number text).
Proof. unfold _getTypingTimeForText. keeps. Qed.
Hint Resolve keeps_typing_time : frame.

Lemma keeps_autoTyping text :
  keeps_to_own (_autoTypingIfEnabled to_number text).
Proof. unfold _autoTypingIfEnabled, typingOn. keeps. Qed.
Hint Resolve keeps_autoTyping : frame.

Lemma keeps_attachment url type reusable :
  keeps_to_own (_attachment to_string to_number url type reusable).
Proof. unfold _attachment. keeps. Qed.
Hint Resolve keeps_attachment : frame.

Lemma keeps_run_call c : keeps_to_own (run_call c).
Proof.
  destruct c; simpl;
    unfold setMessgingType, setPath, text, addQuickReply, toAbsoluteAction,
      expected, image, video, file, template, typingOn, typingOff, seen,
      passThread, takeThead;
    keeps.
Qed.

Lemma run_calls_keep calls : forall st l,
  l <> newState (self st) -> l <> _data (self st) ->
  heap (run_calls calls st) !! l = heap st !! l
  /\ newState (self (run_calls calls st)) = newState (self st)
  /\ _data (self (run_calls calls st)) = _data (self st).
Proof.
  induction calls as [|c calls IH]; intros st l Hn Hd; simpl.
  - auto.
  - destruct (keeps_run_call c st) as (En & Ed & _ & Eh).
    destruct (IH (snd (run_call c st)) l) as (Ih & In & Id);
      try congruence.
    unfold Responder.run_calls in *. simpl.
    rewrite Ih, In, Id, Eh; auto.
Qed.

(** What the constructor leaves in the store: the objects that were there,
    an empty [newState], and the options. *)
Lemma new_heap senderId token optionsArg dataArg heap0 sent0 l :
  l ∈ dom heap0 ->
  let st0 := new senderId token optionsArg dataArg heap0 sent0 in
  heap st0 !! l = heap0 !! l
  /\ l <> newState (self st0)
  /\ (dataArg <> Some l -> l <> _data (self st0))
  /\ heap st0 !! newState (self st0) = Some ∅.
Proof.
  intros Hl. unfold new. cbv zeta. cbn [self heap newState _data].
  set (l_data := match dataArg with
                 | Some l0 => l0
                 | None => fresh (dom heap0)
                 end).
  set (heap1 := match dataArg with
                | Some _ => heap0
                | None => <[l_data := ∅]> heap0
                end).
  set (l_new := fresh (dom heap1)).
  set (heap2 := <[l_new := ∅]> heap1).
  set (l_options := fresh (dom heap2)).
  assert (Hl1 : l ∈ dom heap1).
  { unfold heap1. destruct dataArg; [exact Hl |].
    apply dom_insert_subseteq. exact Hl. }
  assert (Hnew : l <> l_new).
  { intros ->. exact (is_fresh (dom heap1) Hl1). }
  assert (Hl2 : l ∈ dom heap2).
  { unfold heap2. apply dom_insert_subseteq. exact Hl1. }
  assert (Hopt : l <> l_options).
  { intros ->. exact (is_fresh (dom heap2) Hl2). }
  assert (Hnew_opt : l_new <> l_options).
  { intros E. apply (is_fresh (dom heap2)). fold l_options. rewrite <- E.
    unfold heap2. apply elem_of_dom. rewrite lookup_insert_eq. eauto. }
  assert (Hdata : dataArg <> Some l -> l <> l_data).
  { unfold l_data. destruct dataArg as [l0|].
    - intros Hne ->. apply Hne. reflexivity.
    - intros _ ->. exact (is_fresh (dom heap0) Hl). }
  repeat split; auto.
  - rewrite lookup_insert_ne by auto. unfold heap2.
    rewrite lookup_insert_ne by auto. unfold heap1.
    destruct dataArg as [l0|]; [reflexivity |].
    rewrite lookup_insert_ne; [reflexivity |].
    intros E. apply (is_fresh (dom heap0)). fold l_data in E |- *.
    rewrite E. exact Hl.
  - rewrite lookup_insert_ne by auto. unfold heap2.
    apply lookup_insert_eq.
Qed.

(** C5. The conversation state, an object of the store that exists before
    the responder is built and is not handed to it as [data], is the same
    after the constructor and any calls of the responder's methods. State
    writes go to [newState]: an object of its own that starts empty, that
    the responder keeps for good, and that [setState] updates with
    [Object.assign]. *)
Theorem responder_leaves_state senderId token optionsArg dataArg heap0 sent0
    calls l_state :
  l_state ∈ dom heap0 ->
  dataArg <> Some l_state ->
  let st0 := new senderId token optionsArg dataArg heap0 sent0 in
  let st := run_calls calls st0 in
  heap st !! l_state = heap0 !! l_state
  /\ heap st0 !! newState (self st0) = Some ∅
  /\ newState (self st0) <> l_state
  /\ newState (self st) = newState (self st0)
  /\ (forall object st',
        heap (snd (setState object st'))
        = <[newState (self st') :=
              assign (default ∅ (heap st' !! newState (self st'))) object]>
            (heap st')).
Proof.
  intros Hl Hdata. cbv zeta.
  destruct (new_heap senderId token optionsArg dataArg heap0 sent0 l_state Hl)
    as (H0 & Hn & Hd & Hempty).
  destruct (run_calls_keep calls
              (new senderId token optionsArg dataArg heap0 sent0) l_state)
    as (Hh & Hns & _); auto.
  repeat split; auto.
  rewrite Hh. exact H0.
Qed.

End WithRuntime.

(** A handler that sets state, sends a text and expects an action. *)
Lemma responder_leaves_state_witness :
  let st :=
    Responder.run_calls sample_apply sample_format sample_stringify
      sample_to_string sample_number sample_absolute sample_quick_replies
      sample_calls (new (JStr "user") JNull None None sample_heap []) in
  heap st !! state_loc = sample_heap !! state_loc.
Proof.
  cbv zeta.
  refine (proj1 (responder_leaves_state sample_apply sample_format
                   sample_stringify sample_to_string sample_number
                   sample_absolute sample_quick_replies (JStr "user") JNull
                   None None sample_heap [] sample_calls state_loc _ _)).
  - apply elem_of_dom. exists {[ "name" := JStr "Ann" ]}. reflexivity.
  - discriminate.
Defined.

Example handler_patch :
  let st :=
    Responder.run_calls sample_apply sample_format sample_stringify
      sample_to_string sample_number sample_absolute sample_quick_replies
      sample_calls (new (JStr "user") JNull None None sample_heap []) in
  heap st !! newState (self st)
  = Some {[ "visited" := JBool true;
            "_expected" :=
              JObj [("action", JStr "next"); ("data", JObj [])] ]}
  /\ heap st !! state_loc = Some {[ "name" := JStr "Ann" ]}.
Proof. cbv zeta. split; vm_compute; reflexivity. Qed.

End ResponderFrame.

(** ** The configuration cache: one fetch for concurrent calls *)

Module SingleFlight.
Import ConfigCache.

Lemma entry_insert c k e f d :
  entry (mkCache (ttl c) (<[k := e]> (entries c)) f d) k = e.
Proof. unfold entry. simpl. rewrite lookup_insert_eq. reflexivity. Qed.

Lemma entry_insert_ne c k k' e f d :
  k' <> k ->
  entry (mkCache (ttl c) (<[k' := e]> (entries c)) f d) k = entry c k.
Proof.
  intros Hne. unfold entry. simpl. rewrite lookup_insert_ne by exact Hne.
  reflexivity.
Qed.

(** An event about another key leaves the entry and the fetch count of [k]
    alone. *)
Lemma get_other who k k' now c :
  k' <> k ->
  entry (get who k' now c) k = entry c k
  /\ fetch_count (get who k' now c) k = fetch_count c k.
Proof.
  intros Hne. unfold get.
  destruct (value (entry c k')) as [v|];
    [destruct (now - fetchedAt (entry c k') <? ttl c)%Z |];
    try destruct (inFlightFetch (entry c k')) as [waiting|];
    unfold entry, fetch_count; simpl;
    rewrite ?lookup_insert_ne by exact Hne; auto.
Qed.

Lemma fetch_done_other k k' result now c :
  k' <> k ->
  entry (fetch_done k' result now c) k = entry c k
  /\ fetch_count (fetch_done k' result now c) k = fetch_count c k.
Proof.
  intros Hne. unfold fetch_done.
  destruct (inFlightFetch (entry c k')) as [waiting|]; [| auto].
  unfold entry, fetch_count; simpl.
  rewrite lookup_insert_ne by exact Hne. auto.
Qed.

Lemma invalidate_entry k k' c :
  value (entry c k) = None ->
  value (entry (invalidate k' c) k) = None
  /\ inFlightFetch (entry (invalidate k' c) k) = inFlightFetch (entry c k)
  /\ fetch_count (invalidate k' c) k = fetch_count c k.
Proof.
  intros Hv. unfold invalidate.
  destruct (String.eqb_spec k' k) as [->|Hne].
  - rewrite entry_insert. simpl. auto.
  - rewrite entry_insert_ne by exact Hne. auto.
Qed.

(** A call of [get(k)] with nothing cached: it joins the fetch in flight,
    or starts the fetch. *)
Lemma get_join who k now c waiting :
  value (entry c k) = None ->
  inFlightFetch (entry c k) = Some waiting ->
  value (entry (get who k now c) k) = None
  /\ inFlightFetch (entry (get who k now c) k) = Some (waiting ++ [who])
  /\ fetch_count (get who k now c) k = fetch_count c k.
Proof.
  intros Hv Hw. unfold get. rewrite Hv, Hw. rewrite entry_insert. auto.
Qed.

Lemma get_first who k now c :
  value (entry c k) = None ->
  inFlightFetch (entry c k) = None ->
  value (entry (get who k now c) k) = None
  /\ inFlightFetch (entry (get who k now c) k) = Some [who]
  /\ fetch_count (get who k now c) k = S (fetch_count c k).
Proof.
  intros Hv Hw. unfold get. rewrite Hv, Hw. rewrite entry_insert.
  repeat split; auto.
  unfold fetch_count at 1. simpl. rewrite lookup_insert_eq. reflexivity.
Qed.

(** While no fetch for [k] completes and nothing is cached for [k], the
    callers of [get(k)] gather on one fetch in flight, and the remote fetch
    function is invoked for [k] when the first of them finds none. *)
Lemma run_waiting k evs : forall c,
  value (entry c k) = None ->
  fetch_pending k evs = true ->
  value (entry (run evs c) k) = None
  /\ inFlightFetch (entry (run evs c) k)
     = joined (inFlightFetch (entry c k)) (callers_of k evs)
  /\ fetch_count (run evs c) k
     = fetch_count c k
       + match inFlightFetch (entry c k), callers_of k evs with
         | None, _ :: _ => 1
         | _, _ => 0
         end.
Proof.
  induction evs as [|ev evs IH]; intros c Hv Hp.
  - simpl. destruct (inFlightFetch (entry c k)); simpl;
      rewrite ?app_nil_r; auto.
  - change (run (ev :: evs) c) with (run evs (step ev c)).
    destruct ev as [who k' now | k' result now | k'];
      simpl in Hp; simpl callers_of; simpl step.
    + destruct (String.eqb_spec k' k) as [->|Hne].
      * destruct (inFlightFetch (entry c k)) as [waiting|] eqn:Hw.
        -- destruct (get_join who k now c waiting Hv Hw) as (Gv & Gw & Gc).
           destruct (IH (get who k now c) Gv Hp) as (Iv & Iw & Ic).
           rewrite Iv, Iw, Ic, Gw, Gc. simpl.
           rewrite <- app_assoc. simpl. auto.
        -- destruct (get_first who k now c Hv Hw) as (Gv & Gw & Gc).
           destruct (IH (get who k now c) Gv Hp) as (Iv & Iw & Ic).
           rewrite Iv, Iw, Ic, Gw, Gc. simpl.
           repeat split; auto; lia.
      * destruct (get_other who k k' now c Hne) as (He & Hc).
        destruct (IH (get who k' now c)) as (Iv & Iw & Ic);
          [rewrite He; exact Hv | exact Hp |].
        rewrite Iv, Iw, Ic, He, Hc. auto.
    + apply andb_true_iff in Hp as (Hk & Hp).
      apply negb_true_iff in Hk. apply String.eqb_neq in Hk.
      destruct (fetch_done_other k k' result now c Hk) as (He & Hc).
      destruct (IH (fetch_done k' result now c)) as (Iv & Iw & Ic);
        [rewrite He; exact Hv | exact Hp |].
      rewrite Iv, Iw, Ic, He, Hc. auto.
    + destruct (invalidate_entry k k' c Hv) as (Hv' & Hw' & Hc').
      destruct (IH (invalidate k' c)) as (Iv & Iw & Ic);
        [exact Hv' | exact Hp |].
      rewrite Iv, Iw, Ic, Hw', Hc'. auto.
Qed.

(** C2. With nothing cached and no fetch in flight for [k], let any number
    of calls of [get(k)] arrive, among events about other keys, before the
    fetch completes: the remote fetch function is invoked once for [k],
    and when the fetch completes with a configuration every one of the
    callers gets that configuration. A call that finds a fetch in flight
    joins it and starts none. *)
Theorem single_flight c k evs cfg now :
  value (entry c k) = None ->
  inFlightFetch (entry c k) = None ->
  fetch_pending k evs = true ->
  let c1 := run evs c in
  let c2 := fetch_done k (Loaded cfg) now c1 in
  fetch_count c2 k
  = fetch_count c k + (match callers_of k evs with [] => 0 | _ => 1 end)
  /\ (forall who, In who (callers_of k evs) ->
        In (who, k, Loaded cfg) (delivered c2))
  /\ inFlightFetch (entry c2 k) = None
  /\ (forall c' who t waiting,
        value (entry c' k) = None ->
        inFlightFetch (entry c' k) = Some waiting ->
        fetch_count (get who k t c') k = fetch_count c' k
        /\ inFlightFetch (entry (get who k t c') k) = Some (waiting ++ [who])).
Proof.
  intros Hv Hw Hp. cbv zeta.
  destruct (run_waiting k evs c Hv Hp) as (Rv & Rw & Rc).
  rewrite Hw in Rw, Rc.
  unfold fetch_done. rewrite Rw.
  destruct (callers_of k evs) as [|who0 callers] eqn:Hcallers; simpl.
  - split; [rewrite Rc; reflexivity |].
    split; [intros who [] |].
    split; [exact Rw |].
    intros c' who t waiting Hv' Hw'.
    destruct (get_join who k t c' waiting Hv' Hw') as (_ & Gw & Gc). auto.
  - split; [unfold fetch_count in *; simpl; rewrite Rc; reflexivity |].
    split.
    { intros who Hin. apply List.in_or_app. right.
      exact (List.in_map (fun w => (w, k, Loaded cfg)) (who0 :: callers)
               who Hin). }
    split; [rewrite entry_insert; reflexivity |].
    intros c' who t waiting Hv' Hw'.
    destruct (get_join who k t c' waiting Hv' Hw') as (_ & Gw & Gc). auto.
Qed.

(** Three calls for the same bot while its configuration is fetched. *)
Lemma single_flight_witness :
  let c2 :=
    fetch_done "bot" (Loaded 7) 3
      (run [Get 1 "bot" 0; Get 2 "bot" 1; Get 3 "bot" 2]
         (empty_cache (-5000))) in
  fetch_count c2 "bot" = 1
  /\ delivered c2
     = [(1, "bot", Loaded 7); (2, "bot", Loaded 7); (3, "bot", Loaded 7)].
Proof.
  cbv zeta.
  destruct (single_flight (empty_cache (-5000)) "bot"
              [Get 1 "bot" 0; Get 2 "bot" 1; Get 3 "bot" 2] 7 3
              eq_refl eq_refl eq_refl) as (Hcount & _).
  split; [exact Hcount | reflexivity].
Defined.

End SingleFlight.

(** ** The definitions on small inputs *)

Module Examples.
Import Js Request Resolvers Samples RuntimeSamples.

Example truthy_values :
  List.map truthy
    [ JUndefined; JNull; JBool false; JNum 0; JNum (-0); JNum PrimFloat.nan;
      JStr ""; JStr "0"; JNum 0.5; JArr []; JObj [] ]
  = [ false; false; false; false; false; false;
      false; true; true; true; true ].
Proof. reflexivity. Qed.

Example floor_values :
  List.map float_floor [0; 0.5; 1; 1.5; 7.75; -0.5; PrimFloat.nan]%float
  = [Some 0; Some 0; Some 1; Some 1; Some 7; Some (-1); None]%Z.
Proof. reflexivity. Qed.

Example base64_strings :
  List.map BASE64_REGEX
    [ ""; "eyJh"; "eyJhIjoxfQ=="; "YWJjZA="; "YWJjZGU="; "abc"; "ab=c";
      "{a:1}" ]
  = [ true; true; true; false; true; false; false; false ].
Proof. reflexivity. Qed.

Example language_text_found :
  getLanguageText two_languages (JStr "cz") = Ok (JStr "Ahoj").
Proof. reflexivity. Qed.

Example language_text_variants :
  getLanguageText two_languages (JStr "en")
  = Ok (JArr [JStr "Hello"; JStr "Hi"]).
Proof. reflexivity. Qed.

Example language_text_fallback :
  getLanguageText two_languages (JStr "de")
  = Ok (JArr [JStr "Hello"; JStr "Hi"])
  /\ getLanguageText two_languages JUndefined
     = Ok (JArr [JStr "Hello"; JStr "Hi"]).
Proof. split; reflexivity. Qed.

Example language_text_plain :
  getLanguageText (JStr "Hello") (JStr "en") = Ok (JStr "Hello")
  /\ getLanguageText JUndefined (JStr "en") = Ok (JStr "")
  /\ getLanguageText (JArr [JStr ""; JStr ""]) JNull = Ok (JStr "").
Proof. repeat split; reflexivity. Qed.

(** [Request.action] on the sample events. *)
Example action_of_postback_with_referral :
  Request.action sample_parse sample_quickReplyAction sample_tokenize
    sample_base64
    (request_of
       (JObj [ ("sender", JObj [("id", JStr "user")]);
               ("postback",
                JObj [ ("payload", JStr "from-postback");
                       ("referral", JObj [("ref", JStr "from-referral")]) ])
             ])
       (JObj []))
    false
  = Ok (JStr "from-referral").
Proof. reflexivity. Qed.

Example action_of_expected :
  Request.action sample_parse sample_quickReplyAction sample_tokenize
    sample_base64
    (request_of
       (JObj [ ("sender", JObj [("id", JStr "user")]);
               ("message", JObj [("text", JStr "hello")]) ])
       (JObj [("_expected", JObj [("action", JStr "/start/again")])]))
    false
  = Ok (JStr "/start/again").
Proof. reflexivity. Qed.

End Examples.

(** ** [Request.timestamp] and the accessors of the request *)

Module RequestApiFacts.
Import Js JsFacts Request RequestApi.

Lemma timestamps_from nows : forall s last,
  (0 <= _t s)%Z -> _d s = (last + _t s)%Z ->
  never_back last nows ->
  increasing (_d s) (timestamps nows s).
Proof.
  induction nows as [|now rest IH]; intros s last Ht Hd Hnows; simpl.
  - exact I.
  - destruct Hnows as [Hle Hrest]. unfold timestamp.
    destruct (Z.ltb_spec (_d s) now) as [Hlt|Hge]; simpl.
    + split; [exact Hlt |].
      apply (IH (mkStamp 0 now) now); simpl; auto; lia.
    + split; [lia |].
      apply (IH (mkStamp (_t s + 1) (now + (_t s + 1))) now); simpl;
        auto; lia.
Qed.

(** While [Date.now()] never goes back, every call of [Request.timestamp]
    returns more than the call before it, also within one millisecond. *)
Theorem timestamps_increasing nows :
  never_back 0 nows ->
  increasing 0 (timestamps nows initial_stamp).
Proof.
  intros H. apply (timestamps_from nows initial_stamp 0); simpl; auto; lia.
Qed.

Lemma timestamps_increasing_witness :
  timestamps [5; 5; 5; 6; 9]%Z initial_stamp = [5; 6; 7; 9; 13]%Z
  /\ increasing 0 [5; 6; 7; 9; 13]%Z.
Proof.
  split; [reflexivity |].
  apply (timestamps_increasing [5; 5; 5; 6; 9]%Z). simpl. lia.
Defined.

(** Past the end of the attachments every accessor answers "none";
    inside, [attachment] is the element. *)
Theorem attachment_bounds this items i :
  attachments this = JArr items ->
  (isAttachment this = false <-> items = [])
  /\ (length items <= i ->
        attachment this i = JNull
        /\ attachmentUrl this i = Ok JNull
        /\ isImage this i = Ok false
        /\ isFile this i = Ok false)
  /\ (i < length items ->
        attachment this i = List.nth i items JUndefined).
Proof.
  intros Hitems.
  unfold isAttachment, attachment, attachmentUrl, isImage, isFile,
    _checkAttachmentType, attachment_items. rewrite Hitems.
  split; [| split].
  - destruct items as [|a rest]; split; intros H; try reflexivity;
      discriminate H.
  - intros Hle. apply Nat.leb_le in Hle. rewrite Hle. auto.
  - intros Hlt. apply Nat.leb_gt in Hlt. rewrite Hlt. reflexivity.
Qed.

Lemma attachment_bounds_witness :
  attachment RequestApiSamples.image_request 1 = JNull.
Proof.
  pose proof (attachment_bounds RequestApiSamples.image_request
                [JObj [("type", JStr "image")]] 1 eq_refl) as (_ & Hout & _).
  apply Hout. simpl. lia.
Defined.

Lemma find_location_some items :
  (some_location items = Ok false -> find_location items = Ok JUndefined)
  /\ (some_location items = Ok true ->
        exists loc,
          In loc items
          /\ get_prop loc "type" = Ok (JStr "location")
          /\ find_location items = Ok loc)
  /\ (forall e, some_location items = Throw e -> find_location items = Throw e).
Proof.
  induction items as [|a items (IHf & IHt & IHe)]; simpl.
  - split; [reflexivity |]. split; [discriminate |]. intros e; discriminate.
  - destruct (get_prop a "type") as [t|e0] eqn:Ht; simpl.
    + destruct (strict_eq t (JStr "location")) eqn:Hs.
      * split; [discriminate |]. split; [| intros e; discriminate].
        intros _. exists a. split; [left; reflexivity |].
        split; [| reflexivity].
        destruct t; simpl in Hs; try discriminate.
        apply String.eqb_eq in Hs. subst. exact Ht.
      * split; [exact IHf |]. split; [| exact IHe].
        intros H. destruct (IHt H) as (loc & Hin & Hty & Hfind).
        exists loc. auto.
    + split; [discriminate |]. split; [discriminate |].
      intros e H. inversion H. reflexivity.
Qed.

(** [getLocation] returns [null] when [hasLocation] is false; when it is
    true, [getLocation] reads [payload.coordinates] of an attachment of
    type ['location']; and it throws what [hasLocation] throws. *)
Theorem location_guard this items :
  attachments this = JArr items ->
  (hasLocation this = Ok false -> getLocation this = Ok JNull)
  /\ (hasLocation this = Ok true ->
        exists loc,
          In loc items
          /\ get_prop loc "type" = Ok (JStr "location")
          /\ getLocation this
             = (payload <- get_prop loc "payload" ;;
                get_prop payload "coordinates"))
  /\ (forall e, hasLocation this = Throw e -> getLocation this = Throw e).
Proof.
  intros Hitems. unfold hasLocation, getLocation, attachment_items.
  rewrite Hitems.
  destruct (find_location_some items) as (Hf & Ht & He).
  split; [| split].
  - intros H. rewrite (Hf H). reflexivity.
  - intros H. destruct (Ht H) as (loc & Hin & Hty & Hfind).
    exists loc. split; [exact Hin |]. split; [exact Hty |].
    rewrite Hfind. simpl.
    destruct loc; simpl in Hty; try discriminate; try (inversion Hty; fail).
    reflexivity.
  - intros e H. rewrite (He e H). reflexivity.
Qed.

(** A message is never both a pure text and a quick reply: when [isText]
    holds, [isQuickReply] is falsy and [text()] is the non-empty text of the
    message; when [isQuickReply] is truthy, [isText] is false. *)
Theorem text_or_quick_reply tokenize this :
  (isText this = Ok true ->
     isMessage this = true
     /\ (exists q, isQuickReply this = Ok q /\ truthy q = false)
     /\ (exists t, Request.text tokenize this false = Ok t
                   /\ truthy t = true
                   /\ get_prop (message this) "text" = Ok t))
  /\ (forall q, isQuickReply this = Ok q -> truthy q = true ->
        isText this = Ok false /\ isMessage this = true).
Proof.
  unfold isText, isQuickReply, isMessage, Request.text.
  destruct (is_null (message this)); simpl.
  - split; [discriminate |]. intros q H. inversion H; subst. discriminate.
  - destruct (get_prop (message this) "quick_reply") as [qr|e]; simpl.
    + destruct (truthy qr) eqn:Hqr.
      * split; [discriminate |]. intros q H Hq. auto.
      * split.
        -- destruct (get_prop (message this) "text") as [t|e]; simpl;
             [| discriminate].
           intros H. inversion H as [Ht]. split; [reflexivity |].
           split; [eauto |].
           exists t. unfold js_or. rewrite Ht. auto.
        -- intros q H Hq. inversion H; subst. congruence.
    + split; discriminate.
Qed.


Lemma location_guard_witness :
  getLocation RequestApiSamples.location_request
  = Ok (JObj [("lat", JNum 50); ("long", JNum 14)]).
Proof.
  pose proof (location_guard RequestApiSamples.location_request _ eq_refl)
    as (_ & Hhas & _).
  destruct (Hhas eq_refl) as (loc & _ & _ & _).
  reflexivity.
Defined.

Lemma text_or_quick_reply_witness :
  exists t, Request.text Samples.sample_tokenize
              RequestApiSamples.text_request false = Ok t
            /\ truthy t = true.
Proof.
  destruct (proj1 (text_or_quick_reply Samples.sample_tokenize
                     RequestApiSamples.text_request) eq_refl)
    as (_ & _ & t & Ht & Htt & _).
  exists t. split; assumption.
Defined.

Lemma mod4_step n : (S (S (S (S n)))) mod 4 = n mod 4.
Proof.
  change (S (S (S (S n)))) with (4 + n). rewrite Nat.add_comm.
  change 4 with (1 * 4) at 1. apply Nat.Div0.mod_add.
Qed.

Lemma base64_char_not_pad c : is_base64_char c = true -> is_pad c = false.
Proof.
  unfold is_base64_char, is_pad. intros H.
  destruct (Nat.eqb_spec (nat_of_ascii c) 61) as [E|]; [| reflexivity].
  rewrite E in H. discriminate H.
Qed.

Lemma length_append (s1 s2 : string) :
  String.length (s1 ++ s2) = String.length s1 + String.length s2.
Proof.
  induction s1 as [|a s1 IH]; [reflexivity |].
  change (S (String.length (s1 ++ s2))
          = S (String.length s1 + String.length s2)).
  rewrite IH. reflexivity.
Qed.

Lemma pad_char : is_base64_char "=" = false.
Proof. reflexivity. Qed.

Lemma regex_shaped n : forall s,
  String.length s <= n -> BASE64_REGEX s = true -> base64_shaped s.
Proof.
  induction n as [|n IH]; intros s Hlen Hs.
  - destruct s; [| simpl in Hlen; lia].
    exists "", "". repeat split. left. split; reflexivity.
  - destruct s as [|a [|b [|c [|d rest]]]]; simpl in Hs; try discriminate.
    + exists "", "". repeat split. left. split; reflexivity.
    + destruct (is_base64_char a) eqn:Ha, (is_base64_char b) eqn:Hb;
        simpl in Hs;
        try (destruct rest; discriminate).
      destruct (is_base64_char c) eqn:Hc; simpl in Hs.
      * destruct (is_base64_char d) eqn:Hd; simpl in Hs.
        -- destruct (IH rest) as (body & tail & Heq & Hall & Hshape).
           ++ simpl in Hlen. lia.
           ++ exact Hs.
           ++ exists (String a (String b (String c (String d body)))), tail.
              split; [simpl; rewrite Heq; reflexivity |].
              split; [simpl; rewrite Ha, Hb, Hc, Hd, Hall; reflexivity |].
              cbn [String.length]. rewrite mod4_step. exact Hshape.
        -- destruct rest; [| discriminate].
           rewrite (base64_char_not_pad c Hc) in Hs. simpl in Hs.
           exists (String a (String b (String c ""))), "=".
           split.
           ++ simpl. f_equal. f_equal. f_equal.
              unfold is_pad in Hs. apply Nat.eqb_eq in Hs.
              rewrite <- (ascii_nat_embedding d), Hs. reflexivity.
           ++ split; [simpl; rewrite Ha, Hb, Hc; reflexivity |].
              right. right. split; reflexivity.
      * destruct rest; [| discriminate].
        rewrite orb_false_r in Hs.
        apply andb_prop in Hs as [Hpc Hpd].
        exists (String a (String b "")), "==".
        split.
        -- simpl. f_equal. f_equal.
           unfold is_pad in Hpc, Hpd.
           apply Nat.eqb_eq in Hpc. apply Nat.eqb_eq in Hpd.
           rewrite <- (ascii_nat_embedding c), <- (ascii_nat_embedding d).
           rewrite Hpc, Hpd. reflexivity.
        -- split; [simpl; rewrite Ha, Hb; reflexivity |].
           right. left. split; reflexivity.
Qed.

Lemma shaped_regex n : forall body tail,
  String.length body <= n ->
  all_base64 body = true ->
  (String.length body mod 4 = 0 /\ tail = "")
  \/ (String.length body mod 4 = 2 /\ tail = "==")
  \/ (String.length body mod 4 = 3 /\ tail = "=") ->
  BASE64_REGEX (body ++ tail)%string = true.
Proof.
  induction n as [|n IH]; intros body tail Hlen Hall Hshape.
  - destruct body; [| simpl in Hlen; lia].
    destruct Hshape as [[_ ->] | [[H _] | [H _]]];
      [reflexivity | discriminate H | discriminate H].
  - destruct body as [|a [|b [|c [|d rest]]]].
    + destruct Hshape as [[_ ->] | [[H _] | [H _]]];
        [reflexivity | discriminate H | discriminate H].
    + destruct Hshape as [[H _] | [[H _] | [H _]]]; discriminate H.
    + destruct Hshape as [[H _] | [[_ ->] | [H _]]];
        [discriminate H | | discriminate H].
      simpl in Hall. rewrite andb_true_r in Hall.
      apply andb_prop in Hall as [Ha Hb].
      change (BASE64_REGEX (String a (String b "==")) = true).
      cbn [BASE64_REGEX]. rewrite Ha, Hb, pad_char.
      reflexivity.
    + destruct Hshape as [[H _] | [[H _] | [_ ->]]];
        [discriminate H | discriminate H |].
      simpl in Hall. rewrite andb_true_r in Hall.
      apply andb_prop in Hall as [Ha Hall].
      apply andb_prop in Hall as [Hb Hc].
      change (BASE64_REGEX (String a (String b (String c "="))) = true).
      cbn [BASE64_REGEX]. rewrite Ha, Hb, Hc, pad_char.
      change (is_pad "=") with true. cbn [andb]. apply orb_true_r.
    + simpl in Hall.
      apply andb_prop in Hall as [Ha Hall].
      apply andb_prop in Hall as [Hb Hall].
      apply andb_prop in Hall as [Hc Hall].
      apply andb_prop in Hall as [Hd Hall].
      cbn [String.length] in Hshape. rewrite mod4_step in Hshape.
      change (BASE64_REGEX
                (String a (String b (String c (String d (rest ++ tail)))))
              = true).
      cbn [BASE64_REGEX]. rewrite Ha, Hb, Hc, Hd.
      cbn [andb]. apply IH; auto. simpl in Hlen. lia.
Qed.

(** [BASE64_REGEX] accepts exactly the strings made of groups of four
    characters of the base64 alphabet, closed by nothing, by two characters
    and [==], or by three characters and [=]; so every accepted string has a
    length that is a multiple of four. *)
Theorem base64_regex_language s :
  (BASE64_REGEX s = true <-> base64_shaped s)
  /\ (BASE64_REGEX s = true -> String.length s mod 4 = 0).
Proof.
  assert (Hto : BASE64_REGEX s = true -> base64_shaped s)
    by (apply (regex_shaped (String.length s)); lia).
  split; [split |].
  - exact Hto.
  - intros (body & tail & -> & Hall & Hshape).
    apply (shaped_regex (String.length body)); auto.
  - intros H. destruct (Hto H) as (body & tail & -> & _ & Hshape).
    rewrite length_append.
    destruct Hshape as [[Hm ->] | [[Hm ->] | [Hm ->]]];
      rewrite <- Nat.Div0.add_mod_idemp_l, Hm; reflexivity.
Qed.

Lemma base64_regex_language_witness :
  BASE64_REGEX "eyJhIjoxfQ==" = true
  /\ String.length "eyJhIjoxfQ==" mod 4 = 0.
Proof.
  split; [reflexivity |].
  apply (proj2 (base64_regex_language "eyJhIjoxfQ==")). reflexivity.
Defined.

Section WithHelpers.

Variable parseActionPayload : JsVal -> Exc ParsedPayload.
Variable quickReplyAction : JsVal -> JsVal -> JsVal -> Exc JsVal.
Variable tokenize : JsVal -> Exc JsVal.
Variable base64_to_utf8 : string -> string.
Variable JSON_stringify : JsVal -> JsVal.
Variable to_base64 : JsVal -> JsVal.

Local Abbreviation action :=
  (action parseActionPayload quickReplyAction tokenize base64_to_utf8).
Local Abbreviation sources :=
  (sources parseActionPayload quickReplyAction tokenize base64_to_utf8).

Lemma sources_split this g :
  sources this g
  = List.firstn 5 (sources this g) ++ List.skipn 5 (sources this g).
Proof. symmetry. apply List.firstn_skipn. Qed.

(** The five signals of the event (referral, postback, optin, quick reply,
    pass-thread) never read the conversation state: once one of them
    resolves an action, [action] returns it whatever the state holds. *)
Theorem event_action_ignores_state this getData pre s post v state' :
  List.firstn 5 (sources this getData) = pre ++ s :: post ->
  Forall yields_nothing pre ->
  s = Ok v -> truthy v = true ->
  action (with_state this state') getData = Ok v.
Proof.
  intros Hsrc Hpre Hs Hv.
  apply (RequestAction.first_source_wins parseActionPayload quickReplyAction
           tokenize base64_to_utf8 (with_state this state') getData pre s
           (post ++ List.skipn 5 (sources (with_state this state') getData)));
    auto.
  rewrite (sources_split (with_state this state') getData) at 1.
  change (List.firstn 5 (sources (with_state this state') getData))
    with (List.firstn 5 (sources this getData)).
  rewrite Hsrc, <- List.app_assoc. reflexivity.
Qed.

(** The event [Request.location] builds is read back by the accessors: it
    is a message with an attachment, not a text, it has a location, and
    [getLocation] returns the coordinates given. *)
Theorem location_round_trip senderId lat long ts st page now :
  exists r,
    Request.new (location_event senderId lat long ts) st page now = Ok r
    /\ isMessage r = true
    /\ isAttachment r = true
    /\ isText r = Ok false
    /\ hasLocation r = Ok true
    /\ getLocation r = Ok (JObj [("lat", lat); ("long", long)]).
Proof. eexists. repeat split. Qed.

(** The event [Request.fileAttachment] builds has one attachment: its URL
    is the one given, it is a file when no type or ['file'] is given and an
    image when ['image'] is, and there is no second attachment. *)
Theorem file_attachment_round_trip senderId url type ts st page now :
  exists r,
    Request.new (fileAttachment_event senderId url type ts) st page now = Ok r
    /\ isAttachment r = true
    /\ attachmentUrl r 0 = Ok url
    /\ isFile r 0
       = Ok (strict_eq
               (match type with JUndefined => JStr "file" | t => t end)
               (JStr "file"))
    /\ isImage r 0 = Ok (strict_eq type (JStr "image"))
    /\ hasLocation r = Ok (strict_eq type (JStr "location"))
    /\ attachment r 1 = JNull
    /\ attachmentUrl r 1 = Ok JNull.
Proof.
  eexists. split; [reflexivity |].
  repeat split; destruct type as [| | | |s| | | |]; try reflexivity.
  unfold hasLocation. simpl.
  destruct (String.eqb s "location"); reflexivity.
Qed.


(** The event [Request.passThread] builds without data resolves to the
    action ['pass-thread'], whatever the state and the helpers are. *)
Theorem pass_thread_event_action senderId newAppId data ts st page now :
  data = JUndefined \/ data = JNull ->
  exists r,
    Request.new (passThread_event JSON_stringify senderId newAppId data ts)
      st page now = Ok r
    /\ isPassThread r
       = Ok (JObj [("new_owner_app_id", newAppId); ("metadata", JNull)])
    /\ kinds r = (false, false, false, false)
    /\ action r false = Ok (JStr "pass-thread").
Proof.
  intros [-> | ->]; eexists; repeat split.
Qed.

(** Every factory builds an event of one kind: a text, a quick reply, a
    location and an attachment are messages only; a postback is a postback,
    and a referral too exactly when a referral action is given; a referral
    and an optin are nothing else; and the optin event has no sender. *)
Theorem factory_kinds senderId a d ts refAction refData st page now :
  (exists r, Request.new (text_event senderId a ts) st page now = Ok r
             /\ kinds r = (true, false, false, false))
  /\ (exists r,
        Request.new (quickReply_event JSON_stringify senderId a d ts)
          st page now = Ok r
        /\ kinds r = (true, false, false, false)
        /\ isText r = Ok false
        /\ (exists q, isQuickReply r = Ok q /\ truthy q = true))
  /\ (exists r, Request.new (location_event senderId a d ts) st page now = Ok r
                /\ kinds r = (true, false, false, false))
  /\ (exists r,
        Request.new (fileAttachment_event senderId a d ts) st page now = Ok r
        /\ kinds r = (true, false, false, false))
  /\ (exists r,
        Request.new
          (postBack_event JSON_stringify senderId a d refAction refData ts)
          st page now = Ok r
        /\ kinds r = (false, true, truthy refAction, false))
  /\ (exists r,
        Request.new (referral_event JSON_stringify senderId a d ts)
          st page now = Ok r
        /\ kinds r = (false, false, true, false))
  /\ (exists r,
        Request.new (optin_event JSON_stringify to_base64 senderId a d ts)
          st page now = Ok r
        /\ kinds r = (false, false, false, true)
        /\ Request.senderId r = JNull).
Proof.
  repeat split; try (eexists; repeat split; fail).
  - eexists. repeat split. eexists. split; reflexivity.
  - eexists. split; [reflexivity |].
    destruct refAction as [| |b|x|s| | | |]; try reflexivity;
      unfold kinds, isReferral, postBack_event; simpl.
    + destruct b; reflexivity.
    + destruct (PrimFloat.eqb x x && negb (PrimFloat.eqb x 0))%bool;
        reflexivity.
    + destruct (String.eqb s ""); reflexivity.
Qed.

(** A text event is read back as given, and its action comes from the
    state alone: the text is [text()], it is a pure text exactly when it
    is not empty, and with no expectation in the state the action is the
    default. *)
Theorem text_event_round_trip senderId t ts st page now getData k e :
  get_prop st "_expectedKeywords" = Ok k -> truthy k = false ->
  get_prop st "_expected" = Ok e -> truthy e = false ->
  exists r,
    Request.new (text_event senderId t ts) st page now = Ok r
    /\ isText r = Ok (truthy t)
    /\ Request.text tokenize r false = Ok (js_or t (JStr ""))
    /\ quickReply parseActionPayload r getData = Ok JNull
    /\ action r getData = Ok (if getData then JObj [] else JNull).
Proof.
  intros Hk Hfk He Hfe. eexists. split; [reflexivity |].
  repeat split.
  unfold Request.action, action_referral, action_postback, action_optin,
    action_quick_reply, action_pass_thread, action_keywords, action_expected.
  cbn. rewrite Hk. cbn. rewrite Hfk. cbn. rewrite He. cbn. rewrite Hfe.
  destruct getData; reflexivity.
Qed.

End WithHelpers.

Lemma event_action_ignores_state_witness :
  Request.action Samples.sample_parse Samples.sample_quickReplyAction
    Samples.sample_tokenize Samples.sample_base64
    (with_state
       (Samples.request_of Samples.postback_and_quick_reply (JObj []))
       (JObj [("_expected", JStr "from-state")]))
    false
  = Ok (JStr "from-postback").
Proof.
  apply (event_action_ignores_state Samples.sample_parse
           Samples.sample_quickReplyAction Samples.sample_tokenize
           Samples.sample_base64
           (Samples.request_of Samples.postback_and_quick_reply (JObj []))
           false
           [Ok JNull] (Ok (JStr "from-postback"))
           [Ok JNull; Ok (JStr "from-quick-reply"); Ok JNull]
           (JStr "from-postback")).
  - reflexivity.
  - constructor; [exists JNull; split; reflexivity | constructor].
  - reflexivity.
  - reflexivity.
Defined.

Lemma pass_thread_event_action_witness :
  exists r,
    Request.new
      (passThread_event RequestApiSamples.sample_json (JStr "user")
         (JStr "app") JNull (JNum 1))
      (JObj []) (JStr "page") 1%float = Ok r
    /\ Request.action Samples.sample_parse Samples.sample_quickReplyAction
         Samples.sample_tokenize Samples.sample_base64 r false
       = Ok (JStr "pass-thread").
Proof.
  destruct (pass_thread_event_action Samples.sample_parse
              Samples.sample_quickReplyAction Samples.sample_tokenize
              Samples.sample_base64 RequestApiSamples.sample_json
              (JStr "user") (JStr "app") JNull (JNum 1) (JObj [])
              (JStr "page") 1%float (or_intror eq_refl))
    as (r & Hnew & _ & _ & Hact).
  exists r. split; assumption.
Defined.

Lemma text_event_round_trip_witness :
  exists r,
    Request.new (text_event (JStr "user") (JStr "hello") (JNum 1))
      (JObj []) (JStr "page") 1%float = Ok r
    /\ isText r = Ok true
    /\ Request.action Samples.sample_parse Samples.sample_quickReplyAction
         Samples.sample_tokenize Samples.sample_base64 r false
       = Ok JNull.
Proof.
  destruct (text_event_round_trip Samples.sample_parse
              Samples.sample_quickReplyAction Samples.sample_tokenize
              Samples.sample_base64 (JStr "user") (JStr "hello") (JNum 1)
              (JObj []) (JStr "page") 1%float false JUndefined JUndefined
              eq_refl eq_refl eq_refl eq_refl)
    as (r & Hnew & Htext & _ & _ & Hact).
  exists r. repeat split; assumption.
Defined.

End RequestApiFacts.

(** ** Texts, buttons and the data of templates ([src/resolvers/utils.js]) *)

Module ResolverFacts.
Import Js JsFacts Resolvers ResolversApi.

Lemma filter_truthy items :
  Forall (fun t => truthy t = true) (List.filter truthy items).
Proof.
  apply List.Forall_forall. intros t Hin.
  apply List.filter_In in Hin. tauto.
Qed.

Lemma js_or_shape v :
  js_or v (JStr "") = JStr "" \/ truthy (js_or v (JStr "")) = true.
Proof.
  unfold js_or. destruct (truthy v) eqn:E; auto.
Qed.

Lemma getLanguageText_shape translations lang v :
  getLanguageText translations lang = Ok v ->
  (v = JStr "" \/ truthy v = true)
  /\ (forall items, v = JArr items ->
        items <> [] /\ Forall (fun t => truthy t = true) items).
Proof.
  unfold getLanguageText. intros H.
  apply bind_ok in H as (foundText & _ & H).
  destruct (isArray foundText) eqn:Harr.
  - destruct (Nat.eqb_spec
                (length (List.filter truthy (array_items foundText))) 0)
      as [E|E]; inversion H; subst; clear H.
    + split; [left; reflexivity |]. intros items Hv. discriminate Hv.
    + split; [right; reflexivity |].
      intros items Hv. unfold js_or in Hv. simpl in Hv.
      inversion Hv; subst. split.
      * intros Hnil. rewrite Hnil in E. apply E. reflexivity.
      * apply filter_truthy.
  - inversion H; subst; clear H. split; [apply js_or_shape |].
    intros items Hv. unfold js_or in Hv.
    destruct (truthy foundText); [| discriminate Hv].
    subst foundText. discriminate Harr.
Qed.

Section WithRuntime.

Variable apply_fn : fn_id -> list JsVal -> Exc JsVal.
Variable to_string : JsVal -> string.
Variable Math_random : nat -> float.
Variable hbs_compile : JsVal -> Exc JsVal.

Local Abbreviation getText :=
  (getText apply_fn to_string Math_random hbs_compile).
Local Abbreviation processButton :=
  (processButton apply_fn to_string Math_random hbs_compile).
Local Abbreviation processButtons :=
  (processButtons apply_fn to_string Math_random hbs_compile).
Local Abbreviation call_renderer :=
  (call_renderer apply_fn to_string Math_random hbs_compile).
Local Abbreviation randomizedCompiler := (randomizedCompiler hbs_compile).

(** [getLanguageText] never returns [null] or [undefined]: the result is
    [''] or a truthy value, and a list of variants is never empty and has
    no empty variant. So the renderer that draws at random always draws
    among at least two non-empty texts. *)
Theorem text_variants_shape translations lang :
  (forall v, getLanguageText translations lang = Ok v ->
     (v = JStr "" \/ truthy v = true)
     /\ (forall items, v = JArr items ->
           items <> [] /\ Forall (fun t => truthy t = true) items))
  /\ (forall texts,
        randomizedCompiler translations lang = Ok (Randomized texts) ->
        2 <= length texts /\ Forall (fun t => truthy t = true) texts).
Proof.
  split; [intros v; apply getLanguageText_shape |].
  intros texts H. unfold Resolvers.randomizedCompiler in H.
  apply bind_ok in H as (v & Hv & H).
  destruct (getLanguageText_shape translations lang v Hv) as (_ & Hitems).
  destruct v as [| | | | |items| | |]; simpl in H;
    try (destruct (hbs_compile _); discriminate H).
  destruct (Hitems items eq_refl) as (Hne & Hall).
  destruct (Nat.eqb_spec (length items) 1) as [E|E].
  - destruct (hbs_compile _); discriminate H.
  - inversion H; subst. split; [| exact Hall].
    destruct texts as [|a [|b rest]]; simpl in *; try lia; congruence.
Qed.


End WithRuntime.

Lemma existsb_filter items :
  List.existsb truthy items = true ->
  (length (List.filter truthy items) =? 0)%nat = false.
Proof.
  induction items as [|a items IH]; simpl; [discriminate |].
  destruct (truthy a); simpl; auto.
Qed.

(** Among translations, the entry of the language asked for is used when
    it has a text; when there is none, or its text is empty, the result is
    the one for no language at all: the first entry that has a text. *)
Theorem language_fallback items lang found :
  isArrayOfObjects (JArr items) = true ->
  find_lang items lang = Ok found ->
  (truthy lang = true -> isTextObjectEmpty found = false ->
     getLanguageText (JArr items) lang
     = Ok (match prop found "t" with
           | JArr variants => JArr (List.filter truthy variants)
           | t => t
           end))
  /\ (isTextObjectEmpty found = true ->
        getLanguageText (JArr items) lang
        = getLanguageText (JArr items) JNull).
Proof.
  intros Hobj Hfind. split.
  - intros Hlang Hfull. unfold getLanguageText.
    assert (Hl : match lang with JUndefined => JNull | l => l end = lang)
      by (destruct lang; try reflexivity; discriminate Hlang).
    rewrite Hl, Hobj, Hlang. cbn [array_items]. rewrite Hfind.
    cbn [bind]. rewrite Hfull.
    unfold isTextObjectEmpty in Hfull. unfold falsy in Hfull.
    destruct (truthy found) eqn:Hf; [| discriminate Hfull].
    destruct (truthy (prop found "t")) eqn:Ht; [| discriminate Hfull].
    cbn [negb orb] in Hfull.
    destruct (prop found "t") as [| | | | |variants| | |] eqn:Hp;
      cbn [isArray array_items] in *;
      try (unfold js_or; rewrite Ht; reflexivity).
    apply negb_false_iff in Hfull.
    rewrite (existsb_filter variants Hfull). reflexivity.
  - intros Hempty. unfold getLanguageText.
    rewrite Hobj. cbn [array_items truthy].
    destruct (truthy (match lang with JUndefined => JNull | l => l end))
      eqn:Hlang.
    + assert (Hl : match lang with JUndefined => JNull | l => l end = lang)
        by (destruct lang; try reflexivity; discriminate Hlang).
      rewrite Hl, Hfind. cbn [bind]. rewrite Hempty. reflexivity.
    + reflexivity.
Qed.

Lemma language_fallback_witness :
  getLanguageText RuntimeSamples.two_languages (JStr "de")
  = getLanguageText RuntimeSamples.two_languages JNull
  /\ getLanguageText RuntimeSamples.two_languages (JStr "en")
     = Ok (JArr [JStr "Hello"; JStr "Hi"]).
Proof.
  split.
  - apply (proj2 (language_fallback
                    (array_items RuntimeSamples.two_languages) (JStr "de")
                    JUndefined eq_refl eq_refl)).
    reflexivity.
  - apply (proj1 (language_fallback
                    (array_items RuntimeSamples.two_languages) (JStr "en")
                    (JObj [("l", JStr "en");
                           ("t", JArr [JStr "Hello"; JStr ""; JStr "Hi"])])
                    eq_refl eq_refl)); reflexivity.
Defined.

Section WithRuntime.

Variable apply_fn : fn_id -> list JsVal -> Exc JsVal.
Variable to_string : JsVal -> string.
Variable Math_random : nat -> float.
Variable hbs_compile : JsVal -> Exc JsVal.

Local Abbreviation getText :=
  (getText apply_fn to_string Math_random hbs_compile).
Local Abbreviation processButton :=
  (processButton apply_fn to_string Math_random hbs_compile).
Local Abbreviation processButtons :=
  (processButtons apply_fn to_string Math_random hbs_compile).
Local Abbreviation call_renderer :=
  (call_renderer apply_fn to_string Math_random hbs_compile).

Lemma emits_weaken {A} n m (c : M A) : n <= m -> emits n c -> emits m c.
Proof.
  intros Hle Hc w. destruct (Hc w) as (Hcache & Hdraws & calls & He & Hn & Hok).
  repeat split; auto. exists calls. repeat split; auto. lia.
Qed.

Lemma emits_ret {A} (a : A) : emits 0 (ret a : M A).
Proof.
  intros w. simpl. repeat split; auto. exists [].
  rewrite List.app_nil_r. auto.
Qed.

Lemma emits_lift {A} (c : Exc A) : emits 0 (lift c : M A).
Proof.
  intros w. simpl. repeat split; auto. exists [].
  rewrite List.app_nil_r. auto.
Qed.

Lemma emits_bind {A B} n m (c : M A) (k : A -> M B) :
  emits n c -> (forall a, emits m (k a)) -> emits (n + m) (mbind c k).
Proof.
  intros Hc Hk w. unfold mbind.
  destruct (Hc w) as (Hcache & Hdraws & calls & He & Hn & Hok).
  destruct (c w) as [[a|e] w1]; simpl in *.
  - destruct (Hk a w1) as (Hcache' & Hdraws' & calls' & He' & Hn' & Hok').
    split; [congruence |]. split; [lia |].
    exists (calls ++ calls'). rewrite He', He, List.app_assoc.
    split; [reflexivity |]. split.
    + rewrite List.length_app. lia.
    + apply List.Forall_app. auto.
  - split; [exact Hcache |]. split; [exact Hdraws |].
    exists calls. repeat split; auto. lia.
Qed.

Lemma emits_emit c : call_ok c -> emits 1 (emit c).
Proof.
  intros Hc w. simpl. repeat split; auto.
  exists [c]. repeat split; auto.
Qed.

Lemma emits_call_renderer renderer args w :
  cache (snd (call_renderer renderer args w)) = cache w
  /\ draws w <= draws (snd (call_renderer renderer args w))
  /\ elem (snd (call_renderer renderer args w)) = elem w.
Proof.
  unfold Resolvers.call_renderer. destruct renderer as [f|texts]; simpl.
  - auto.
  - destruct (negb _); simpl; [| auto].
    destruct (hbs_compile _); simpl; auto.
Qed.

Lemma emits_getText text state : emits 0 (getText text state).
Proof.
  intros w. unfold Resolvers.getText, mbind, lift.
  destruct (get_prop state "lang") as [lang|]; simpl.
  - destruct (randomizedCompiler hbs_compile text lang) as [renderer|];
      simpl.
    + pose proof (emits_call_renderer renderer [state] w) as (H1 & H2 & H3).
      destruct (call_renderer renderer [state] w) as [[r ren] w'].
      simpl in *. repeat split; auto.
      exists []. rewrite List.app_nil_r. auto.
    + repeat split; auto. exists []. rewrite List.app_nil_r. auto.
  - repeat split; auto. exists []. rewrite List.app_nil_r. auto.
Qed.

Lemma strict_eq_root a : strict_eq a (JStr "/") = false -> a <> JStr "/".
Proof. intros H ->. discriminate H. Qed.

Lemma emits_processButton state linksMap senderId linksTranslator button :
  emits 1 (processButton state linksMap senderId linksTranslator button).
Proof.
  unfold Resolvers.processButton.
  repeat (apply (emits_bind 0 1);
          [first [apply emits_lift | apply emits_getText] | intros ?]).
  destruct (strict_eq _ (JStr TYPE_URL) || strict_eq _ (JStr TYPE_URL_WITH_EXT)).
  - repeat (apply (emits_bind 0 1);
            [first [apply emits_lift | apply emits_getText] | intros ?]).
    apply emits_emit. exact I.
  - destruct (strict_eq _ (JStr TYPE_POSTBACK)).
    + destruct (strict_eq _ (JStr "/")) eqn:Hroot.
      * apply emits_emit. split; [reflexivity | discriminate].
      * destruct (falsy _) eqn:Hfalsy.
        -- apply (emits_weaken 0 1); [lia | apply emits_ret].
        -- apply emits_emit. split.
           ++ unfold falsy in Hfalsy. apply negb_false_iff in Hfalsy.
              exact Hfalsy.
           ++ apply strict_eq_root. exact Hroot.
    + destruct (strict_eq _ (JStr TYPE_SHARE)).
      * apply emits_emit. exact I.
      * apply (emits_weaken 0 1); [lia | apply emits_ret].
Qed.

(** [processButtons] only adds to the template: what was handed over
    stays, and no more calls are added than there are buttons; a postback
    button always has an action, never the root ['/']; and the cache of
    texts is left alone. This holds also when a button throws, for what was
    handed over before. *)
Theorem processButtons_emits buttons state linksMap senderId
    linksTranslator w :
  let w' :=
    snd (processButtons buttons state linksMap senderId linksTranslator w) in
  cache w' = cache w
  /\ draws w <= draws w'
  /\ exists calls,
       elem w' = elem w ++ calls
       /\ length calls <= length buttons
       /\ Forall call_ok calls.
Proof.
  cbv zeta. revert w.
  change (emits (length buttons)
            (processButtons buttons state linksMap senderId linksTranslator)).
  induction buttons as [|button rest IH]; simpl.
  - apply emits_ret.
  - apply (emits_bind 1 (length rest)).
    + apply emits_processButton.
    + intros _. exact IH.
Qed.

End WithRuntime.


Lemma text_variants_shape_witness :
  exists texts,
    Resolvers.randomizedCompiler RuntimeSamples.sample_hbs
      RuntimeSamples.two_languages (JStr "en") = Ok (Randomized texts)
    /\ 2 <= length texts.
Proof.
  exists [JStr "Hello"; JStr "Hi"]. split; [reflexivity |].
  apply (proj2 (text_variants_shape RuntimeSamples.sample_hbs
                  RuntimeSamples.two_languages (JStr "en"))
           [JStr "Hello"; JStr "Hi"] eq_refl).
Defined.

Section WithUtils.

Variable parseActionPayload : JsVal -> Exc Request.ParsedPayload.
Variable quickReplyAction : JsVal -> JsVal -> JsVal -> Exc JsVal.
Variable tokenize : JsVal -> Exc JsVal.
Variable base64_to_utf8 : string -> string.

Local Abbreviation action :=
  (Request.action parseActionPayload quickReplyAction tokenize
     base64_to_utf8).
Local Abbreviation stateData :=
  (stateData parseActionPayload quickReplyAction tokenize base64_to_utf8).

(** The data of a template: [_action] is always the one of the request,
    whatever the state, the new state and the data hold under that name;
    every other attribute comes from the responder's data, else from the
    new state, else from the state of the request. When [req.action(true)]
    throws, so does [stateData]. *)
Theorem stateData_precedence req res :
  let data :=
    default ∅ (Responder.heap res !! Responder._data (Responder.self res)) in
  let newState :=
    default ∅
      (Responder.heap res !! Responder.newState (Responder.self res)) in
  (forall e, action req true = Throw e -> stateData req res = Throw e)
  /\ (forall a, action req true = Ok a ->
        exists o,
          stateData req res = Ok o
          /\ o !! "_action" = Some a
          /\ forall k, k <> "_action" ->
               o !! k
               = match data !! k with
                 | Some v => Some v
                 | None =>
                     match newState !! k with
                     | Some v => Some v
                     | None => object_of (Request.state req) !! k
                     end
                 end).
Proof.
  cbv zeta. unfold ResolversApi.stateData. split.
  - intros e ->. reflexivity.
  - intros a ->. cbn [bind]. eexists. split; [reflexivity |].
    unfold Responder.assign. split.
    + rewrite lookup_union_l'; [apply lookup_singleton_eq |].
      rewrite lookup_singleton_eq. eauto.
    + intros k Hk.
      rewrite lookup_union_r by (apply lookup_singleton_ne; congruence).
      rewrite !lookup_union, lookup_empty.
      destruct (default ∅ _ !! k), (default ∅ _ !! k),
        (object_of (Request.state req) !! k); reflexivity.
Qed.

End WithUtils.

Lemma stateData_precedence_witness :
  exists o,
    ResolversApi.stateData Samples.sample_parse
      Samples.sample_quickReplyAction Samples.sample_tokenize
      Samples.sample_base64 ResolversApiSamples.named_request
      ResolversApiSamples.named_responder = Ok o
    /\ o !! "_action" = Some (JObj [])
    /\ o !! "name" = Some (JStr "Bob").
Proof.
  destruct (proj2 (stateData_precedence Samples.sample_parse
                     Samples.sample_quickReplyAction Samples.sample_tokenize
                     Samples.sample_base64 ResolversApiSamples.named_request
                     ResolversApiSamples.named_responder)
              (JObj []) eq_refl)
    as (o & Ho & Haction & Hrest).
  exists o. split; [exact Ho |]. split; [exact Haction |].
  rewrite (Hrest "name") by discriminate.
  vm_compute. reflexivity.
Defined.

End ResolverFacts.

(** ** The code resolver: what is accepted and what the resolver answers *)

Module CodeResolverFacts.
Import Js JsFacts Resolvers.

Section WithRuntime.

Variable js_eval : string -> Exc JsVal.
Variable apply_fn : fn_id -> list JsVal -> Exc JsVal.
Variable settle : promise_id -> Async JsVal.
Variable settle_thenable : JsVal -> Async JsVal.
Variable to_string : JsVal -> string.

Local Abbreviation customFn := (customFn js_eval to_string).
Local Abbreviation inlineCode :=
  (inlineCode js_eval apply_fn settle settle_thenable to_string).
Local Abbreviation js_call := (js_call apply_fn to_string).
Local Abbreviation await := (await settle settle_thenable).

Lemma customFn_ok code description f :
  customFn code description = Ok f <->
  exists source,
    code = JStr source /\ js_eval source = Ok f /\ typeof f = "function".
Proof.
  unfold Resolvers.customFn. split.
  - intros H.
    destruct code as [| | | |source| | | |]; simpl in H; try discriminate H.
    exists source. split; [reflexivity |].
    destruct (js_eval source) as [resolver|e]; simpl in H.
    + destruct (String.eqb_spec (typeof resolver) "function") as [E|E];
        simpl in H; [| discriminate H].
      inversion H; subst. auto.
    + destruct (error_message e); discriminate H.
  - intros (source & -> & He & Hty). simpl. rewrite He. simpl.
    rewrite Hty. reflexivity.
Qed.

(** [customFn] accepts exactly the strings that evaluate to a function,
    and returns that function: whatever it returns can be called. *)
Theorem customFn_accepts code description f :
  (customFn code description = Ok f <->
   exists source,
     code = JStr source /\ js_eval source = Ok f /\ typeof f = "function")
  /\ (customFn code description = Ok f ->
        exists id, f = JFun id
                   /\ forall args, js_call f args = apply_fn id args).
Proof.
  split; [apply customFn_ok |].
  intros H. apply customFn_ok in H as (source & _ & _ & Hty).
  destruct f; try discriminate Hty. eexists. split; reflexivity.
Qed.

Lemma answer_defined (isLastIndex v : JsVal) :
  awaitable v = false ->
  (if negb (String.eqb (typeof v) "undefined") then await v
   else Resolved (if truthy isLastIndex then JNull else JBool true))
  <> Resolved JUndefined.
Proof.
  intros Hplain.
  rewrite (CodeResolver.await_plain settle settle_thenable v Hplain).
  destruct v; simpl; try discriminate.
  destruct (truthy isLastIndex); discriminate.
Qed.


End WithRuntime.


Lemma customFn_accepts_witness :
  exists id,
    Resolvers.customFn RuntimeSamples.sample_eval
      RuntimeSamples.sample_to_string (JStr "() => 'next'") (JStr "sample")
    = Ok (JFun id).
Proof.
  destruct (proj2 (customFn_accepts RuntimeSamples.sample_eval
                     RuntimeSamples.sample_apply
                     RuntimeSamples.sample_to_string (JStr "() => 'next'")
                     (JStr "sample") (JFun 3))
              eq_refl) as (id & Hid & _).
  exists id. rewrite <- Hid. reflexivity.
Defined.

End CodeResolverFacts.

(** ** The messages of the responder ([src/Responder.js]) *)

Module ResponderFacts.
Import Js JsFacts Responder ResponderApi.

Lemma lookup_set_prop_eq props k v :
  lookup_prop (set_prop props k v) k = v.
Proof.
  induction props as [|[k' v'] props IH]; simpl.
  - rewrite String.eqb_refl. reflexivity.
  - destruct (String.eqb k' k) eqn:E; simpl; rewrite E; auto.
Qed.

Lemma lookup_set_prop_ne props k k' v :
  k <> k' -> lookup_prop (set_prop props k v) k' = lookup_prop props k'.
Proof.
  intros Hne. induction props as [|[k0 v0] props IH]; simpl.
  - destruct (String.eqb_spec k k'); [contradiction | reflexivity].
  - destruct (String.eqb_spec k0 k) as [->|E]; simpl.
    + destruct (String.eqb_spec k k'); [contradiction | reflexivity].
    + destruct (String.eqb k0 k'); auto.
Qed.

Lemma lookup_props_of data k : lookup_prop (props_of data) k = prop data k.
Proof. destruct data; reflexivity. Qed.

Lemma nothing_sent st (P : JsVal -> Prop) :
  exists new, sent st = sent st ++ new /\ Forall P new.
Proof. exists []. rewrite List.app_nil_r. auto. Qed.

Create HintDb stamps.

Lemma stamps_ret {A} (a : A) : sends_stamped (ret a : StM St A).
Proof. intros st. simpl. auto using nothing_sent. Qed.

Lemma stamps_throw {A} e : sends_stamped (@throw St A e).
Proof. intros st. simpl. auto using nothing_sent. Qed.

Lemma stamps_lift {A} (c : Exc A) : sends_stamped (lift c : StM St A).
Proof. intros st. simpl. auto using nothing_sent. Qed.

Lemma stamps_get_self : sends_stamped get_self.
Proof. intros st. simpl. auto using nothing_sent. Qed.

Lemma stamps_read_obj l : sends_stamped (read_obj l).
Proof. intros st. simpl. auto using nothing_sent. Qed.

Lemma stamps_assign_obj l source : sends_stamped (assign_obj l source).
Proof. intros st. simpl. auto using nothing_sent. Qed.

Lemma stamps_update_self f :
  (forall r, _messagingType (f r) = _messagingType r /\ _tag (f r) = _tag r) ->
  sends_stamped (update_self f).
Proof.
  intros Hf st. simpl. destruct (Hf (self st)) as (-> & ->).
  auto using nothing_sent.
Qed.

Lemma stamps_bind {A B} (c : StM St A) (k : A -> StM St B) :
  sends_stamped c -> (forall a, sends_stamped (k a)) ->
  sends_stamped (mbind c k).
Proof.
  intros Hc Hk st. unfold mbind.
  destruct (Hc st) as (Hty & Htag & new & Hs & Hnew).
  destruct (c st) as [[a|e] st1]; simpl in *.
  - destruct (Hk a st1) as (Hty' & Htag' & new' & Hs' & Hnew').
    split; [congruence |]. split; [congruence |].
    exists (new ++ new'). rewrite Hs', Hs, List.app_assoc.
    split; [reflexivity |]. apply List.Forall_app. split; [exact Hnew |].
    rewrite <- Hty, <- Htag. exact Hnew'.
  - split; [exact Hty |]. split; [exact Htag |]. exists new. auto.
Qed.

#[local] Hint Resolve stamps_ret stamps_throw stamps_lift stamps_get_self
  stamps_read_obj stamps_assign_obj : stamps.

(** [_send] stamps the message with the messaging type and, when there is
    one, the tag, and leaves its other attributes as they are. *)
Lemma send_stamps data st :
  falsy (prop data "messagingType") = true ->
  falsy (prop data "tag") = true ->
  exists m,
    _send data st = (Ok tt, mkSt (self st) (heap st) (sent st ++ [m]))
    /\ stamped (_messagingType (self st)) (_tag (self st)) m
    /\ forall k, k <> "messaging_type" -> k <> "tag" ->
         prop m k = prop data k.
Proof.
  intros Hm Ht. unfold _send, mbind, get_self, sender_send. simpl.
  rewrite Hm. simpl. rewrite lookup_set_prop_ne by discriminate.
  rewrite lookup_props_of, Ht. simpl.
  destruct (truthy (_tag (self st))) eqn:Htag; eexists;
    (split; [reflexivity |]); split.
  - split.
    + simpl. rewrite lookup_set_prop_ne by discriminate.
      apply lookup_set_prop_eq.
    + intros _. simpl. apply lookup_set_prop_eq.
  - intros k Hk1 Hk2. simpl.
    rewrite !lookup_set_prop_ne by congruence. apply lookup_props_of.
  - split.
    + simpl. apply lookup_set_prop_eq.
    + intros Htrue. congruence.
  - intros k Hk1 Hk2. simpl.
    rewrite lookup_set_prop_ne by congruence. apply lookup_props_of.
Qed.

Lemma stamps_send data :
  falsy (prop data "messagingType") = true ->
  falsy (prop data "tag") = true ->
  sends_stamped (_send data).
Proof.
  intros Hm Ht st.
  destruct (send_stamps data st Hm Ht) as (m & -> & Hst & _). simpl.
  repeat split; auto. exists [m]. auto.
Qed.

Ltac stamps :=
  repeat first
    [ solve [auto with stamps]
    | apply stamps_send; reflexivity
    | apply stamps_update_self; intros ?; split; reflexivity
    | apply stamps_bind; [| intros ?]
    | match goal with
      | |- sends_stamped (if ?b then _ else _) => destruct b
      | |- sends_stamped (match ?x with _ => _ end) => destruct x
      | |- sends_stamped (let _ := _ in _) => cbv zeta
      end ].

Section WithRuntime.

Variable apply_fn : fn_id -> list JsVal -> Exc JsVal.
Variable util_format : JsVal -> list JsVal -> JsVal.
Variable JSON_stringify : JsVal -> JsVal.
Variable to_string : JsVal -> string.
Variable to_number : JsVal -> float.
Variable makeAbsolute : JsVal -> JsVal -> Exc JsVal.
Variable makeQuickReplies :
  JsVal -> JsVal -> JsVal -> list JsVal -> Exc (JsVal * JsVal).

Local Abbreviation run_call :=
  (run_call apply_fn util_format JSON_stringify to_string to_number
     makeAbsolute makeQuickReplies).
Local Abbreviation run_calls :=
  (run_calls apply_fn util_format JSON_stringify to_string to_number
     makeAbsolute makeQuickReplies).

Lemma stamps_senderAction action : sends_stamped (_senderAction action).
Proof. unfold _senderAction. stamps. Qed.

Lemma stamps_wait ms : sends_stamped (wait ms).
Proof. unfold wait. stamps. Qed.

Lemma stamps_typing_time text :
  sends_stamped (_getTypingTimeForText to_number text).
Proof. unfold _getTypingTimeForText. stamps. Qed.

Lemma stamps_autoTyping text :
  sends_stamped (_autoTypingIfEnabled to_number text).
Proof.
  unfold _autoTypingIfEnabled, typingOn.
  pose proof stamps_senderAction. pose proof stamps_wait.
  pose proof stamps_typing_time. stamps.
Qed.

Lemma stamps_setState object : sends_stamped (setState object).
Proof. unfold setState. stamps. Qed.

Lemma stamps_attachment url type reusable :
  sends_stamped (_attachment to_string to_number url type reusable).
Proof.
  unfold _attachment. pose proof stamps_autoTyping. stamps.
Qed.

Lemma stamps_run_call c : sets_type c = false -> sends_stamped (run_call c).
Proof.
  pose proof stamps_autoTyping. pose proof stamps_senderAction.
  pose proof stamps_wait. pose proof stamps_attachment.
  pose proof stamps_setState.
  destruct c; simpl; intros Hc; try discriminate Hc;
    unfold setData, setPath, text, addQuickReply, toAbsoluteAction,
      expected, image, video, file, template, typingOn, typingOff, seen,
      passThread, takeThead;
    stamps.
Qed.

Lemma run_calls_cons c calls st :
  run_calls (c :: calls) st = run_calls calls (snd (run_call c st)).
Proof. reflexivity. Qed.

(** Whatever a handler calls, the responder only adds to what the sender
    was handed; and as long as the handler does not change the messaging
    type, every message handed over carries the messaging type of the
    responder, and its tag when it has one. *)
Theorem sent_messages_stamped calls : forall st,
  (exists new, sent (run_calls calls st) = sent st ++ new)
  /\ (Forall (fun c => sets_type c = false) calls ->
        exists new,
          sent (run_calls calls st) = sent st ++ new
          /\ Forall (stamped (_messagingType (self st)) (_tag (self st)))
               new).
Proof.
  induction calls as [|c calls IH]; intros st.
  - split; [exists [] | intros _; exists []]; simpl;
      rewrite List.app_nil_r; auto.
  - rewrite run_calls_cons.
    destruct (IH (snd (run_call c st))) as ((new2 & H2) & Hrest).
    split.
    + destruct (sets_type c) eqn:Hc.
      * destruct c; try discriminate Hc. exists new2. exact H2.
      * destruct (stamps_run_call c Hc st) as (_ & _ & new1 & H1 & _).
        exists (new1 ++ new2). rewrite H2, H1, List.app_assoc. reflexivity.
    + intros Hall. inversion Hall as [|? ? Hc Hcalls]; subst.
      destruct (stamps_run_call c Hc st) as (Hty & Htag & new1 & H1 & Hs1).
      destruct (Hrest Hcalls) as (new3 & H3 & Hs3).
      exists (new1 ++ new3). rewrite H3, H1, List.app_assoc.
      split; [reflexivity |]. apply List.Forall_app. split; [exact Hs1 |].
      rewrite <- Hty, <- Htag. exact Hs3.
Qed.


Local Abbreviation text :=
  (text apply_fn util_format to_string to_number makeQuickReplies).

(** What the constructor leaves when no options are given: the translator
    is the identity, there is no auto typing, the messaging type is
    ['RESPONSE'] and no quick reply is collected. *)
Lemma new_defaults senderId token dataArg heap0 sent0 :
  let st0 := new senderId token None dataArg heap0 sent0 in
  heap st0 !! options (self st0)
  = Some {[ "translator" := JFun identity_fn; "appUrl" := JStr "" ]}
  /\ Responder._t (self st0) = JFun identity_fn
  /\ _quickReplyCollector (self st0) = []
  /\ _messagingType (self st0) = JStr TYPE_RESPONSE
  /\ _tag (self st0) = JNull
  /\ _senderId (self st0) = senderId
  /\ sent st0 = sent0.
Proof.
  cbv zeta. unfold new. cbv zeta. cbn [self heap sent options Responder._t
    _quickReplyCollector _messagingType _tag _senderId].
  unfold assign. rewrite (left_id_L ∅ (∪)).
  change (truthy (get {[ "translator" := JFun identity_fn;
                         "appUrl" := JStr "" ]} "autoTyping")) with false.
  cbv iota. rewrite lookup_insert_eq. repeat split; reflexivity.
Qed.

(** With no options, [text(t)] hands one message to the sender, the text
    as it is, addressed to the sender of the event and of the type
    ['RESPONSE'], and writes nothing else. *)
Theorem text_default senderId token dataArg heap0 sent0 t :
  let st0 := new senderId token None dataArg heap0 sent0 in
  text t [] st0
  = (Ok tt,
     mkSt (self st0) (heap st0)
       (sent0 ++ [JObj [ ("recipient", JObj [("id", senderId)]);
                         ("message", JObj [("text", t)]);
                         ("messaging_type", JStr "RESPONSE") ]])).
Proof.
  cbv zeta.
  destruct (new_defaults senderId token dataArg heap0 sent0)
    as (Hopts & Ht & Hcoll & Hty & Htag & Hid & Hsent).
  cbv zeta in *.
  remember (new senderId token None dataArg heap0 sent0) as st0 eqn:Est0.
  clear Est0.
  unfold Responder.text, mbind, get_self, lift. cbn [List.last length].
  rewrite Ht, Hcoll. cbn.
  unfold _autoTypingIfEnabled, mbind, get_self, read_obj. cbn.
  rewrite Hopts. cbn.
  change (falsy (get {[ "translator" := JFun identity_fn;
                        "appUrl" := JStr "" ]} "autoTyping")) with true.
  cbn. unfold _send, mbind, get_self, sender_send. cbn.
  rewrite Hty, Htag, Hid, Hsent. reflexivity.
Qed.


(** Two calls of [setState] are one call with the two objects merged, the
    later one winning; an attribute neither of them names keeps what the
    new state had. The same holds for [setData]. *)
Theorem setState_composes o1 o2 st :
  let st' := snd (mbind (setState o1) (fun _ => setState o2) st) in
  let old := default ∅ (heap st !! newState (self st)) in
  st' = snd (setState (o2 ∪ o1) st)
  /\ snd (mbind (setData o1) (fun _ => setData o2) st)
     = snd (setData (o2 ∪ o1) st)
  /\ forall k,
       default ∅ (heap st' !! newState (self st')) !! k
       = match o2 !! k with
         | Some v => Some v
         | None =>
             match o1 !! k with
             | Some v => Some v
             | None => old !! k
             end
         end.
Proof.
  cbv zeta. unfold setState, setData, mbind, get_self, assign_obj, assign.
  cbn [fst snd self heap sent].
  rewrite !lookup_insert_eq.
  repeat match goal with
         | |- context [default ?d (Some ?x)] =>
             change (default d (Some x)) with x
         end.
  rewrite !insert_insert_eq, !(assoc_L (∪)).
  split; [reflexivity |]. split; [reflexivity |].
  intros k. rewrite !lookup_union.
  destruct (o2 !! k), (o1 !! k), (default ∅ _ !! k); reflexivity.
Qed.

Lemma preserves_ret {A B} (attribute : Responder -> B) (a : A) :
  preserves attribute (ret a : StM St A).
Proof. intros st. reflexivity. Qed.

Lemma preserves_lift {A B} (attribute : Responder -> B) (c : Exc A) :
  preserves attribute (lift c : StM St A).
Proof. intros st. reflexivity. Qed.

Lemma preserves_bind {A B C} (attribute : Responder -> C)
    (c : StM St A) (k : A -> StM St B) :
  preserves attribute c -> (forall a, preserves attribute (k a)) ->
  preserves attribute (mbind c k).
Proof.
  intros Hc Hk st. unfold mbind. pose proof (Hc st) as H1.
  destruct (c st) as [[a|e] st1]; simpl in *; [| exact H1].
  rewrite (Hk a st1). exact H1.
Qed.

Lemma preserves_send {B} (attribute : Responder -> B) data :
  preserves attribute (_send data).
Proof. intros st. reflexivity. Qed.

Lemma preserves_senderAction {B} (attribute : Responder -> B) action :
  preserves attribute (_senderAction action).
Proof. intros st. reflexivity. Qed.

Lemma preserves_typing_time {B} (attribute : Responder -> B) text0 :
  preserves attribute (_getTypingTimeForText to_number text0).
Proof.
  unfold _getTypingTimeForText.
  repeat first
    [ apply preserves_ret | apply preserves_lift
    | apply preserves_bind; [| intros ?]
    | intros st; reflexivity
    | match goal with
      | |- preserves _ (if ?b then _ else _) => destruct b
      | |- preserves _ (match ?x with _ => _ end) => destruct x
      | |- preserves _ (let _ := _ in _) => cbv zeta
      end ].
Qed.

Lemma collector_autoTyping text0 :
  preserves _quickReplyCollector (_autoTypingIfEnabled to_number text0).
Proof.
  unfold _autoTypingIfEnabled, typingOn, wait.
  apply preserves_bind; [intros st; reflexivity | intros this].
  apply preserves_bind; [intros st; reflexivity | intros opts].
  destruct (falsy _); [apply preserves_ret |].
  destruct (_ && _); [intros st; reflexivity |].
  apply preserves_bind; [apply preserves_typing_time | intros time].
  apply preserves_bind; [apply preserves_senderAction | intros _].
  cbv zeta. apply preserves_send.
Qed.

(** Once [text] has returned, no collected quick reply is left: what
    [addQuickReply] collected went into this message. *)
Theorem text_consumes_quick_replies t quickReplies st st' :
  text t quickReplies st = (Ok tt, st') ->
  _quickReplyCollector (self st') = [].
Proof.
  unfold Responder.text. unfold mbind at 1 2. unfold get_self at 1.
  cbv zeta. unfold lift at 1.
  destruct (call_fn apply_fn to_string (Responder._t (self st)) [t])
    as [translated|e]; [| discriminate].
  unfold mbind at 1.
  match goal with
  | |- context [(if ?c then _ else ret ?m) st] =>
      destruct c eqn:Hcond
  end.
  - unfold mbind at 1. unfold lift at 1.
    destruct (makeQuickReplies _ _ _ _) as [made|e]; [| discriminate].
    unfold mbind at 1. unfold update_self at 1.
    unfold mbind at 1. unfold setState at 1. unfold mbind at 1.
    unfold get_self at 1. unfold assign_obj at 1. unfold ret at 1.
    intros H.
    match type of H with
    | mbind ?c ?k ?s = _ =>
        pose proof (preserves_bind _quickReplyCollector c k
                      (collector_autoTyping _)
                      (fun _ => preserves_send _ _) s) as Hp
    end.
    rewrite H in Hp. exact Hp.
  - unfold ret at 1. intros H.
    match type of H with
    | mbind ?c ?k ?s = _ =>
        pose proof (preserves_bind _quickReplyCollector c k
                      (collector_autoTyping _)
                      (fun _ => preserves_send _ _) s) as Hp
    end.
    rewrite H in Hp. simpl in Hp. rewrite Hp.
    apply orb_false_iff in Hcond as [_ Hlen].
    apply negb_false_iff in Hlen. apply Nat.eqb_eq in Hlen.
    destruct (_quickReplyCollector (self st)); [reflexivity | discriminate].
Qed.


Lemma typing_time_ok text0 st opts :
  heap st !! options (self st) = Some opts ->
  truthy (get opts "autoTyping") = true ->
  exists ms, _getTypingTimeForText to_number text0 st = (Ok (JNum ms), st).
Proof.
  intros Hopts Hauto.
  unfold _getTypingTimeForText, mbind, get_self, read_obj, lift, ret.
  rewrite Hopts. cbn [default from_option id].
  destruct (strict_eq text0 (JBool false)); [eauto |].
  rewrite !(get_prop_truthy _ _ Hauto).
  destruct text0; eauto.
Qed.

Lemma autoTyping_unfold text0 st opts :
  heap st !! options (self st) = Some opts ->
  _autoTypingIfEnabled to_number text0 st
  = (if falsy (get opts "autoTyping") then ret tt
     else if negb (strict_eq (_messagingType (self st)) (JStr TYPE_RESPONSE))
             && negb (_firstTypingSkipped (self st))
     then update_self (fun this => with_typing_skipped this true)
     else
       typingTime <~ _getTypingTimeForText to_number text0 ;;
       _ <~ typingOn ;;
       wait typingTime) st.
Proof.
  intros Hopts. unfold _autoTypingIfEnabled.
  unfold mbind at 1. unfold get_self at 1.
  unfold mbind at 1. unfold read_obj at 1. rewrite Hopts. reflexivity.
Qed.

(** The typing indicator before a message: nothing happens without the
    option [autoTyping]; the first message of a responder whose messaging
    type is not ['RESPONSE'] only marks that the first typing was skipped;
    otherwise [typing_on] and a wait of some milliseconds are handed to the
    sender, in this order, and nothing else changes. *)
Theorem auto_typing_cases text0 st opts :
  heap st !! options (self st) = Some opts ->
  let enabled := truthy (get opts "autoTyping") in
  let update :=
    negb (strict_eq (_messagingType (self st)) (JStr TYPE_RESPONSE)) in
  let st' := snd (_autoTypingIfEnabled to_number text0 st) in
  (enabled = false -> st' = st)
  /\ (enabled = true -> update = true ->
      _firstTypingSkipped (self st) = false ->
        sent st' = sent st /\ heap st' = heap st
        /\ _firstTypingSkipped (self st') = true)
  /\ (enabled = true ->
      update = false \/ _firstTypingSkipped (self st) = true ->
        exists typing time ms,
          sent st' = sent st ++ [typing; time]
          /\ prop typing "sender_action" = JStr "typing_on"
          /\ prop time "wait" = JNum ms
          /\ self st' = self st /\ heap st' = heap st).
Proof.
  intros Hopts. cbv zeta.
  rewrite (autoTyping_unfold text0 st opts Hopts). unfold falsy.
  split; [| split].
  - intros ->. reflexivity.
  - intros -> -> ->. cbn. auto.
  - intros Hon Hcase.
    assert (Hskip :
              negb (strict_eq (_messagingType (self st)) (JStr TYPE_RESPONSE))
              && negb (_firstTypingSkipped (self st)) = false).
    { destruct Hcase as [-> | ->]; [reflexivity | apply andb_false_r]. }
    rewrite Hon. cbn [negb]. rewrite Hskip.
    destruct (typing_time_ok text0 st opts Hopts Hon) as (ms & Htime).
    destruct (send_stamps
                (JObj [("recipient", JObj [("id", _senderId (self st))]);
                       ("sender_action", JStr "typing_on")])
                st eq_refl eq_refl) as (typing & Hsend & _ & Hprops).
    destruct (send_stamps (JObj [("wait", JNum ms)])
                (mkSt (self st) (heap st) (sent st ++ [typing]))
                eq_refl eq_refl) as (time & Hwait & _ & Hprops').
    cbn [self heap sent] in Hwait.
    assert (Hrun :
              (typingTime <~ _getTypingTimeForText to_number text0 ;;
               _ <~ typingOn ;;
               wait typingTime) st
              = (Ok tt,
                 mkSt (self st) (heap st) ((sent st ++ [typing]) ++ [time]))).
    { unfold mbind at 1. rewrite Htime.
      unfold typingOn, _senderAction. unfold mbind at 1 2.
      unfold get_self at 1. rewrite Hsend. exact Hwait. }
    rewrite Hrun. cbn [snd self heap sent].
    exists typing, time, ms. rewrite <- List.app_assoc.
    repeat split.
    + rewrite Hprops by discriminate. reflexivity.
    + rewrite Hprops' by discriminate. reflexivity.
Qed.

End WithRuntime.

Lemma sent_messages_stamped_witness :
  exists msgs,
    sent (Responder.run_calls RuntimeSamples.sample_apply
            ResponderSamples.sample_format ResponderSamples.sample_stringify
            RuntimeSamples.sample_to_string ResponderSamples.sample_number
            ResponderSamples.sample_absolute
            ResponderSamples.sample_quick_replies
            ResponderSamples.sample_calls
            (new (JStr "user") JNull None None ResponderSamples.sample_heap []))
    = msgs
    /\ Forall (stamped (JStr "RESPONSE") JNull) msgs.
Proof.
  destruct (proj2 (sent_messages_stamped RuntimeSamples.sample_apply
                     ResponderSamples.sample_format
                     ResponderSamples.sample_stringify
                     RuntimeSamples.sample_to_string
                     ResponderSamples.sample_number
                     ResponderSamples.sample_absolute
                     ResponderSamples.sample_quick_replies
                     ResponderSamples.sample_calls
                     (new (JStr "user") JNull None None
                        ResponderSamples.sample_heap [])))
    as (msgs & Hsent & Hall).
  - repeat constructor.
  - exists msgs. split; [exact Hsent | exact Hall].
Defined.

Lemma text_consumes_quick_replies_witness :
  _quickReplyCollector
    (self
       (snd
          (Responder.text RuntimeSamples.sample_apply
             ResponderSamples.sample_format RuntimeSamples.sample_to_string
             ResponderSamples.sample_number
             ResponderSamples.sample_quick_replies (JStr "Hello") []
             ResponderApiSamples.collecting)))
  = [].
Proof.
  apply (text_consumes_quick_replies RuntimeSamples.sample_apply
           ResponderSamples.sample_format RuntimeSamples.sample_to_string
           ResponderSamples.sample_number
           ResponderSamples.sample_quick_replies (JStr "Hello") []
           ResponderApiSamples.collecting).
  vm_compute. reflexivity.
Defined.

Lemma auto_typing_cases_witness :
  exists typing time,
    sent (snd (_autoTypingIfEnabled ResponderSamples.sample_number
                 (JStr "Hello") ResponderApiSamples.typing))
    = [typing; time].
Proof.
  destruct (auto_typing_cases ResponderSamples.sample_number (JStr "Hello")
              ResponderApiSamples.typing
              {[ "translator" := JFun identity_fn; "appUrl" := JStr "";
                 "autoTyping" := JObj default_autoTyping ]})
    as (_ & _ & Hon).
  - vm_compute. reflexivity.
  - destruct Hon as (typing & time & ms & Hsent & _);
      [reflexivity | left; reflexivity |].
    exists typing, time. exact Hsent.
Defined.

End ResponderFacts.

(** ** The constructor of the request *)

Module RequestConstructor.
Import Js JsFacts Request RequestApi.

Lemma null_or_truthy v :
  negb (is_null (js_or v JNull)) = truthy (js_or v JNull).
Proof.
  unfold js_or. destruct (truthy v) eqn:E; [| reflexivity].
  rewrite E. destruct v; try reflexivity; discriminate E.
Qed.

(** The constructor normalises what the event lacks to [null]: the
    message, the postback, the referral and the optin of a request are
    [null] or truthy, never [undefined], so the tests against [null] of the
    accessors decide whether they are there; the attachments are always
    there; and the constructor throws only for an event that is [null] or
    [undefined]. *)
Theorem constructor_normalises data st page now :
  (forall r, Request.new data st page now = Ok r ->
     isMessage r = truthy (message r)
     /\ isPostBack r = truthy (_postback r)
     /\ isReferral r = truthy (_referral r)
     /\ isOptin r = truthy (_optin r)
     /\ truthy (attachments r) = true
     /\ (senderId r = JNull \/ truthy (senderId r) = true)
     /\ Request.data r = data /\ Request.state r = st /\ _intents r = None)
  /\ ((exists r, Request.new data st page now = Ok r)
      <-> data <> JUndefined /\ data <> JNull).
Proof.
  split.
  - intros r H. unfold Request.new in H.
    repeat match type of H with
           | bind _ _ = Ok _ => apply bind_ok in H as (? & _ & H)
           end.
    inversion H; subst; clear H.
    unfold isMessage, isPostBack, isReferral, isOptin.
    cbn [message _postback _referral _optin attachments senderId
         Request.data Request.state _intents].
    rewrite !null_or_truthy. repeat split.
    + rewrite truthy_js_or. apply orb_true_r.
    + unfold js_or at 1.
      destruct (truthy (and_prop _ "id")) eqn:E; [right | left; reflexivity].
      unfold js_or. rewrite E. exact E.
  - split.
    + intros (r & H). destruct data; try discriminate H;
        split; discriminate.
    + intros (Hu & Hn). unfold Request.new.
      destruct data; try contradiction; simpl; eauto.
Qed.

Lemma constructor_normalises_witness :
  isPostBack
    (Samples.request_of Samples.postback_and_quick_reply (JObj [])) = true
  /\ isOptin
       (Samples.request_of Samples.postback_and_quick_reply (JObj []))
     = false.
Proof.
  destruct (proj1 (constructor_normalises Samples.postback_and_quick_reply
                     (JObj []) (JStr "page") 1%float)
              (Samples.request_of Samples.postback_and_quick_reply (JObj []))
              eq_refl)
    as (_ & Hp & _ & Ho & _).
  split; [rewrite Hp | rewrite Ho]; reflexivity.
Defined.

End RequestConstructor.

(** ** The priority of the signals in [Request.action] *)

Module RequestPriority.
Import Js JsFacts Request RequestFacts RequestApi ActionSources Samples.

Section WithUtils.

Variable parseActionPayload : JsVal -> Exc ParsedPayload.
Variable quickReplyAction : JsVal -> JsVal -> JsVal -> Exc JsVal.
Variable tokenize : JsVal -> Exc JsVal.
Variable base64_to_utf8 : string -> string.

Local Abbreviation action :=
  (action parseActionPayload quickReplyAction tokenize base64_to_utf8).
Local Abbreviation sources :=
  (sources parseActionPayload quickReplyAction tokenize base64_to_utf8).
Local Abbreviation guarded_steps :=
  (guarded_steps parseActionPayload quickReplyAction tokenize base64_to_utf8).
Local Abbreviation priority_sources :=
  (priority_sources parseActionPayload quickReplyAction tokenize
     base64_to_utf8).
Local Abbreviation action_by_priority :=
  (action_by_priority parseActionPayload quickReplyAction tokenize
     base64_to_utf8).

Lemma finish_falsy g v : truthy v = false -> finish g v = finish g JNull.
Proof.
  intros H. unfold finish. destruct g; rewrite !js_or_falsy; auto.
Qed.

Lemma run_steps_yield g steps : forall res,
  Forall guarded steps ->
  truthy res = false ->
  (r <- run_steps steps res ;; Ok (finish g r))
  = (v <- first_yield (List.map (fun st => st JNull) steps) ;;
     Ok (finish g v)).
Proof.
  induction steps as [|step steps IH]; intros res Hg Hres.
  - cbn. rewrite (finish_falsy g res Hres). reflexivity.
  - inversion Hg as [|? ? Hstep Hsteps]; subst.
    cbn [run_steps List.map first_yield].
    assert (Hfrom_null :
              forall v, step JNull = Ok v -> truthy v = false ->
                (r <- run_steps steps v ;; Ok (finish g r))
                = (v <- first_yield (List.map (fun st => st JNull) steps) ;;
                   Ok (finish g v)))
      by (intros v _ Hv; apply IH; assumption).
    destruct (Hstep res) as [_ [E | [E Enull]]]; auto.
    + rewrite E. destruct (step JNull) as [v|e] eqn:Es; cbn [bind];
        [| reflexivity].
      destruct (truthy v) eqn:Hv.
      * rewrite (run_steps_truthy steps v Hsteps Hv). reflexivity.
      * apply IH; assumption.
    + rewrite E, Enull. cbn [bind truthy]. apply IH; assumption.
Qed.

(** [action] returns the first of its sources that yields an action, each
    taken from [null], and throws what the first of them to throw does. *)
Lemma action_first_yield this g :
  action this g = (v <- first_yield (sources this g) ;; Ok (finish g v)).
Proof.
  rewrite action_unfold, sources_steps. cbn [first_yield].
  destruct (Request.action_referral parseActionPayload this g JNull)
    as [v|e]; cbn [bind]; [| reflexivity].
  destruct (truthy v) eqn:Hv.
  - rewrite (run_steps_truthy _ v (guarded_steps_guarded _ _ _ _ _ _) Hv).
    reflexivity.
  - apply run_steps_yield; [apply guarded_steps_guarded | exact Hv].
Qed.

Lemma get_prop_prop v k x : get_prop v k = Ok x -> x = prop v k.
Proof. destruct v; simpl; intros H; inversion H; reflexivity. Qed.

Lemma referral_by_priority v this g :
  _referral this = js_or v JNull ->
  Request.source_referral parseActionPayload this g
  = referral_source parseActionPayload this g.
Proof.
  intros E. unfold Request.source_referral, Request.action_referral,
    referral_source, isReferral. rewrite E. unfold js_or.
  destruct (truthy v) eqn:Hv; [| reflexivity].
  destruct v; try discriminate Hv;
    cbn [is_null negb andb get_prop prop bind truthy]; try reflexivity.
Qed.

Lemma optin_by_priority v this g :
  _optin this = js_or v JNull ->
  Request.source_optin parseActionPayload base64_to_utf8 this g
  = optin_source parseActionPayload base64_to_utf8 this g.
Proof.
  intros E. unfold Request.source_optin, Request.action_optin,
    optin_source, isOptin. rewrite E. unfold js_or.
  cbn [falsy truthy negb andb].
  destruct (truthy v) eqn:Hv; [| reflexivity].
  destruct v; try discriminate Hv;
    cbn [is_null negb andb get_prop prop bind truthy]; try reflexivity.
Qed.

Lemma postback_by_priority this g :
  Request.source_postback parseActionPayload this g
  = postback_source parseActionPayload this g.
Proof.
  unfold Request.source_postback, Request.action_postback, postback_source,
    postBack. cbn [falsy truthy negb andb].
  destruct (is_null (_postback this)); reflexivity.
Qed.

Lemma quick_reply_by_priority this g :
  Request.source_quick_reply parseActionPayload this g
  = quick_reply_source parseActionPayload this g.
Proof.
  unfold Request.source_quick_reply, Request.action_quick_reply,
    quick_reply_source, quickReply. cbn [falsy truthy negb andb].
  destruct (is_null (message this)); [reflexivity |].
  destruct (get_prop (message this) "quick_reply") as [qr|e];
    [| reflexivity].
  cbn [bind]. unfold falsy. destruct (truthy qr); reflexivity.
Qed.

Lemma pass_thread_by_priority this g :
  control_comes_with_target this ->
  Request.source_pass_thread parseActionPayload this g
  = pass_thread_source parseActionPayload this g.
Proof.
  intros Hguard. unfold Request.source_pass_thread,
    Request.action_pass_thread, pass_thread_source.
  cbn [falsy truthy negb].
  destruct (isPassThread this) as [pass|e] eqn:Hpass; [| reflexivity].
  cbn [bind]. destruct (truthy pass) eqn:Htp; [| reflexivity].
  unfold isPassThread in Hpass.
  apply bind_ok in Hpass as (target & Ht & Hpass).
  apply bind_ok in Hpass as (control & Hc & Hpass).
  inversion Hpass; subst pass. clear Hpass.
  rewrite Hc. cbn [bind].
  pose proof (get_prop_prop _ _ _ Ht) as Et.
  pose proof (get_prop_prop _ _ _ Hc) as Ec.
  rewrite <- Ec. unfold control_comes_with_target in Hguard.
  rewrite <- Et, <- Ec in Hguard.
  unfold and_prop, js_and.
  destruct (truthy control) eqn:Hcontrol.
  - rewrite (get_prop_truthy control "metadata" Hcontrol). reflexivity.
  - assert (Htarget : truthy target = true).
    { rewrite truthy_js_or, Hcontrol, orb_false_r in Htp. exact Htp. }
    specialize (Hguard Htarget).
    destruct control; try discriminate Hguard; try discriminate Hcontrol;
      cbn [get_prop bind]; rewrite ?Hcontrol; reflexivity.
Qed.

Lemma keywords_by_priority this g :
  Request.source_keywords parseActionPayload quickReplyAction tokenize this g
  = keywords_source parseActionPayload quickReplyAction tokenize this g.
Proof.
  unfold Request.source_keywords, Request.action_keywords, keywords_source,
    _actionByExpectedKeywords. cbn [falsy truthy negb andb].
  destruct (get_prop (state this) "_expectedKeywords") as [k|e];
    [| reflexivity].
  cbn [bind]. destruct (truthy k); reflexivity.
Qed.

Lemma expected_by_priority this g :
  Request.source_expected parseActionPayload this g
  = expected_source parseActionPayload this g.
Proof.
  unfold Request.source_expected, Request.action_expected, expected_source,
    expected. cbn [falsy truthy negb].
  destruct (get_prop (state this) "_expected") as [e|err]; [| reflexivity].
  cbn [bind]. rewrite truthy_js_or. cbn [truthy]. rewrite orb_false_r.
  destruct (truthy e) eqn:He; [| reflexivity].
  rewrite (js_or_truthy e JNull He). reflexivity.
Qed.

(** For every request the constructor builds, whatever the state and the
    helpers are: as long as an event that names [target_app_id] also
    carries [pass_thread_control], [action] returns what the first signal
    that yields an action gives, in the order referral, postback, optin,
    quick reply, pass-thread, expected keywords, expected action, each
    signal read from the request itself; it throws what the first signal
    to throw does, and returns the default when none yields. *)
Theorem action_follows_priority data state pageId now this getData :
  Request.new data state pageId now = Ok this ->
  control_comes_with_target this ->
  action this getData = action_by_priority this getData.
Proof.
  intros Hnew Hguard. rewrite action_first_yield.
  unfold ActionSources.action_by_priority. f_equal. f_equal.
  unfold Request.new in Hnew.
  repeat match type of Hnew with
         | bind _ _ = Ok _ => apply bind_ok in Hnew as (? & _ & Hnew)
         end.
  injection Hnew as Ethis.
  assert (Hreferral : exists v, _referral this = js_or v JNull)
    by (rewrite <- Ethis; cbn [_referral]; eauto).
  assert (Hoptin : exists v, _optin this = js_or v JNull)
    by (rewrite <- Ethis; cbn [_optin]; eauto).
  clear Ethis.
  destruct Hreferral as (vr & Hr). destruct Hoptin as (vo & Ho).
  unfold Request.sources, ActionSources.priority_sources.
  rewrite (referral_by_priority vr this getData Hr),
    (optin_by_priority vo this getData Ho),
    (pass_thread_by_priority this getData Hguard),
    postback_by_priority, quick_reply_by_priority, keywords_by_priority,
    expected_by_priority.
  reflexivity.
Qed.

(** C1. The order of priority is not followed through for every event:
    an event that only names [target_app_id] is no message, postback,
    referral or optin and has no pass-thread control, and the state holds
    an expected action, so the order of priority arrives at the expected
    action; [action] does not return it but throws a [TypeError] at the
    pass-thread step, whether data are asked for or not. *)
Theorem action_stops_at_pass_thread :
  let this := request_of target_app_only expecting_state in
  Request.new target_app_only expecting_state (JStr "page") 1%float = Ok this
  /\ kinds this = (false, false, false, false)
  /\ get_prop (data this) "pass_thread_control" = Ok JUndefined
  /\ get_prop (state this) "_expectedKeywords" = Ok JUndefined
  /\ expected this
     = Ok (JObj [("action", JStr "next"); ("data", JObj [])])
  /\ forall getData,
       action this getData
       = Throw (TypeError "Cannot read property 'metadata' of undefined").
Proof.
  cbv zeta. repeat split.
Qed.

End WithUtils.

(** The event with a postback and a quick reply: the postback comes
    first. *)
Lemma action_follows_priority_witness :
  Request.action sample_parse sample_quickReplyAction sample_tokenize
    sample_base64 (request_of postback_and_quick_reply (JObj [])) false
  = Ok (JStr "from-postback")
  /\ quick_reply_source sample_parse
       (request_of postback_and_quick_reply (JObj [])) false
     = Ok (JStr "from-quick-reply").
Proof.
  split; [| reflexivity].
  rewrite (action_follows_priority sample_parse sample_quickReplyAction
             sample_tokenize sample_base64 postback_and_quick_reply (JObj [])
             (JStr "page") 1%float
             (request_of postback_and_quick_reply (JObj [])) false eq_refl).
  - reflexivity.
  - intros H. discriminate H.
Defined.

End RequestPriority.
